(** * boardfarm: device composition and environment matching

    A shallow embedding of

      - [boardfarm/lib/env_helper.py]: [EnvHelper.__init__], the
        recursive matcher [contained] nested in [EnvHelper.env_check],
        the accessors of the class and [env_devices];
      - [boardfarm/devices/__init__.py]: [bf_node], [get_device],
        [_prompt.get_prompts] and [get_device_mapping_class];
      - [boardfarm/lib/ConfigHelper.py]: [singleton] and [ConfigHelper];
      - [boardfarm/use_cases/device_getters.py]: [get_lan_clients] and
        [get_wan_clients].

    Python values are modelled twice.  [Py.value] is the tree a JSON
    document denotes; it is enough wherever the code only reads.  Where the
    code mutates objects in place ([list.remove] in [contained], [dict.pop]
    in [get_device]) the objects live in a store [PyHeap.heap] and are
    handled through their addresses, so that aliasing between the caller's
    objects and the callee's locals is visible. *)

From Stdlib Require Import ZArith List Bool Lia.
From stdpp Require Import base option list strings gmap fin_maps pretty.

(** ** Python values, exceptions and results *)

Module Py.

(** Exception classes the embedded code raises or catches.  [UserExc] is
    any other class deriving from [Exception], named by its class name;
    [BaseExc] is a class deriving from [BaseException] only (for instance
    [KeyboardInterrupt]). *)
Inductive exn_class : Type :=
| Exception
| TypeError
| IndexError
| AttributeError
| KeyError
| ValueError
| AssertionError
| BftBaseException
| BftNotSupportedDevice
| ConnectionRefused
| BftEnvMismatch
| pexpect_EOF
| UserExc (name : string)
| BaseExc (name : string).

(** An exception object: its class and the text [str(e)] returns. *)
Record exn : Type := mk_exn { exn_cls : exn_class; exn_msg : string }.

Inductive result (A : Type) : Type :=
| Ok (a : A)
| Raise (e : exn).
Arguments Ok {A} a.
Arguments Raise {A} e.

Definition bind {A B} (r : result A) (k : A -> result B) : result B :=
  match r with
  | Ok a => k a
  | Raise e => Raise e
  end.

Definition raise {A} (c : exn_class) (msg : string) : result A :=
  Raise (mk_exn c msg).

(** JSON-like Python values.  Dictionaries keep insertion order, which is
    the order [for k in d] visits; keys are strings, as in every
    dictionary read from JSON.  Floating point numbers are left out. *)
#[local] Unset Elimination Schemes.
Inductive value : Type :=
| VNone
| VBool (b : bool)
| VInt (n : Z)
| VStr (s : string)
| VList (l : list value)
| VDict (d : list (string * value)).
#[local] Set Elimination Schemes.

(** [d[k]] on the item list of a dictionary. *)
Fixpoint dict_get {A} (k : string) (d : list (string * A)) : option A :=
  match d with
  | [] => None
  | (k', v) :: d' => if String.eqb k k' then Some v else dict_get k d'
  end.

Definition dict_keys {A} (d : list (string * A)) : list string := map fst d.

(** Python's [==].  [bool] is a subclass of [int], so [True == 1];
    lists are equal elementwise; dictionaries are equal when they have
    as many items and every item of the first is an item of the second,
    whatever the order. *)
Fixpoint py_eq (a b : value) {struct a} : bool :=
  match a, b with
  | VNone, VNone => true
  | VBool x, VBool y => Bool.eqb x y
  | VBool x, VInt n => Z.eqb (Z.b2z x) n
  | VInt n, VBool y => Z.eqb n (Z.b2z y)
  | VInt n, VInt m => Z.eqb n m
  | VStr s, VStr t => String.eqb s t
  | VList l, VList m =>
      (fix eq_items (l m : list value) {struct l} : bool :=
         match l, m with
         | [], [] => true
         | x :: l', y :: m' => py_eq x y && eq_items l' m'
         | _, _ => false
         end) l m
  | VDict d, VDict e =>
      Nat.eqb (length d) (length e) &&
      (fix sub_items (d : list (string * value)) {struct d} : bool :=
         match d with
         | [] => true
         | (k, v) :: d' =>
             match dict_get k e with
             | Some w => py_eq v w
             | None => false
             end && sub_items d'
         end) d
  | _, _ => false
  end.

(** [x in l] for a list [l]: some item equals [x]. *)
Definition list_contains (l : list value) (x : value) : bool :=
  existsb (fun item => py_eq item x) l.

(** [l.remove(x)]: drops the first item equal to [x]; [ValueError]
    when there is none. *)
Fixpoint list_remove (x : value) (l : list value) : result (list value) :=
  match l with
  | [] => raise ValueError "list.remove(x): x not in list"
  | item :: l' =>
      if py_eq item x then Ok l'
      else bind (list_remove x l') (fun r => Ok (item :: r))
  end.

(** [a.items() <= b.items()] on two dictionaries: the view comparison
    first compares the sizes, then looks every item of [a] up in [b]. *)
Definition items_le (a b : list (string * value)) : bool :=
  Nat.leb (length a) (length b) &&
  forallb (fun kv => match dict_get (fst kv) b with
                     | Some w => py_eq (snd kv) w
                     | None => false
                     end) a.

(** [k in s] for two strings: [k] occurs in [s] as a substring. *)
Fixpoint str_contains (k s : string) : bool :=
  String.prefix k s ||
  match s with
  | EmptyString => false
  | String _ s' => str_contains k s'
  end.

End Py.

(** ** [boardfarm/lib/env_helper.py] on value trees *)

Module EnvHelper.
Import Py.

(** [k in env_helper], as the dictionary branch of [contained] evaluates
    it on whatever [env_helper] is: key lookup in a dictionary, substring
    test in a string, membership in a list, [TypeError] elsewhere. *)
Definition key_in (k : string) (env_helper : value) : result bool :=
  match env_helper with
  | VDict d =>
      Ok (match dict_get k d with Some _ => true | None => false end)
  | VStr s => Ok (str_contains k s)
  | VList l => Ok (list_contains l (VStr k))
  | VNone | VBool _ | VInt _ =>
      raise TypeError "argument is not iterable"
  end.

(** [env_helper[k]] with a string [k]. *)
Definition getitem (env_helper : value) (k : string) : result value :=
  match env_helper with
  | VDict d =>
      match dict_get k d with
      | Some v => Ok v
      | None => raise KeyError ("'" +:+ k +:+ "'")
      end
  | VStr _ => raise TypeError "string indices must be integers"
  | VList _ => raise TypeError "list indices must be integers or slices, not str"
  | VNone | VBool _ | VInt _ => raise TypeError "object is not subscriptable"
  end.

(** The inner [for env in env_helper_list] of the list branch: the first
    entry whose items include those of [test].  [env.items()] is
    evaluated on every entry visited, so an entry that is not a
    dictionary raises [AttributeError]. *)
Fixpoint find_superset (test : list (string * value))
    (env_helper_list : list value) : result (option value) :=
  match env_helper_list with
  | [] => Ok None
  | env :: rest =>
      match env with
      | VDict e =>
          if items_le test e then Ok (Some env)
          else find_superset test rest
      | _ => raise AttributeError "object has no attribute 'items'"
      end
  end.

(** How [for test in env_test] ends: by [return False] inside the loop,
    or by running off the end with the working copy and the counter. *)
Inductive loop_exit : Type :=
| Returned (b : bool)
| Fell (env_helper_list : list value) (count : nat).

(** [for test in env_test: ...] over the working copy
    [env_helper_list] and the counter [count]. *)
Fixpoint match_items (env_test : list value)
    (env_helper_list : list value) (count : nat) : result loop_exit :=
  match env_test with
  | [] => Ok (Fell env_helper_list count)
  | test :: tests =>
      match test with
      | VDict t =>
          bind (find_superset t env_helper_list) (fun found =>
            match found with
            | Some env =>
                bind (list_remove env env_helper_list) (fun l' =>
                  match_items tests l' (S count))
            | None => match_items tests env_helper_list count
            end)
      | _ =>
          if negb (list_contains env_helper_list test)
          then Ok (Returned false)
          else match_items tests env_helper_list (S count)
      end
  end.

(** The body of the [elif type(env_test) is list] branch. *)
Definition contained_list (env_test : list value) (env_helper : value)
    : result bool :=
  match env_helper with
  | VList h =>
      match env_test with
      | [] => raise IndexError "list index out of range"
      | first :: _ =>
          if match first with VNone => true | _ => false end
             && Nat.ltb 0 (length h)
          then Ok true
          else
            (* env_helper_list = env_helper.copy(); count = 0 *)
            bind (match_items env_test h 0) (fun ex =>
              match ex with
              | Returned b => Ok b
              | Fell _ count =>
                  if negb (Nat.eqb (length env_test) count)
                  then Ok false
                  else Ok true
              end)
      end
  | _ => Ok (list_contains env_test env_helper)
  end.

(** The [else] branch, for a required value that is neither a dictionary
    nor a list. *)
Definition contained_scalar (env_test env_helper : value) : bool :=
  if match env_test, env_helper with
     | VNone, VNone => false
     | VNone, _ => true
     | _, _ => false
     end
  then true
  else if py_eq env_test env_helper then true
  else false.

(** [contained(env_test, env_helper, path)].  The loop [for k in
    env_test] runs over the items of the dictionary; [sub_test] is
    [env_test[k]], the keys of a dictionary being distinct.  The texts of
    the exceptions the interpreter raises are abridged. *)
Fixpoint contained (env_test env_helper : value) (path : string)
    {struct env_test} : result bool :=
  match env_test with
  | VDict d =>
      (fix for_k (items : list (string * value)) : result bool :=
         match items with
         | [] => Ok true
         | (k, sub_test) :: items' =>
             bind (key_in k env_helper) (fun present =>
               if negb present then Ok false
               else
                 bind (getitem env_helper k) (fun sub_helper =>
                   bind (contained sub_test sub_helper (path +:+ "->" +:+ k))
                     (fun ok => if negb ok then Ok false
                                else for_k items')))
         end) d
  | VList l => contained_list l env_helper
  | _ => Ok (contained_scalar env_test env_helper)
  end.

(** The whitelist of [EnvHelper.__init__]. *)
Definition supported_versions : list string :=
  [ "1.0"; "1.1"; "1.2"; "2.0"; "2.1"; "2.2"; "2.3"; "2.4"; "2.5"; "2.6";
    "2.7"; "2.8"; "2.9"; "2.10"; "2.11"; "2.12"; "2.13"; "2.14"; "2.15";
    "2.16"; "2.17"; "2.18"; "2.19" ].

(** The attributes [__init__] sets on the instance; [None] is an
    attribute that was never assigned. *)
Record env_helper_obj : Type := mk_env_helper {
  self_env : option value;
  self_mirror : option string
}.

(** [EnvHelper.__init__(self, env, mirror=None)].  With [env is None]
    the method returns before any attribute is set.  A failing [assert]
    raises [AssertionError] with the message of the source; [mirror] is
    stored when it is truthy, that is, given and not empty. *)
Definition __init__ (env : value) (mirror : option string)
    : result env_helper_obj :=
  match env with
  | VNone => Ok (mk_env_helper None None)
  | _ =>
      bind (getitem env "version") (fun version =>
        if list_contains (map VStr supported_versions) version
        then
          Ok (mk_env_helper (Some env)
                (Some (match mirror with
                       | Some m => if String.eqb m "" then "" else m
                       | None => ""
                       end)))
        else raise AssertionError "Unknown environment version!")
  end.

(** [EnvHelper.env_check(self, test_environment)]. *)
Definition env_check (self : env_helper_obj) (test_environment : value)
    : result bool :=
  match self_env self with
  | None => raise AttributeError "'EnvHelper' object has no attribute 'env'"
  | Some e =>
      bind (contained test_environment e "root") (fun ok =>
        if negb ok then raise BftEnvMismatch "" else Ok true)
  end.

End EnvHelper.

(** ** Python objects in a store *)

Module PyHeap.
Import Py.

Definition loc : Type := positive.

(** An object of the store.  Containers hold the addresses of their
    items, so two containers can share an item and a shallow copy shares
    all of them with its original. *)
Inductive obj : Type :=
| ONone
| OBool (b : bool)
| OInt (n : Z)
| OStr (s : string)
| OList (items : list loc)
| ODict (items : list (string * loc)).

Abbreviation heap := (gmap loc obj).

(** What a computation on the store yields: a value, a raised exception,
    or no answer, when the fuel ran out or an address was dangling. *)
Inductive outcome (A : Type) : Type :=
| Done (a : A)
| Throw (e : exn)
| NoResult.
Arguments Done {A} a.
Arguments Throw {A} e.
Arguments NoResult {A}.

(** Computations that read and write the store. *)
Definition M (A : Type) : Type := heap -> heap * outcome A.

Definition ret {A} (a : A) : M A := fun h => (h, Done a).

Definition mbind {A B} (m : M A) (k : A -> M B) : M B :=
  fun h =>
    match m h with
    | (h', Done a) => k a h'
    | (h', Throw e) => (h', Throw e)
    | (h', NoResult) => (h', NoResult)
    end.

Definition throw {A} (c : exn_class) (msg : string) : M A :=
  fun h => (h, Throw (mk_exn c msg)).

Definition no_result {A} : M A := fun h => (h, NoResult).

(** A read-only primitive, which answers from the store as it is. *)
Definition peek {A} (f : heap -> option A) : M A :=
  fun h => match f h with
           | Some a => (h, Done a)
           | None => (h, NoResult)
           end.

Definition get_obj (l : loc) : M obj := peek (fun h => h !! l).

(** A new object, at an address the store does not use yet. *)
Definition alloc (o : obj) : M loc :=
  fun h => let l := fresh (dom h) in (<[l := o]> h, Done l).

(** In-place update of the object at [l]. *)
Definition store (l : loc) (o : obj) : M unit :=
  fun h => (<[l := o]> h, Done tt).

(** Item comparison for [==] on two lists, given the comparison [eq] of
    their items. *)
Fixpoint eq_items (eq : loc -> loc -> option bool) (l m : list loc)
    : option bool :=
  match l, m with
  | [], [] => Some true
  | x :: l', y :: m' =>
      match eq x y with
      | Some true => eq_items eq l' m'
      | r => r
      end
  | _, _ => Some false
  end.

(** Every item of [d] is an item of [e]. *)
Fixpoint sub_items (eq : loc -> loc -> option bool)
    (d e : list (string * loc)) : option bool :=
  match d with
  | [] => Some true
  | (k, v) :: d' =>
      match dict_get k e with
      | Some w =>
          match eq v w with
          | Some true => sub_items eq d' e
          | r => r
          end
      | None => Some false
      end
  end.

(** Python's [==] on two objects of the store.  The shortcut the
    interpreter takes for an object compared with itself is left out; on
    the objects of a JSON document it does not change the answer. *)
Fixpoint heap_eq (fuel : nat) (h : heap) (a b : loc) : option bool :=
  match fuel with
  | O => None
  | S fuel' =>
      match h !! a, h !! b with
      | Some oa, Some ob =>
          match oa, ob with
          | ONone, ONone => Some true
          | OBool x, OBool y => Some (Bool.eqb x y)
          | OBool x, OInt n => Some (Z.eqb (Z.b2z x) n)
          | OInt n, OBool y => Some (Z.eqb n (Z.b2z y))
          | OInt n, OInt m => Some (Z.eqb n m)
          | OStr s, OStr t => Some (String.eqb s t)
          | OList l, OList m => eq_items (heap_eq fuel' h) l m
          | ODict d, ODict e =>
              if Nat.eqb (length d) (length e)
              then sub_items (heap_eq fuel' h) d e
              else Some false
          | _, _ => Some false
          end
      | _, _ => None
      end
  end.

(** Some item satisfies [p]; the items after the first that does are
    not looked at. *)
Fixpoint any_item (p : loc -> option bool) (items : list loc)
    : option bool :=
  match items with
  | [] => Some false
  | item :: rest =>
      match p item with
      | Some false => any_item p rest
      | r => r
      end
  end.

(** [x in items]. *)
Definition list_contains (eq : loc -> loc -> option bool)
    (items : list loc) (x : loc) : option bool :=
  any_item (fun item => eq item x) items.

(** [items.remove(x)]: the items without the first one equal to [x];
    [Some None] stands for [ValueError]. *)
Fixpoint list_remove (eq : loc -> loc -> option bool)
    (x : loc) (items : list loc) : option (option (list loc)) :=
  match items with
  | [] => Some None
  | item :: rest =>
      match eq item x with
      | Some true => Some (Some rest)
      | Some false =>
          match list_remove eq x rest with
          | Some (Some r) => Some (Some (item :: r))
          | r => r
          end
      | None => None
      end
  end.

(** [a.items() <= b.items()]. *)
Definition items_le (eq : loc -> loc -> option bool)
    (a b : list (string * loc)) : option bool :=
  if Nat.leb (length a) (length b) then sub_items eq a b else Some false.

Declare Scope pym_scope.
Delimit Scope pym_scope with pym.
Notation "x <- m ;; k" := (mbind m (fun x => k))
  (at level 100, m at next level, right associativity) : pym_scope.

End PyHeap.

(** ** [contained] on the store

    The same function as [EnvHelper.contained], now on addresses.  Python
    loops run over the live object: each iteration reads the container
    again and takes its item at the current index, as the list and
    dictionary iterators do.  [env_helper.copy()] allocates a new list
    that shares its items with [env_helper], and [remove] updates that new
    list in place. *)

Module EnvHelperStore.
Import Py PyHeap.
Local Open Scope pym_scope.

(** How [for test in env_test] ends: by [return False], or by running
    off the end with the counter at [count]. *)
Inductive loop_exit : Type :=
| Returned (b : bool)
| Fell (count : nat).

Definition is_none (o : obj) : bool :=
  match o with ONone => true | _ => false end.

(** [k in env_helper] for a string [k]. *)
Definition key_in (k : string) (env_helper : loc) : M bool :=
  o <- get_obj env_helper ;;
  match o with
  | ODict d =>
      ret (match dict_get k d with Some _ => true | None => false end)
  | OStr s => ret (str_contains k s)
  | OList items =>
      peek (fun h =>
        any_item
          (fun item =>
             match h !! item with
             | Some (OStr s) => Some (String.eqb s k)
             | Some _ => Some false
             | None => None
             end) items)
  | ONone | OBool _ | OInt _ => throw TypeError "argument is not iterable"
  end.

(** [env_helper[k]] for a string [k]. *)
Definition getitem (env_helper : loc) (k : string) : M loc :=
  o <- get_obj env_helper ;;
  match o with
  | ODict d =>
      match dict_get k d with
      | Some v => ret v
      | None => throw KeyError ("'" +:+ k +:+ "'")
      end
  | OStr _ => throw TypeError "string indices must be integers"
  | OList _ =>
      throw TypeError "list indices must be integers or slices, not str"
  | ONone | OBool _ | OInt _ => throw TypeError "object is not subscriptable"
  end.

(** [for env in env_helper_list: if test.items() <= env.items(): ...],
    from index [i] on; answers whether an entry was removed. *)
Fixpoint for_env (fuel : nat) (test env_helper_list : loc) (i : nat)
    : M bool :=
  match fuel with
  | O => no_result
  | S fuel' =>
      wc <- get_obj env_helper_list ;;
      match wc with
      | OList items =>
          match items !! i with
          | None => ret false
          | Some env =>
              t <- get_obj test ;;
              e <- get_obj env ;;
              match t, e with
              | ODict ti, ODict ei =>
                  le <- peek (fun h => items_le (heap_eq fuel' h) ti ei) ;;
                  if le : bool then
                    r <- peek (fun h =>
                                 list_remove (heap_eq fuel' h) env items) ;;
                    match r with
                    | Some items' =>
                        _ <- store env_helper_list (OList items') ;;
                        ret true
                    | None =>
                        throw ValueError "list.remove(x): x not in list"
                    end
                  else for_env fuel' test env_helper_list (S i)
              | _, _ =>
                  throw AttributeError "object has no attribute 'items'"
              end
          end
      | _ => no_result
      end
  end.

(** [for test in env_test: ...], from index [i] on, with the counter
    at [count]. *)
Fixpoint for_test (fuel : nat) (env_test env_helper_list : loc)
    (i count : nat) : M loop_exit :=
  match fuel with
  | O => no_result
  | S fuel' =>
      o <- get_obj env_test ;;
      match o with
      | OList tests =>
          match tests !! i with
          | None => ret (Fell count)
          | Some test =>
              t <- get_obj test ;;
              match t with
              | ODict _ =>
                  matched <- for_env fuel' test env_helper_list 0 ;;
                  for_test fuel' env_test env_helper_list (S i)
                    (if matched : bool then S count else count)
              | _ =>
                  wc <- get_obj env_helper_list ;;
                  match wc with
                  | OList items =>
                      present <- peek (fun h =>
                        list_contains (heap_eq fuel' h) items test) ;;
                      if negb present then ret (Returned false)
                      else for_test fuel' env_test env_helper_list
                             (S i) (S count)
                  | _ => no_result
                  end
              end
          end
      | _ => no_result
      end
  end.

(** The [elif type(env_test) is list] branch. *)
Definition contained_list (fuel : nat) (env_test env_helper : loc)
    : M bool :=
  t <- get_obj env_test ;;
  eh <- get_obj env_helper ;;
  match t, eh with
  | OList tests, OList items =>
      match tests with
      | [] => throw IndexError "list index out of range"
      | first :: _ =>
          f <- get_obj first ;;
          if is_none f && Nat.ltb 0 (length items) then ret true
          else
            env_helper_list <- alloc (OList items) ;;
            ex <- for_test fuel env_test env_helper_list 0 0 ;;
            match ex with
            | Returned b => ret b
            | Fell count =>
                t' <- get_obj env_test ;;
                match t' with
                | OList tests' =>
                    if negb (Nat.eqb (length tests') count) then ret false
                    else ret true
                | _ => no_result
                end
            end
      end
  | OList tests, _ =>
      peek (fun h => list_contains (heap_eq fuel h) tests env_helper)
  | _, _ => no_result
  end.

(** The [else] branch. *)
Definition contained_scalar (fuel : nat) (env_test env_helper : loc)
    : M bool :=
  t <- get_obj env_test ;;
  eh <- get_obj env_helper ;;
  if is_none t && negb (is_none eh) then ret true
  else
    same <- peek (fun h => heap_eq fuel h env_test env_helper) ;;
    if same : bool then ret true else ret false.

(** [for k in env_test: ...] of the dictionary branch, from the [i]-th
    key on; [rec] is the recursive call of [contained]. *)
Fixpoint for_k (fuel : nat) (rec : loc -> loc -> string -> M bool)
    (env_test env_helper : loc) (path : string) (i : nat) : M bool :=
  match fuel with
  | O => no_result
  | S fuel' =>
      o <- get_obj env_test ;;
      match o with
      | ODict items =>
          match items !! i with
          | None => ret true
          | Some (k, _) =>
              present <- key_in k env_helper ;;
              if negb present then ret false
              else
                sub_test <- getitem env_test k ;;
                sub_helper <- getitem env_helper k ;;
                ok <- rec sub_test sub_helper (path +:+ "->" +:+ k) ;;
                if negb ok then ret false
                else for_k fuel' rec env_test env_helper path (S i)
          end
      | _ => no_result
      end
  end.

(** [contained(env_test, env_helper, path)] on the store. *)
Fixpoint contained (fuel : nat) (env_test env_helper : loc)
    (path : string) : M bool :=
  match fuel with
  | O => no_result
  | S fuel' =>
      o <- get_obj env_test ;;
      match o with
      | ODict _ =>
          for_k fuel' (contained fuel') env_test env_helper path 0
      | OList _ => contained_list fuel' env_test env_helper
      | _ => contained_scalar fuel' env_test env_helper
      end
  end.

End EnvHelperStore.

(** ** [boardfarm/devices/__init__.py] *)

Module Devices.
Import Py PyHeap.

(** [s.startswith(p)] and [s.endswith(p)]. *)
Definition startswith (s p : string) : bool := String.prefix p s.

Fixpoint endswith (s p : string) : bool :=
  String.eqb s p ||
  match s with
  | EmptyString => false
  | String _ s' => endswith s' p
  end.

(** The value of a class attribute, as far as the code tells values
    apart: [type(attr) is str], [type(attr) is tuple], anything else (a
    method, a dictionary, ...), named by a tag. *)
Inductive attr_val : Type :=
| AStr (s : string)
| ATuple (aliases : list string)
| AOther (tag : string).

(** Keyword arguments: a dictionary from names to objects of the
    store. *)
Definition kwargs : Type := list (string * loc).

(** [d.pop(k, default)]: the value under [k], if any, and [d] without
    that key. *)
Definition dict_pop {A} (k : string) (d : list (string * A))
    : option A * list (string * A) :=
  (dict_get k d, List.filter (fun kv => negb (String.eqb (fst kv) k)) d).

(** [d[k] = v]: an existing key keeps its place, a new one goes last. *)
Fixpoint dict_set {A} (k : string) (v : A) (d : list (string * A))
    : list (string * A) :=
  match d with
  | [] => [(k, v)]
  | (k', v') :: d' =>
      if String.eqb k k' then (k, v) :: d' else (k', v') :: dict_set k v d'
  end.

(** [d.update(e)]. *)
Definition dict_update {A} (d e : list (string * A)) : list (string * A) :=
  fold_left (fun acc kv => dict_set (fst kv) (snd kv) acc) e d.

Definition mem (x : string) (l : list string) : bool :=
  existsb (String.eqb x) l.

(** [list(set(a) & set(b))].  The order Python lists a set in is not
    specified; the model lists the elements in their order in [a]. *)
Fixpoint set_inter (a b : list string) : list string :=
  match a with
  | [] => []
  | x :: a' =>
      if mem x b && negb (mem x a') then x :: set_inter a' b
      else set_inter a' b
  end.

Section WithWorld.

(** Everything outside this module that initializers and the device
    manager read or change: sessions, sockets, the manager's
    collection. *)
Variable world : Type.

(** [cls.__init__(self, model, mgr=device_mgr, **kwargs)] as a
    transformer of the instance's [__dict__] and of the world.  The
    manager is passed by its identity. *)
Definition init_fn : Type :=
  list (string * attr_val) -> string -> option nat -> kwargs ->
  world -> world * result (list (string * attr_val)).

(** A device class.  [cls_id] is the identity of the class object:
    [==] on classes is identity.  [cls_init] is what [cls.__init__]
    resolves to. *)
Record pyclass : Type := mk_class {
  cls_id : nat;
  cls_module : string;
  cls_name : string;
  cls_dict : list (string * attr_val);
  cls_init : init_fn
}.

(** An instance of the class [bf_node] creates with
    [type(cls_name, tuple(cls_list), ...)]. *)
Record instance : Type := mk_instance {
  inst_type_name : string;
  inst_bases : list pyclass;
  inst_dict : list (string * attr_val);
  target : kwargs
}.

(** The device manager collaborator: its identity and its
    [_add_device(dev, override, plugin)].  The two flags are objects
    of the store, or [None] for the default [False]. *)
Record device_manager : Type := mk_manager {
  mgr_id : nat;
  _add_device :
    instance -> option loc -> option loc -> world -> world * result unit
}.

(** What [logger.warning] is called with. *)
Inductive warning : Type :=
| SkippingDuplicate (attr : attr_val)
| DuplicateKeys (common_keys : list string)
| RemovingDuplicateKeys.

(** The state the functions below run in.  [st_calls] records, in
    order, the [cls_id] of every initializer invoked. *)
Record state : Type := mk_state {
  st_heap : heap;
  st_world : world;
  st_log : list warning;
  st_calls : list nat
}.

Definition D (A : Type) : Type := state -> state * outcome A.

Definition dret {A} (a : A) : D A := fun s => (s, Done a).

Definition dbind {A B} (m : D A) (k : A -> D B) : D B :=
  fun s =>
    match m s with
    | (s', Done a) => k a s'
    | (s', Throw e) => (s', Throw e)
    | (s', NoResult) => (s', NoResult)
    end.

Definition dthrow {A} (e : exn) : D A := fun s => (s, Throw e).

Definition dnone {A} : D A := fun s => (s, NoResult).

Definition log (w : warning) : D unit :=
  fun s => (mk_state (st_heap s) (st_world s) (st_log s ++ [w])
              (st_calls s), Done tt).

(** The dictionary stored at [l]; no answer when [l] does not hold a
    dictionary. *)
Definition read_dict (l : loc) : D (list (string * loc)) :=
  fun s =>
    match st_heap s !! l with
    | Some (ODict items) => (s, Done items)
    | _ => (s, NoResult)
    end.

Definition write_dict (l : loc) (items : list (string * loc)) : D unit :=
  fun s => (mk_state (<[l := ODict items]> (st_heap s)) (st_world s)
              (st_log s) (st_calls s), Done tt).

(** One initializer call. *)
Definition call_init (cls : pyclass) (d : list (string * attr_val))
    (model : string) (mgr : option nat) (kw : kwargs)
    : D (list (string * attr_val)) :=
  fun s =>
    let '(w, r) := cls_init cls d model mgr kw (st_world s) in
    let s' := mk_state (st_heap s) w (st_log s)
                (st_calls s ++ [cls_id cls]) in
    match r with
    | Ok d' => (s', Done d')
    | Raise e => (s', Throw e)
    end.

(** *** [bf_node] *)

(** The condition of the comprehension that builds [members]. *)
Definition is_member (attr : string) : bool :=
  negb (startswith attr "__") && negb (endswith attr "__")
  && negb (mem attr ["model"; "prompt"; "profile"]).

Definition members (cls : pyclass) : list string :=
  List.filter is_member (dict_keys (cls_dict cls)).

Definition same_class (a b : pyclass) : bool :=
  Nat.eqb (cls_id a) (cls_id b).

(** [cls in cls_list]. *)
Definition class_in (cls : pyclass) (cls_list : list pyclass) : bool :=
  existsb (fun c => same_class c cls) cls_list.

(** [cls_list.index(cls)]; [None] stands for [ValueError]. *)
Fixpoint index (cls : pyclass) (cls_list : list pyclass) : option nat :=
  match cls_list with
  | [] => None
  | c :: rest =>
      if same_class c cls then Some 0
      else option_map S (index cls rest)
  end.

(** The [for cls in cls_list] loop of [bf_node]; [todo] is what is
    left to visit of [cls_list].  It ends with the arguments of the
    error message, or with [temp].  [cls] being an element of
    [cls_list], [index] finds it. *)
Fixpoint check_members (cls_list todo : list pyclass)
    (cls_members : list string) (temp : list pyclass)
    : (list string * list pyclass) + list pyclass :=
  match todo with
  | [] => inr temp
  | cls :: rest =>
      let common := set_inter (members cls) cls_members in
      if Nat.ltb 0 (length common) then
        inl (common,
             match index cls cls_list with
             | Some i => firstn (i + 1) cls_list
             | None => []
             end)
      else check_members cls_list rest (cls_members ++ members cls)
             (temp ++ [cls])
  end.

(** [str(common)] for a list of attribute names and [str(classes)]
    for a list of classes. *)
Definition str_of_names (names : list string) : string :=
  "[" +:+ String.concat ", " (map (fun n => "'" +:+ n +:+ "'") names) +:+ "]".

Definition str_of_classes (classes : list pyclass) : string :=
  "[" +:+ String.concat ", "
           (map (fun c => "<class '" +:+ cls_module c +:+ "." +:+ cls_name c
                          +:+ "'>") classes) +:+ "]".

Definition duplicate_members (common : list string)
    (classes : list pyclass) : exn :=
  mk_exn Exception
    ("Identified duplicate class members " +:+ str_of_names common
     +:+ " between classes  " +:+ str_of_classes classes).

(** The first class that occurs twice, which [type(name, bases, ...)]
    refuses as a duplicate base class. *)
Fixpoint duplicate_base (bases : list pyclass) : option pyclass :=
  match bases with
  | [] => None
  | c :: rest =>
      if class_in c rest then Some c else duplicate_base rest
  end.

(** The [__init__] given to the new class: every initializer in turn,
    on the same instance. *)
Fixpoint run_inits (cls_list : list pyclass)
    (d : list (string * attr_val)) (model : string) (mgr : option nat)
    (kw : kwargs) : D (list (string * attr_val)) :=
  match cls_list with
  | [] => dret d
  | cls :: rest =>
      dbind (call_init cls d model mgr kw) (fun d' =>
        run_inits rest d' model mgr kw)
  end.

(** [bf_node(cls_list, model, device_mgr, **kwargs)].  Classes are
    taken without bases of their own, so that [type(...)] fails on a
    repeated base only.  The texts of the [TypeError]s the interpreter
    raises are indicative. *)
Definition bf_node (cls_list : list pyclass) (model : string)
    (device_mgr : option device_manager) (kw : kwargs) : D instance :=
  match check_members cls_list cls_list [] [] with
  | inl (common, classes) => dthrow (duplicate_members common classes)
  | inr temp =>
      let cls_list := temp in
      let joined := String.concat "_" (map cls_name cls_list) in
      match duplicate_base cls_list with
      | Some c =>
          dthrow (mk_exn TypeError
                    ("duplicate base class " +:+ cls_name c))
      | None =>
          if mem "mgr" (dict_keys kw) then
            dthrow (mk_exn TypeError
              "got multiple values for keyword argument 'mgr'")
          else
            dbind (run_inits cls_list [] model
                     (option_map mgr_id device_mgr) kw) (fun d =>
              dret (mk_instance joined cls_list d kw))
      end
  end.

(** Attribute lookup on the class of an instance, along its bases. *)
Fixpoint class_getattr (bases : list pyclass) (name : string)
    : option attr_val :=
  match bases with
  | [] => None
  | c :: rest =>
      match dict_get name (cls_dict c) with
      | Some a => Some a
      | None => class_getattr rest name
      end
  end.

(** [hasattr(inst, name)]. *)
Definition exposes (inst : instance) (name : string) : bool :=
  match dict_get name (inst_dict inst) with
  | Some _ => true
  | None =>
      match class_getattr (inst_bases inst) name with
      | Some _ => true
      | None => false
      end
  end.

(** *** [get_device] *)

(** [model == attr] for a string, [model in attr] for a tuple. *)
Definition matches_model (model : string) (attr : attr_val) : bool :=
  match attr with
  | AStr s => String.eqb model s
  | ATuple aliases => mem model aliases
  | AOther _ => false
  end.

(** The key of [profile] the attribute [model] of a class selects, if
    [profile_exists]. *)
Definition profile_key (attr : attr_val) (profile : list (string * loc))
    : option string :=
  if Nat.ltb 0 (length profile) then
    match attr with
    | AStr s => if mem s (dict_keys profile) then Some s else None
    | ATuple aliases =>
        match set_inter aliases (dict_keys profile) with
        | [k] => Some k
        | _ => None
        end
    | AOther _ => None
    end
  else None.

(** The body of [for dev in devs], on the locals [cls_list],
    [profile_list] and [kwargs].  [profile] is the address of the
    caller's dictionary, or [None] for the default [{}].  The profile
    and its entries are read as dictionaries; where the store holds
    something else there, the model gives no answer. *)
Definition resolve_dev (model : string) (profile : option loc)
    (dev : pyclass) (acc : list pyclass * list pyclass * kwargs)
    : D (list pyclass * list pyclass * kwargs) :=
  let '(cls_list, profile_list, kw) := acc in
  match dict_get "model" (cls_dict dev) with
  | None => dret acc
  | Some attr =>
      let cls_list :=
        if matches_model model attr then cls_list ++ [dev]
        else cls_list in
      dbind (match profile with
             | Some p => read_dict p
             | None => dret []
             end) (fun pitems =>
      match profile_key attr pitems with
      | None => dret (cls_list, profile_list, kw)
      | Some key =>
          match dict_get key pitems with
          | None => dnone
          | Some profile_kwargs =>
              if class_in dev cls_list then
                dbind (log (SkippingDuplicate attr)) (fun _ =>
                  dret (cls_list, profile_list, kw))
              else
                let profile_list := profile_list ++ [dev] in
                dbind (read_dict profile_kwargs) (fun pk =>
                let common_keys :=
                  set_inter (dict_keys kw) (dict_keys pk) in
                dbind
                  (if Nat.ltb 0 (length common_keys) then
                     dbind (log (DuplicateKeys common_keys)) (fun _ =>
                     dbind (log RemovingDuplicateKeys) (fun _ =>
                     let pk' :=
                       List.filter
                         (fun kv => negb (mem (fst kv) common_keys)) pk in
                     dbind (write_dict profile_kwargs pk') (fun _ =>
                       dret pk')))
                   else dret pk) (fun pk' =>
                dret (cls_list, profile_list, dict_update kw pk')))
          end
      end)
  end.

(** The two nested loops over [device_mappings.items()]. *)
Fixpoint resolve (model : string) (profile : option loc)
    (devs : list pyclass) (acc : list pyclass * list pyclass * kwargs)
    : D (list pyclass * list pyclass * kwargs) :=
  match devs with
  | [] => dret acc
  | dev :: rest =>
      dbind (resolve_dev model profile dev acc) (fun acc' =>
        resolve model profile rest acc')
  end.

(** What the [except] clauses of [get_device] raise for an exception
    [e] of the [try] block.  A class outside [Exception] is not
    caught. *)
Definition reraise (model : string) (e : exn) : exn :=
  match exn_cls e with
  | BftNotSupportedDevice => e
  | ConnectionRefused => e
  | pexpect_EOF =>
      mk_exn Exception
        ("Failed to connect to a " +:+ model
         +:+ ", unable to connect (in use) or possibly misconfigured")
  | BaseExc _ => e
  | _ => mk_exn Exception (exn_msg e)
  end.

Definition try_except (model : string) {A} (body : D A) : D A :=
  fun s =>
    match body s with
    | (s', Throw e) => (s', Throw (reraise model e))
    | r => r
    end.

(** The call [bf_node(cls_list, model, device_mgr, **kwargs)], which
    fails when [kwargs] names one of the positional parameters. *)
Definition call_bf_node (cls_list : list pyclass) (model : string)
    (device_mgr : option device_manager) (kw : kwargs) : D instance :=
  match List.filter (fun p => mem p (dict_keys kw))
          ["cls_list"; "model"; "device_mgr"] with
  | p :: _ =>
      dthrow (mk_exn TypeError
        ("bf_node() got multiple values for argument '" +:+ p +:+ "'"))
  | [] => bf_node cls_list model device_mgr kw
  end.

Definition call_add_device (m : device_manager) (dev : instance)
    (override plugin : option loc) : D unit :=
  fun s =>
    let '(w, r) := _add_device m dev override plugin (st_world s) in
    let s' := mk_state (st_heap s) w (st_log s) (st_calls s) in
    match r with
    | Ok _ => (s', Done tt)
    | Raise e => (s', Throw e)
    end.

(** [get_device(model, device_mgr, **kwargs)] over the registry
    [device_mappings], a dictionary from modules to their classes. *)
Definition get_device (device_mappings : list (string * list pyclass))
    (model : string) (device_mgr : option device_manager) (kw : kwargs)
    : D instance :=
  let profile := dict_get "profile" kw in
  let '(override, kw) := dict_pop "override" kw in
  let '(plugin, kw) := dict_pop "plugin_device" kw in
  dbind (resolve model profile (concat (map snd device_mappings))
           ([], [], kw)) (fun '(cls_list, profile_list, kw) =>
    try_except model
      (let cls_list := cls_list ++ profile_list in
       if Nat.eqb (length cls_list) 0 then
         dthrow (mk_exn BftNotSupportedDevice
                   ("Unable to spawn instance of model: " +:+ model))
       else
         dbind (call_bf_node cls_list model device_mgr kw) (fun ret =>
           match device_mgr with
           | Some m =>
               dbind (call_add_device m ret override plugin) (fun _ =>
                 dret ret)
           | None => dret ret
           end))).

End WithWorld.

Arguments mk_class {world}.
Arguments cls_id {world}.
Arguments cls_module {world}.
Arguments cls_name {world}.
Arguments cls_dict {world}.
Arguments cls_init {world}.
Arguments mk_instance {world}.
Arguments inst_type_name {world}.
Arguments inst_bases {world}.
Arguments inst_dict {world}.
Arguments target {world}.
Arguments mk_manager {world}.
Arguments mgr_id {world}.
Arguments _add_device {world}.
Arguments mk_state {world}.
Arguments st_heap {world}.
Arguments st_world {world}.
Arguments st_log {world}.
Arguments st_calls {world}.
Arguments dret {world A}.
Arguments dbind {world A B}.
Arguments dthrow {world A}.
Arguments dnone {world A}.
Arguments log {world}.
Arguments read_dict {world}.
Arguments write_dict {world}.
Arguments call_init {world}.
Arguments members {world}.
Arguments same_class {world}.
Arguments class_in {world}.
Arguments index {world}.
Arguments check_members {world}.
Arguments str_of_classes {world}.
Arguments duplicate_members {world}.
Arguments duplicate_base {world}.
Arguments run_inits {world}.
Arguments bf_node {world}.
Arguments class_getattr {world}.
Arguments exposes {world}.
Arguments resolve_dev {world}.
Arguments resolve {world}.
Arguments try_except {world} model {A}.
Arguments call_bf_node {world}.
Arguments call_add_device {world}.
Arguments get_device {world}.

End Devices.

(** ** Concrete registries and stores *)

Module Scenario.
Import Py PyHeap Devices.

(** An initializer that returns normally and one that raises [e]. *)
Definition init_ok : init_fn unit := fun d _ _ _ w => (w, Ok d).

Definition init_raises (e : exn) : init_fn unit :=
  fun _ _ _ _ w => (w, Raise e).

Definition method : attr_val := AOther "function".

(** Descriptor D1: alias "modemA", members [start] and [stop]. *)
Definition D1_with {world} (init : init_fn world) : pyclass world :=
  mk_class 1 "plugin.devices.modem" "D1"
    [("model", AStr "modemA"); ("start", method); ("stop", method)]
    init.

(** Descriptor D2: alias "modemA", a profile map, member [configure]. *)
Definition D2_with {world} (init : init_fn world) : pyclass world :=
  mk_class 2 "plugin.devices.modem" "D2"
    [("model", AStr "modemA"); ("profile", AOther "dict");
     ("configure", method)]
    init.

Definition D1 : pyclass unit := D1_with init_ok.

Definition D2 : pyclass unit := D2_with init_ok.

(** A profile class: its alias is a key of the profile, not the
    requested model. *)
Definition Bridge : pyclass unit :=
  mk_class 3 "plugin.devices.profiles" "Bridge"
    [("model", AStr "bridged"); ("configure", method)]
    init_ok.

(** A class that exports [stop] again. *)
Definition D3 : pyclass unit :=
  mk_class 4 "plugin.devices.modem" "D3"
    [("model", AStr "modemA"); ("stop", method); ("reset", method)]
    init_ok.

(** Two classes that share a member whose name ends, but does not
    start, with a double underscore. *)
Definition P : pyclass unit :=
  mk_class 5 "plugin.devices.p" "P"
    [("model", AStr "modemA"); ("run__", method)] init_ok.

Definition Q : pyclass unit :=
  mk_class 6 "plugin.devices.q" "Q"
    [("model", AStr "modemA"); ("run__", method)] init_ok.

(** A class whose initializer raises [ValueError("boom")]. *)
Definition Broken : pyclass unit :=
  mk_class 7 "plugin.devices.broken" "Broken"
    [("model", AStr "modemA"); ("start", method)]
    (init_raises (mk_exn ValueError "boom")).

(** A class whose initializer cannot connect. *)
Definition Refused : pyclass unit :=
  mk_class 8 "plugin.devices.refused" "Refused"
    [("model", AStr "modemA"); ("start", method)]
    (init_raises (mk_exn ConnectionRefused "connection refused")).

Definition manager : device_manager unit :=
  mk_manager 1 (fun _ _ _ w => (w, Ok tt)).

(** The caller's objects for
    [profile={"modemA": {"mode": "bridge"}}]: the profile at address 1,
    the override map at 2, the string at 3. *)
Definition heap_A : heap :=
  list_to_map
    [(1%positive, ODict [("modemA", 2%positive)]);
     (2%positive, ODict [("mode", 3%positive)]);
     (3%positive, OStr "bridge")].

(** The caller's objects for
    [profile={"bridged": {"mode": "bridge", "vlan": "7"}}, mode="router"]:
    the profile at 1, the override map at 2, strings at 3, 4 and 5. *)
Definition heap_B : heap :=
  list_to_map
    [(1%positive, ODict [("bridged", 2%positive)]);
     (2%positive, ODict [("mode", 3%positive); ("vlan", 4%positive)]);
     (3%positive, OStr "bridge");
     (4%positive, OStr "7");
     (5%positive, OStr "router")].

Definition start (h : heap) : state unit := mk_state h tt [] [].

(** The objects of Scenario D: the strings at 1 and 2, the required map
    at 3, the available map at 4, the required list (the same map
    twice) at 5 and the available list at 6. *)
Definition heap_D : heap :=
  list_to_map
    [(1%positive, OStr "lan");
     (2%positive, OStr "lan1");
     (3%positive, ODict [("device_type", 1%positive)]);
     (4%positive, ODict [("device_type", 1%positive); ("name", 2%positive)]);
     (5%positive, OList [3%positive; 3%positive]);
     (6%positive, OList [4%positive])].

(** The keyword arguments that go with [heap_B]. *)
Definition kw_B : kwargs := [("profile", 1%positive); ("mode", 5%positive)].

(** The state [get_device] leaves for [D1] and [Bridge] from
    [start heap_B]: the override map at 2 has lost [mode]. *)
Definition after_B : state unit :=
  mk_state (<[2%positive := ODict [("vlan", 4%positive)]]> heap_B) tt
    [DuplicateKeys ["mode"]; RemovingDuplicateKeys] [1; 3].

End Scenario.

(** ** [boardfarm/lib/env_helper.py]: the accessors of [EnvHelper] *)

Module EnvHelperAccess.
Import Py EnvHelper.

(** [raise BftEnvExcKeyError]: the class, which derives from
    [BftBaseException], is raised without arguments. *)
Definition BftEnvExcKeyError : exn := mk_exn (UserExc "BftEnvExcKeyError") "".

(** [self.env] and [self.mirror]; both are missing on an instance built
    with [env is None]. *)
Definition attr_env (self : env_helper_obj) : result value :=
  match self_env self with
  | Some e => Ok e
  | None => raise AttributeError "'EnvHelper' object has no attribute 'env'"
  end.

Definition attr_mirror (self : env_helper_obj) : result string :=
  match self_mirror self with
  | Some m => Ok m
  | None =>
      raise AttributeError "'EnvHelper' object has no attribute 'mirror'"
  end.

(** [try: body except (KeyError, AttributeError): raise
    BftEnvExcKeyError]. *)
Definition except_key_attr {A} (body : result A) : result A :=
  match body with
  | Ok a => Ok a
  | Raise e =>
      match exn_cls e with
      | KeyError | AttributeError => Raise BftEnvExcKeyError
      | _ => Raise e
      end
  end.

(** [try: body; return True except Exception: return False]. *)
Definition try_true {A} (body : result A) : result bool :=
  match body with
  | Ok _ => Ok true
  | Raise e =>
      match exn_cls e with
      | BaseExc _ => Raise e
      | _ => Ok false
      end
  end.

(** [self.env["environment_def"]["board"]]. *)
Definition board (self : env_helper_obj) : result value :=
  bind (attr_env self) (fun env =>
  bind (getitem env "environment_def") (fun environment_def =>
  getitem environment_def "board")).

(** [self.env["environment_def"]["board"]["software"][key]]. *)
Definition software_entry (self : env_helper_obj) (key : string)
    : result value :=
  bind (board self) (fun b =>
  bind (getitem b "software") (fun software =>
  getitem software key)).

(** [s + v] for a string [s]. *)
Definition str_add (s : string) (v : value) : result value :=
  match v with
  | VStr t => Ok (VStr (s +:+ t))
  | _ => raise TypeError "can only concatenate str to str"
  end.

(** [v[0]]. *)
Definition getitem_0 (v : value) : result value :=
  match v with
  | VList l =>
      match l with
      | x :: _ => Ok x
      | [] => raise IndexError "list index out of range"
      end
  | VStr s =>
      match s with
      | String c _ => Ok (VStr (String c EmptyString))
      | EmptyString => raise IndexError "string index out of range"
      end
  | VDict _ => raise KeyError "0"
  | VNone | VBool _ | VInt _ => raise TypeError "object is not subscriptable"
  end.

(** [EnvHelper.get_image(self, mirror=True)]. *)
Definition get_image (self : env_helper_obj) (mirror : bool)
    : result value :=
  except_key_attr
    (if mirror then
       bind (attr_mirror self) (fun m =>
       bind (software_entry self "image_uri") (fun uri => str_add m uri))
     else software_entry self "image_uri").

Definition has_image (self : env_helper_obj) : result bool :=
  try_true (get_image self true).

Definition get_downgrade_image (self : env_helper_obj) : result value :=
  except_key_attr
    (bind (software_entry self "downgrade_images") getitem_0).

Definition get_upgrade_image (self : env_helper_obj) : result value :=
  except_key_attr
    (bind (software_entry self "upgrade_images") getitem_0).

Definition has_upgrade_image (self : env_helper_obj) : result bool :=
  try_true (get_upgrade_image self).

Definition has_downgrade_image (self : env_helper_obj) : result bool :=
  try_true (get_downgrade_image self).

(** [v.get(k, {})] and [v.items()]. *)
Definition get_or_empty (v : value) (k : string) : result value :=
  match v with
  | VDict d =>
      Ok (match dict_get k d with Some x => x | None => VDict [] end)
  | _ => raise AttributeError "object has no attribute 'get'"
  end.

Definition items (v : value) : result (list (string * value)) :=
  match v with
  | VDict d => Ok d
  | _ => raise AttributeError "object has no attribute 'items'"
  end.

Section Formatting.

(** What a replacement field [{v}] of an f-string expands to, that is
    [format(v, "")]. *)
Variable str_of : value -> string.

(** The loop of [get_software] over [sw.items()], with [out] so far. *)
Fixpoint get_software_loop (self : env_helper_obj)
    (sw out : list (string * value)) : result (list (string * value)) :=
  match sw with
  | [] => Ok out
  | (k, v) :: sw' =>
      if String.eqb k "dependent_software" then
        get_software_loop self sw' out
      else if Devices.mem k ["load_image"; "image_uri"] then
        bind (attr_mirror self) (fun m =>
          get_software_loop self sw'
            (Devices.dict_set k (VStr (m +:+ str_of v)) out))
      else get_software_loop self sw' (Devices.dict_set k v out)
  end.

Definition get_software (self : env_helper_obj)
    : result (list (string * value)) :=
  bind (board self) (fun b =>
  bind (get_or_empty b "software") (fun sw =>
  bind (items sw) (fun sw_items =>
  get_software_loop self sw_items []))).

(** The loop of [get_dependent_software]. *)
Fixpoint get_dependent_software_loop (self : env_helper_obj)
    (sw out : list (string * value)) : result (list (string * value)) :=
  match sw with
  | [] => Ok out
  | (k, v) :: sw' =>
      if Devices.mem k ["load_image"; "image_uri"] then
        bind (attr_mirror self) (fun m =>
          get_dependent_software_loop self sw'
            (Devices.dict_set k (VStr (m +:+ str_of v)) out))
      else
        get_dependent_software_loop self sw' (Devices.dict_set k v out)
  end.

Definition get_dependent_software (self : env_helper_obj)
    : result (list (string * value)) :=
  bind (board self) (fun b =>
  bind (get_or_empty b "software") (fun d =>
  bind (get_or_empty d "dependent_software") (fun sw =>
  bind (items sw) (fun sw_items =>
  get_dependent_software_loop self sw_items [])))).

(** The loop of [get_flash_strategy]. *)
Fixpoint get_flash_strategy_loop (sw out : list (string * value))
    : list (string * value) :=
  match sw with
  | [] => out
  | (k, v) :: sw' =>
      if String.eqb k "dependent_software" then
        get_flash_strategy_loop sw' out
      else if String.eqb k "flash_strategy" then
        get_flash_strategy_loop sw'
          (Devices.dict_set k (VStr (str_of v)) out)
      else get_flash_strategy_loop sw' out
  end.

Definition get_flash_strategy (self : env_helper_obj)
    : result (list (string * value)) :=
  bind (board self) (fun b =>
  bind (get_or_empty b "software") (fun sw =>
  bind (items sw) (fun sw_items =>
  Ok (get_flash_strategy_loop sw_items [])))).

End Formatting.

(** [type(obj) == dict and "device_type" in obj]. *)
Definition is_device (obj : value) : bool :=
  match obj with
  | VDict d =>
      match dict_get "device_type" d with Some _ => true | None => false end
  | _ => false
  end.

(** [find_device_arrays(env)] of [env_devices], on the dictionary
    [devices] of the enclosing call.  Every value stored in [devices] is
    a list.  The function is called on dictionaries only, but for the
    first call. *)
Fixpoint find_device_arrays (env : value)
    (devices : list (string * list value)) {struct env}
    : list (string * list value) :=
  match env with
  | VDict d =>
      (fix for_items (d : list (string * value))
           (devices : list (string * list value)) {struct d}
           : list (string * list value) :=
         match d with
         | [] => devices
         | (k, v) :: d' =>
             for_items d'
               match v with
               | VDict _ =>
                   find_device_arrays v
                     (if is_device v then Devices.dict_set k [v] devices
                      else devices)
               | VList l =>
                   if forallb is_device l then Devices.dict_set k l devices
                   else devices
               | _ => devices
               end
         end) d devices
  | _ => devices
  end.

(** [EnvHelper.env_devices(env_json)]. *)
Definition env_devices (env_json : value)
    : result (list (string * list value)) :=
  match env_json with
  | VDict _ => Ok (find_device_arrays env_json [])
  | _ => raise AttributeError "object has no attribute 'items'"
  end.

End EnvHelperAccess.

(** ** [boardfarm/lib/ConfigHelper.py] *)

Module ConfigHelper.
Import Py.

(** [raise ConfigKeyError]. *)
Definition ConfigKeyError : exn := mk_exn (UserExc "ConfigKeyError") "".

(** [s * n] for a string [s]. *)
Fixpoint str_mul (s : string) (n : nat) : string :=
  match n with
  | O => ""
  | S n' => s +:+ str_mul s n'
  end.

(** The items of the dictionary a [ConfigHelper] is. *)
Definition config : Type := list (string * value).

(** [ConfigHelper.__getitem__(self, key)] for a string [key]: the lines
    it prints on the standard output, and its result.  What
    [traceback.print_exc()] writes on the standard error is left out.
    [("station")] is a string, not a tuple, so [key in ("station")] is
    the substring test. *)
Definition __getitem__ (self : config) (key : string)
    : list string * result value :=
  let out :=
    if String.eqb key "mirror" then
      [ str_mul "WARNING " 9;
        "Support for calling config[" +:+ String (Ascii.ascii_of_nat 34)
          ("mirror" +:+ String (Ascii.ascii_of_nat 34)
             "] directly is going to be removed.");
        "Please change your test as soon as possible to this file transfer";
        "in the proper way.";
        str_mul "WARNING " 9 ]
    else [] in
  if Devices.mem key ["cm_cfg"; "mta_cfg"; "erouter_cfg"] then
    (out ++ [ "ERROR: use of cm_cfg or mta_cfg in config object is deprecated!";
              "Use board.cm_cfg or board.mta_cfg directly!" ],
     Raise ConfigKeyError)
  else if str_contains key "station" then
    (out ++ [ "ERROR: use get_station() not ['station']" ],
     Raise ConfigKeyError)
  else
    (out,
     match dict_get key self with
     | Some v => Ok v
     | None => raise KeyError ("'" +:+ key +:+ "'")
     end).

(** [ConfigHelper.update(self, config)]: the dictionary is updated in
    place and returned; the result is what [self] holds afterwards. *)
Definition update (self : config) (cfg : config) : config :=
  Devices.dict_update self cfg.

(** [ConfigHelper.get_station(self)]. *)
Definition get_station (self : config) : result value :=
  match dict_get "station" self with
  | Some v => Ok v
  | None => raise KeyError "'station'"
  end.

(** [singleton(cls)] applied to [ConfigHelper].  The closure variable
    [instances] holds at most the one instance; it is modelled by what
    that instance holds, the instance being updated in place. *)
Definition instances : Type := option config.

(** [getinstance] called with arguments that [dict] makes into the
    items [args]: the state of [instances] after the call.  The call
    returns the instance [instances] then holds. *)
Definition getinstance (args : config) (st : instances) : instances :=
  match st with
  | None => Some args
  | Some c => Some c
  end.

(** What a program does with the decorated class: it calls it, and
    calls [update] on what it gets. *)
Inductive action : Type :=
| Construct (args : config)
| Update (args cfg : config).

(** [ConfigHelper(args)] and [ConfigHelper(args).update(cfg)]. *)
Definition perform (a : action) (st : instances) : instances :=
  match a with
  | Construct args => getinstance args st
  | Update args cfg =>
      match getinstance args st with
      | Some c => Some (update c cfg)
      | None => None
      end
  end.

Definition run (acts : list action) (st : instances) : instances :=
  fold_left (fun st a => perform a st) acts st.

End ConfigHelper.

(** ** [boardfarm/use_cases/device_getters.py] *)

Module DeviceGetters.
Import Py.

Section WithDevice.
Variable device : Type.

(** What [device_manager()] gives, as far as the getters read it. *)
Record device_manager : Type := mk_device_manager {
  lan_clients : list device;
  wan_clients : list device
}.

(** [boardfarm.exceptions.IndexError], which derives from
    [BftBaseException] and is not the builtin [IndexError]. *)
Definition BftIndexError (msg : string) : exn :=
  mk_exn (UserExc "boardfarm.exceptions.IndexError") msg.

(** [get_lan_clients(count)] for an integer [count], on the manager
    [devices] that [device_manager()] returns. *)
Definition get_lan_clients (devices : device_manager) (count : Z)
    : result (list device) :=
  if negb (Z.ltb 0 count
           && Z.leb count (Z.of_nat (length (lan_clients devices)))) then
    Raise (BftIndexError
             ("Invalid count provided. "
              +:+ pretty (length (lan_clients devices))
              +:+ " LAN clients available"))
  else Ok (firstn (Z.to_nat count) (lan_clients devices)).

(** [get_wan_clients(count)]. *)
Definition get_wan_clients (devices : device_manager) (count : Z)
    : result (list device) :=
  if negb (Z.ltb 0 count
           && Z.leb count (Z.of_nat (length (wan_clients devices)))) then
    Raise (BftIndexError
             ("Invalid count provided. "
              +:+ pretty (length (lan_clients devices))
              +:+ " LAN clients available"))
  else Ok (firstn (Z.to_nat count) (wan_clients devices)).

End WithDevice.

Arguments mk_device_manager {device}.
Arguments lan_clients {device}.
Arguments wan_clients {device}.
Arguments get_lan_clients {device}.
Arguments get_wan_clients {device}.

End DeviceGetters.

(** ** [boardfarm/devices/__init__.py]: prompts and software mappings *)

Module DevicesLookup.
Import Py.

Section Prompts.
Variable device : Type.

(** The attribute [prompt] of a device, a list of strings; [None]
    where the device has none. *)
Variable prompt_attr : device -> option (list string).

(** [getattr(d, "prompt", [])]. *)
Definition getattr_prompt (d : device) : list string :=
  match prompt_attr d with
  | Some ps => ps
  | None => []
  end.

(** [for p in ...: if p not in ret: ret.append(p)]. *)
Fixpoint for_p (ps ret : list string) : list string :=
  match ps with
  | [] => ret
  | p :: ps' => for_p ps' (if Devices.mem p ret then ret else ret ++ [p])
  end.

(** [for d in manager: ...]. *)
Fixpoint for_d (ds : list device) (ret : list string) : list string :=
  match ds with
  | [] => ret
  | d :: ds' => for_d ds' (for_p (getattr_prompt d) ret)
  end.

(** [_prompt.get_prompts(self)], over the devices the global [manager]
    iterates; [manager] is [None] until a board is connected. *)
Definition get_prompts (manager : option (list device))
    : result (list string) :=
  match manager with
  | None => raise TypeError "'NoneType' object is not iterable"
  | Some ds => Ok (for_d ds [])
  end.

End Prompts.

Arguments getattr_prompt {device}.
Arguments for_d {device}.
Arguments get_prompts {device}.

(** A value of [device_sw_mappings]: one pattern, or a list of them. *)
Inductive patterns : Type :=
| One (p : string)
| Many (ps : list string).

Section Mapping.
Variable key : Type.

(** [re.match(re.compile(p), sw)] as a truth value; [re.compile]
    raises on a pattern that is not a regular expression. *)
Variable re_match : string -> string -> result bool.

(** [for _p in v: ...], which returns from the function at the first
    pattern that matches. *)
Fixpoint first_match (ps : list string) (sw : string) : result bool :=
  match ps with
  | [] => Ok false
  | p :: ps' =>
      bind (re_match p sw) (fun m =>
        if m then Ok true else first_match ps' sw)
  end.

(** [get_device_mapping_class(sw)] over [device_sw_mappings];
    [None] is Python's [None]. *)
Fixpoint get_device_mapping_class
    (device_sw_mappings : list (key * patterns)) (sw : string)
    : result (option key) :=
  match device_sw_mappings with
  | [] => Ok None
  | (k, v) :: rest =>
      let v := match v with One p => [p] | Many ps => ps end in
      bind (first_match v sw) (fun m =>
        if m then Ok (Some k) else get_device_mapping_class rest sw)
  end.

End Mapping.

Arguments get_device_mapping_class {key}.

End DevicesLookup.

(** * Properties *)

(** ** The environment matcher on value trees *)

Module EnvHelperFacts.
Import Py EnvHelper.

Definition is_scalar (v : value) : bool :=
  match v with
  | VList _ | VDict _ => false
  | _ => true
  end.

Definition is_none (v : value) : bool :=
  match v with VNone => true | _ => false end.

Definition is_dict (v : value) : bool :=
  match v with VDict _ => true | _ => false end.

Lemma contained_scalar_eq (r a : value) (path : string) :
  is_scalar r = true ->
  contained r a path = Ok (contained_scalar r a).
Proof. destruct r; simpl; intros H; try discriminate H; reflexivity. Qed.

Lemma contained_list_eq (l : list value) (a : value) (path : string) :
  contained (VList l) a path = contained_list l a.
Proof. reflexivity. Qed.

(** C9.  An empty required list against an available list raises
    [IndexError] from [env_test[0]]; against anything that is not a list
    it returns [False], by membership in the empty list. *)
Theorem contained_empty_required (a : value) (path : string) :
  contained (VList []) a path =
    match a with
    | VList _ => Raise (mk_exn IndexError "list index out of range")
    | _ => Ok false
    end.
Proof. destruct a; reflexivity. Qed.

(** C6.  At a scalar required value, the wildcard [None] matches every
    available value that is not [None], and otherwise the answer is the
    equality of the two values; a required list that starts with the
    wildcard matches an available list exactly when that list is not
    empty, whatever it holds. *)
Theorem wildcard_matching (r a : value) (rest l : list value)
    (path : string) :
  is_scalar r = true ->
  (is_none a = false -> contained VNone a path = Ok true)
  /\ contained r a path = Ok ((is_none r && negb (is_none a)) || py_eq r a)
  /\ contained (VList (VNone :: rest)) (VList l) path
     = Ok (negb (Nat.eqb (length l) 0)).
Proof.
  intros Hr. split; [|split].
  - intros Ha. destruct a; simpl in *; try discriminate; reflexivity.
  - rewrite contained_scalar_eq by exact Hr.
    unfold contained_scalar.
    destruct r; try discriminate Hr; destruct a; simpl;
      repeat match goal with
             | |- context [if ?c then _ else _] => destruct c
             end; reflexivity.
  - destruct l; reflexivity.
Qed.

Lemma wildcard_matching_witness :
  contained VNone (VStr "img.bin") "root" = Ok true
  /\ contained (VStr "lan") (VStr "wan") "root" = Ok false
  /\ contained (VList [VNone; VInt 7]) (VList [VStr "x"]) "root" = Ok true.
Proof.
  destruct (wildcard_matching (VStr "lan") (VStr "img.bin") [VInt 7]
              [VStr "x"] "root" eq_refl) as (H1 & _ & H3).
  destruct (wildcard_matching (VStr "lan") (VStr "wan") [] [] "root"
              eq_refl) as (_ & H2 & _).
  split; [exact (H1 eq_refl)|split; [exact H2|exact H3]].
Defined.

(** *** [EnvHelper.__init__] *)

(** The document carries a [version] that is one of the supported
    strings. *)
Definition whitelisted (env : value) : Prop :=
  exists d s, env = VDict d /\ dict_get "version" d = Some (VStr s)
              /\ In s supported_versions.

Lemma py_eq_str_l (s : string) (v : value) :
  py_eq (VStr s) v = true <-> v = VStr s.
Proof.
  destruct v; simpl; split; intros H; try discriminate H.
  - apply String.eqb_eq in H. congruence.
  - injection H as ->. apply String.eqb_refl.
Qed.

Lemma list_contains_strings (l : list string) (v : value) :
  list_contains (map VStr l) v = true <-> exists s, v = VStr s /\ In s l.
Proof.
  unfold list_contains. rewrite existsb_exists. split.
  - intros (x & Hin & Heq). apply in_map_iff in Hin as (s & <- & Hs).
    apply py_eq_str_l in Heq. eauto.
  - intros (s & -> & Hs). exists (VStr s). split.
    + apply in_map. exact Hs.
    + apply py_eq_str_l. reflexivity.
Qed.

Lemma init_whitelisted (env : value) (mirror : option string) :
  whitelisted env ->
  exists m, __init__ env mirror = Ok (mk_env_helper (Some env) (Some m)).
Proof.
  intros (d & s & -> & Hget & Hin).
  unfold __init__, getitem, bind. rewrite Hget.
  assert (list_contains (map VStr supported_versions) (VStr s) = true) as ->
    by (apply list_contains_strings; eauto).
  eauto.
Qed.

Lemma init_not_whitelisted (env : value) (mirror : option string) :
  is_none env = false -> ~ whitelisted env ->
  exists e, __init__ env mirror = Raise e.
Proof.
  intros Hn Hw. unfold __init__, getitem, bind, raise.
  destruct env; try discriminate Hn; eauto.
  destruct (dict_get "version" d) as [v|] eqn:Hget; eauto.
  destruct (list_contains (map VStr supported_versions) v) eqn:Hc; eauto.
  apply list_contains_strings in Hc as (s & -> & Hs).
  exfalso. apply Hw. exists d, s. auto.
Qed.

(** C8.  Over a document that is not [None], construction fails when
    the [version] field is absent or not one of the supported versions,
    with [AssertionError("Unknown environment version!")] for version
    "9.9"; with a supported version it succeeds and [self.env] is the
    document. *)
Theorem init_checks_version (env : value) (mirror : option string) :
  is_none env = false ->
  (~ whitelisted env -> exists e, __init__ env mirror = Raise e)
  /\ (forall d, env = VDict d ->
       dict_get "version" d = Some (VStr "9.9") ->
       __init__ env mirror
       = Raise (mk_exn AssertionError "Unknown environment version!"))
  /\ (forall d, env = VDict d -> dict_get "version" d = None ->
       __init__ env mirror = Raise (mk_exn KeyError "'version'"))
  /\ (whitelisted env ->
       exists m, __init__ env mirror = Ok (mk_env_helper (Some env) (Some m))).
Proof.
  intros Hn. repeat split.
  - apply init_not_whitelisted. exact Hn.
  - intros d -> Hget. unfold __init__. simpl. rewrite Hget. reflexivity.
  - intros d -> Hget. unfold __init__. simpl. rewrite Hget. reflexivity.
  - apply init_whitelisted.
Qed.

Lemma init_checks_version_witness :
  __init__ (VDict [("version", VStr "9.9")]) None
  = Raise (mk_exn AssertionError "Unknown environment version!")
  /\ __init__ (VDict [("environment_def", VDict [])]) None
     = Raise (mk_exn KeyError "'version'").
Proof.
  split.
  - destruct (init_checks_version (VDict [("version", VStr "9.9")]) None
                eq_refl) as (_ & H & _).
    exact (H _ eq_refl eq_refl).
  - destruct (init_checks_version (VDict [("environment_def", VDict [])])
                None eq_refl) as (_ & _ & H & _).
    exact (H _ eq_refl eq_refl).
Defined.

(** *** Lists of maps *)








(** C4.  [contained(E, E)] for the empty list [E = []] does not return:
    [env_test[0]] raises [IndexError].  A list that holds a map after an
    element that is not a map fails as well, with [AttributeError] from
    [env.items()]. *)
Theorem contained_not_reflexive :
  contained (VList []) (VList []) "root"
  = Raise (mk_exn IndexError "list index out of range")
  /\ contained (VList [VStr "a"; VDict [("device_type", VStr "lan")]])
       (VList [VStr "a"; VDict [("device_type", VStr "lan")]]) "root"
     = Raise (mk_exn AttributeError "object has no attribute 'items'").
Proof. split; reflexivity. Qed.

End EnvHelperFacts.

(** ** The environment matcher on the store *)

Module EnvHelperStoreFacts.
Import Py PyHeap EnvHelperStore.
Local Open Scope pym_scope.

(** [h] holds every object of [h0] unchanged, and whatever else it
    holds is a list. *)
Definition over (h0 h : heap) : Prop :=
  h0 ⊆ h
  /\ forall l o, h !! l = Some o -> h0 !! l = None ->
                 exists items, o = OList items.

(** The computation [m] takes stores over [h0] to stores over [h0]. *)
Definition keeps {A} (h0 : heap) (m : M A) : Prop :=
  forall h, over h0 h -> over h0 (m h).1.

Lemma over_refl (h : heap) : over h h.
Proof.
  split; [reflexivity|]. intros l o H1 H2. congruence.
Qed.

Lemma keeps_ret {A} (h0 : heap) (a : A) : keeps h0 (ret a).
Proof. intros h H. exact H. Qed.

Lemma keeps_throw {A} (h0 : heap) (c : exn_class) (msg : string) :
  keeps h0 (@throw A c msg).
Proof. intros h H. exact H. Qed.

Lemma keeps_no_result {A} (h0 : heap) : keeps h0 (@no_result A).
Proof. intros h H. exact H. Qed.

Lemma keeps_peek {A} (h0 : heap) (f : heap -> option A) :
  keeps h0 (peek f).
Proof. intros h H. unfold peek. destruct (f h); exact H. Qed.

Lemma keeps_bind {A B} (h0 : heap) (m : M A) (k : A -> M B) :
  keeps h0 m -> (forall a, keeps h0 (k a)) -> keeps h0 (mbind m k).
Proof.
  intros Hm Hk h H. unfold mbind. specialize (Hm h H).
  destruct (m h) as [h' [a|e|]]; simpl in *; auto.
  apply Hk. exact Hm.
Qed.

(** A list allocated on a store over [h0] is outside [h0]. *)
Lemma keeps_alloc_bind {B} (h0 : heap) (items : list loc)
    (k : loc -> M B) :
  (forall l, h0 !! l = None -> keeps h0 (k l)) ->
  keeps h0 (mbind (alloc (OList items)) k).
Proof.
  intros Hk h [Hsub Hnew]. unfold mbind, alloc.
  assert (h !! fresh (dom h) = None) as Hfresh
    by (apply not_elem_of_dom, is_fresh).
  assert (h0 !! fresh (dom h) = None) as Hfresh0.
  { destruct (h0 !! fresh (dom h)) as [o|] eqn:E; [|reflexivity].
    eapply lookup_weaken in E; [|exact Hsub]. congruence. }
  apply Hk; [exact Hfresh0|]. split.
  - etransitivity; [exact Hsub|]. apply insert_subseteq. exact Hfresh.
  - intros l o Hl Hl0. destruct (decide (l = fresh (dom h))) as [->|Hne].
    + rewrite lookup_insert_eq in Hl. injection Hl as <-. eauto.
    + rewrite lookup_insert_ne in Hl by auto. eauto.
Qed.

(** Updating a list that is outside [h0]. *)
Lemma keeps_store (h0 : heap) (l : loc) (items : list loc) :
  h0 !! l = None -> keeps h0 (store l (OList items)).
Proof.
  intros Hl h [Hsub Hnew]. unfold store. simpl. split.
  - apply map_subseteq_spec. intros l' o Hl'.
    destruct (decide (l' = l)) as [->|Hne]; [congruence|].
    rewrite lookup_insert_ne by auto.
    eapply lookup_weaken; eauto.
  - intros l' o Hl' Hl0. destruct (decide (l' = l)) as [->|Hne].
    + rewrite lookup_insert_eq in Hl'. injection Hl' as <-. eauto.
    + rewrite lookup_insert_ne in Hl' by auto. eauto.
Qed.

Ltac keeps_step :=
  match goal with
  | |- keeps _ (mbind (alloc (OList _)) _) =>
      apply keeps_alloc_bind; intros ? ?
  | |- keeps _ (mbind _ _) => apply keeps_bind; [|intros ?]
  | |- keeps _ (ret _) => apply keeps_ret
  | |- keeps _ (throw _ _) => apply keeps_throw
  | |- keeps _ no_result => apply keeps_no_result
  | |- keeps _ (peek _) => apply keeps_peek
  | |- keeps _ (get_obj _) => apply keeps_peek
  | |- keeps _ (store _ (OList _)) => apply keeps_store; assumption
  | |- keeps _ (key_in _ _) => unfold key_in
  | |- keeps _ (getitem _ _) => unfold getitem
  | |- keeps _ (match ?x with _ => _ end) => destruct x
  end.

Lemma for_env_keeps (h0 : heap) (fuel : nat) (test wc : loc) (i : nat) :
  h0 !! wc = None -> keeps h0 (for_env fuel test wc i).
Proof.
  intros Hwc. revert i. induction fuel as [|fuel IH]; intros i; simpl.
  - apply keeps_no_result.
  - repeat keeps_step; auto.
Qed.

Lemma for_test_keeps (h0 : heap) (fuel : nat) (env_test wc : loc)
    (i count : nat) :
  h0 !! wc = None -> keeps h0 (for_test fuel env_test wc i count).
Proof.
  intros Hwc. revert i count.
  induction fuel as [|fuel IH]; intros i count; simpl.
  - apply keeps_no_result.
  - repeat keeps_step; auto using for_env_keeps.
Qed.

Lemma contained_list_keeps (h0 : heap) (fuel : nat)
    (env_test env_helper : loc) :
  keeps h0 (contained_list fuel env_test env_helper).
Proof.
  unfold contained_list. repeat keeps_step; auto using for_test_keeps.
Qed.

Lemma contained_scalar_keeps (h0 : heap) (fuel : nat)
    (env_test env_helper : loc) :
  keeps h0 (contained_scalar fuel env_test env_helper).
Proof. unfold contained_scalar. repeat keeps_step. Qed.

Lemma for_k_keeps (h0 : heap) (fuel : nat)
    (rec : loc -> loc -> string -> M bool)
    (env_test env_helper : loc) (path : string) (i : nat) :
  (forall t a p, keeps h0 (rec t a p)) ->
  keeps h0 (for_k fuel rec env_test env_helper path i).
Proof.
  intros Hrec. revert i. induction fuel as [|fuel IH]; intros i; simpl.
  - apply keeps_no_result.
  - repeat keeps_step; auto.
Qed.

Lemma contained_keeps (h0 : heap) (fuel : nat)
    (env_test env_helper : loc) (path : string) :
  keeps h0 (contained fuel env_test env_helper path).
Proof.
  revert env_test env_helper path.
  induction fuel as [|fuel IH]; intros env_test env_helper path; simpl.
  - apply keeps_no_result.
  - apply keeps_bind; [apply keeps_peek|]. intros o.
    destruct o; auto using contained_scalar_keeps, contained_list_keeps,
      for_k_keeps.
Qed.

End EnvHelperStoreFacts.

(** ** The two models of [contained] agree *)

Module EnvHelperRefinement.
Import Py PyHeap.

(** The object at [l] and the objects it reaches spell the tree [v]. *)
Fixpoint repr (h : heap) (v : value) (l : loc) {struct v} : Prop :=
  match v with
  | VNone => h !! l = Some ONone
  | VBool b => h !! l = Some (OBool b)
  | VInt n => h !! l = Some (OInt n)
  | VStr s => h !! l = Some (OStr s)
  | VList vs =>
      exists items,
        h !! l = Some (OList items)
        /\ (fix all2 (vs : list value) (items : list loc) : Prop :=
              match vs, items with
              | [], [] => True
              | v :: vs', i :: items' => repr h v i /\ all2 vs' items'
              | _, _ => False
              end) vs items
  | VDict d =>
      exists items,
        h !! l = Some (ODict items)
        /\ (fix all2 (d : list (string * value))
                (items : list (string * loc)) : Prop :=
              match d, items with
              | [], [] => True
              | (k, v) :: d', (k', i) :: items' =>
                  k = k' /\ repr h v i /\ all2 d' items'
              | _, _ => False
              end) d items
  end.

(** Items of two dictionaries, key by key. *)
Definition repr_item (h : heap) (kv : string * value) (ki : string * loc)
    : Prop :=
  fst kv = fst ki /\ repr h (snd kv) (snd ki).

(** The number of nodes of a tree. *)
Fixpoint size (v : value) : nat :=
  match v with
  | VList l =>
      S ((fix sum (l : list value) : nat :=
            match l with
            | [] => 0
            | x :: l' => size x + sum l'
            end) l)
  | VDict d =>
      S ((fix sum (d : list (string * value)) : nat :=
            match d with
            | [] => 0
            | (_, x) :: d' => size x + sum d'
            end) d)
  | _ => 1
  end.

(** Dictionaries met on the way down through dictionaries have no key
    twice, as Python dictionaries do. *)
Fixpoint wf_keys (v : value) : Prop :=
  match v with
  | VDict d =>
      List.NoDup (dict_keys d)
      /\ (fix all (d : list (string * value)) : Prop :=
            match d with
            | [] => True
            | (_, x) :: d' => wf_keys x /\ all d'
            end) d
  | _ => True
  end.

(** What a store computation must yield for a result on trees. *)
Definition lift {A} (r : result A) : outcome A :=
  match r with
  | Ok a => Done a
  | Raise e => Throw e
  end.

Lemma repr_list (h : heap) (vs : list value) (l : loc) :
  repr h (VList vs) l <->
  exists items, h !! l = Some (OList items) /\ Forall2 (repr h) vs items.
Proof.
  simpl. split; intros (items & Hl & H); exists items; (split; [exact Hl|]).
  - clear Hl. revert items H.
    induction vs as [|v vs IH]; intros [|i items] H; try destruct H;
      constructor; auto.
  - clear Hl. induction H; simpl; auto.
Qed.

Lemma repr_dict (h : heap) (d : list (string * value)) (l : loc) :
  repr h (VDict d) l <->
  exists items, h !! l = Some (ODict items) /\ Forall2 (repr_item h) d items.
Proof.
  simpl. split; intros (items & Hl & H); exists items; (split; [exact Hl|]).
  - clear Hl. revert items H.
    induction d as [|[k v] d IH]; intros [|[k' i] items] H; try destruct H;
      constructor; [split; simpl; tauto|apply IH; tauto].
  - clear Hl. induction H as [|[k v] [k' i] d items [Hk Hv] _ IH]; simpl; auto.
Qed.

Lemma size_pos (v : value) : 0 < size v.
Proof. destruct v; simpl; lia. Qed.

Lemma size_list_cons (x : value) (l : list value) :
  size (VList (x :: l)) = size x + size (VList l).
Proof. cbn [size]. rewrite Nat.add_succ_r. reflexivity. Qed.

Lemma size_dict_cons (k : string) (x : value) (d : list (string * value)) :
  size (VDict ((k, x) :: d)) = size x + size (VDict d).
Proof. cbn [size]. rewrite Nat.add_succ_r. reflexivity. Qed.

Lemma size_list_In (x : value) (l : list value) :
  In x l -> size x < size (VList l).
Proof.
  induction l as [|y l IH]; intros H; [destruct H|].
  rewrite size_list_cons. destruct H as [->|H].
  - pose proof (size_pos (VList l)). lia.
  - specialize (IH H). pose proof (size_pos y). lia.
Qed.

Lemma size_list_length (l : list value) : length l < size (VList l).
Proof.
  induction l as [|y l IH]; [simpl; lia|].
  rewrite size_list_cons. pose proof (size_pos y).
  change (length (y :: l)) with (S (length l)). lia.
Qed.

Lemma size_dict_In (k : string) (x : value) (d : list (string * value)) :
  In (k, x) d -> size x < size (VDict d).
Proof.
  induction d as [|[k' y] d IH]; intros H; [destruct H|].
  rewrite size_dict_cons. destruct H as [[= -> ->]|H].
  - pose proof (size_pos (VDict d)). lia.
  - specialize (IH H). pose proof (size_pos y). lia.
Qed.

Lemma size_dict_length (d : list (string * value)) :
  length d < size (VDict d).
Proof.
  induction d as [|[k y] d IH]; [simpl; lia|].
  rewrite size_dict_cons. pose proof (size_pos y).
  change (length ((k, y) :: d)) with (S (length d)). lia.
Qed.

Lemma Forall2_impl_In {A B} (R R' : A -> B -> Prop) (l : list A)
    (k : list B) :
  Forall2 R l k -> (forall x y, In x l -> R x y -> R' x y) -> Forall2 R' l k.
Proof.
  induction 1 as [|x y l k Hxy _ IH]; intros Himp; constructor.
  - apply Himp; [left; reflexivity|exact Hxy].
  - apply IH. intros x' y' Hin. apply Himp. right. exact Hin.
Qed.

(** A larger store spells the same trees. *)
Lemma repr_mono (h h' : heap) (v : value) (l : loc) :
  h ⊆ h' -> repr h v l -> repr h' v l.
Proof.
  intros Hsub. remember (size v) as n eqn:Hn.
  revert v l Hn. induction n as [n IH] using lt_wf_ind. intros v l -> H.
  destruct v as [| | | |vs|d].
  1-4: simpl in *; eapply lookup_weaken; eauto.
  - apply repr_list in H as (items & Hl & HF). apply repr_list.
    exists items. split; [eapply lookup_weaken; eauto|].
    eapply Forall2_impl_In; [exact HF|].
    intros x y Hin Hx.
    eapply IH; [apply size_list_In; exact Hin|reflexivity|exact Hx].
  - apply repr_dict in H as (items & Hl & HF). apply repr_dict.
    exists items. split; [eapply lookup_weaken; eauto|].
    eapply Forall2_impl_In; [exact HF|].
    intros [k x] [k' i] Hin [Hk Hx]. split; [exact Hk|]. simpl in *.
    eapply IH; [eapply size_dict_In; exact Hin|reflexivity|exact Hx].
Qed.

(** *** Read-only primitives *)

(** The comparison [eq] of addresses decides [py_eq] against [v]. *)
Definition eq_ok (h : heap) (eq : loc -> loc -> option bool) (v : value)
    : Prop :=
  forall w lv lw, repr h v lv -> repr h w lw -> eq lv lw = Some (py_eq v w).

(** The item test of [py_eq] on dictionaries, by itself. *)
Definition py_sub_items (e : list (string * value))
    : list (string * value) -> bool :=
  fix sub (d : list (string * value)) : bool :=
    match d with
    | [] => true
    | (k, v) :: d' =>
        match dict_get k e with
        | Some w => py_eq v w
        | None => false
        end && sub d'
    end.

Lemma py_eq_dict (d e : list (string * value)) :
  py_eq (VDict d) (VDict e)
  = Nat.eqb (length d) (length e) && py_sub_items e d.
Proof. reflexivity. Qed.

Lemma py_eq_list_cons (x y : value) (l m : list value) :
  py_eq (VList (x :: l)) (VList (y :: m))
  = py_eq x y && py_eq (VList l) (VList m).
Proof. reflexivity. Qed.

Lemma items_le_sub (a b : list (string * value)) :
  Py.items_le a b = Nat.leb (length a) (length b) && py_sub_items b a.
Proof.
  unfold Py.items_le. f_equal.
  induction a as [|[k v] a IH]; simpl; [reflexivity|].
  rewrite IH. reflexivity.
Qed.

Lemma dict_get_repr (h : heap) (k : string) (d : list (string * value))
    (items : list (string * loc)) :
  Forall2 (repr_item h) d items ->
  match dict_get k d with
  | Some w => exists lw, dict_get k items = Some lw /\ repr h w lw
  | None => dict_get k items = None
  end.
Proof.
  induction 1 as [|[k1 v] [k2 i] d items [Hk Hv] _ IH]; simpl; [reflexivity|].
  simpl in Hk, Hv. subst k2.
  destruct (String.eqb k k1); [eauto|exact IH].
Qed.

Lemma eq_items_refines (h : heap) (eq : loc -> loc -> option bool)
    (vs1 vs2 : list value) (items1 items2 : list loc) :
  Forall (eq_ok h eq) vs1 ->
  Forall2 (repr h) vs1 items1 -> Forall2 (repr h) vs2 items2 ->
  eq_items eq items1 items2 = Some (py_eq (VList vs1) (VList vs2)).
Proof.
  intros Hok H1. revert vs2 items2 Hok.
  induction H1 as [|x i vs1 items1 Hx _ IH]; intros vs2 items2 Hok H2.
  - destruct H2; reflexivity.
  - destruct H2 as [|y j vs2 items2 Hy H2]; [reflexivity|].
    apply Forall_cons_iff in Hok as [Hox Hok]. simpl eq_items.
    rewrite py_eq_list_cons, (Hox _ _ _ Hx Hy).
    destruct (py_eq x y); [|reflexivity].
    apply IH; assumption.
Qed.

Lemma sub_items_refines (h : heap) (eq : loc -> loc -> option bool)
    (d e : list (string * value)) (ditems eitems : list (string * loc)) :
  Forall (fun kv => eq_ok h eq (snd kv)) d ->
  Forall2 (repr_item h) d ditems -> Forall2 (repr_item h) e eitems ->
  sub_items eq ditems eitems = Some (py_sub_items e d).
Proof.
  intros Hok Hd He. revert Hok.
  induction Hd as [|[k v] [k' i] d ditems [Hk Hv] _ IH]; intros Hok;
    [reflexivity|].
  simpl in Hk, Hv. subst k'.
  apply Forall_cons_iff in Hok as [Hov Hok]. simpl in Hov. simpl.
  pose proof (dict_get_repr h k e eitems He) as Hg.
  destruct (dict_get k e) as [w|].
  - destruct Hg as (lw & -> & Hw). rewrite (Hov _ _ _ Hv Hw).
    destruct (py_eq v w); [|reflexivity]. apply IH. exact Hok.
  - rewrite Hg. reflexivity.
Qed.

(** With fuel above the size of the left operand, [heap_eq] decides
    [py_eq]. *)
Lemma heap_eq_refines (fuel : nat) (h : heap) (v : value) :
  size v < fuel -> eq_ok h (heap_eq fuel h) v.
Proof.
  revert v. induction fuel as [|fuel IH]; intros v Hs; [lia|].
  intros w lv lw Hv Hw.
  destruct v as [| | | |vs|d].
  1-4: simpl in Hv; destruct w; try apply repr_list in Hw as (? & Hw & _);
    try apply repr_dict in Hw as (? & Hw & _); simpl in Hw;
    simpl; rewrite Hv, Hw; reflexivity.
  - apply repr_list in Hv as (items & Hl & HF).
    destruct w; try apply repr_list in Hw as (items' & Hw & HF');
      try apply repr_dict in Hw as (? & Hw & _);
      cbn [heap_eq]; cbn [repr] in Hw; rewrite Hl, Hw; try reflexivity.
    eapply eq_items_refines; eauto.
    apply Forall_forall. intros x Hx. apply IH.
    apply list_elem_of_In, size_list_In in Hx. lia.
  - apply repr_dict in Hv as (items & Hl & HF).
    destruct w; try apply repr_list in Hw as (? & Hw & _);
      try apply repr_dict in Hw as (items' & Hw & HF');
      cbn [heap_eq]; cbn [repr] in Hw; rewrite Hl, Hw; try reflexivity.
    rewrite py_eq_dict.
    rewrite <- (Forall2_length _ _ _ HF), <- (Forall2_length _ _ _ HF').
    destruct (Nat.eqb (length d) (length d0)); [|reflexivity].
    eapply sub_items_refines; eauto.
    apply Forall_forall. intros [k x] Hx. apply IH.
    apply list_elem_of_In, size_dict_In in Hx. simpl. lia.
Qed.

Lemma list_contains_refines (h : heap) (eq : loc -> loc -> option bool)
    (vs : list value) (items : list loc) (xv : value) (x : loc) :
  Forall (eq_ok h eq) vs -> Forall2 (repr h) vs items -> repr h xv x ->
  PyHeap.list_contains eq items x = Some (Py.list_contains vs xv).
Proof.
  intros Hok HF Hx. unfold PyHeap.list_contains, Py.list_contains.
  revert Hok. induction HF as [|v i vs items Hv _ IH]; intros Hok;
    [reflexivity|].
  apply Forall_cons_iff in Hok as [Hov Hok]. simpl.
  rewrite (Hov _ _ _ Hv Hx). destruct (py_eq v xv); [reflexivity|].
  apply IH. exact Hok.
Qed.

Lemma list_remove_refines {R : value -> loc -> Prop}
    (eq : loc -> loc -> option bool)
    (vs : list value) (items : list loc) (xv : value) (x : loc) :
  Forall2 R vs items ->
  (forall v i, In v vs -> R v i -> eq i x = Some (py_eq v xv)) ->
  match Py.list_remove xv vs with
  | Ok l' =>
      exists items', PyHeap.list_remove eq x items = Some (Some items')
                     /\ Forall2 R l' items'
  | Raise e =>
      PyHeap.list_remove eq x items = Some None
      /\ e = mk_exn ValueError "list.remove(x): x not in list"
  end.
Proof.
  intros HF. induction HF as [|v i vs items Hv HF IH]; intros Hok; simpl.
  - split; reflexivity.
  - rewrite (Hok v i (or_introl eq_refl) Hv).
    destruct (py_eq v xv); [eauto|].
    specialize (IH (fun v' i' Hin => Hok v' i' (or_intror Hin))).
    destruct (Py.list_remove xv vs) as [l'|e]; simpl.
    + destruct IH as (items' & -> & HF'). eexists. split; [reflexivity|].
      constructor; assumption.
    + destruct IH as [-> ->]. split; reflexivity.
Qed.

Lemma items_le_refines (h : heap) (eq : loc -> loc -> option bool)
    (t e : list (string * value)) (titems eitems : list (string * loc)) :
  Forall (fun kv => eq_ok h eq (snd kv)) t ->
  Forall2 (repr_item h) t titems -> Forall2 (repr_item h) e eitems ->
  PyHeap.items_le eq titems eitems = Some (Py.items_le t e).
Proof.
  intros Hok Ht He. unfold PyHeap.items_le. rewrite items_le_sub.
  rewrite <- (Forall2_length _ _ _ Ht), <- (Forall2_length _ _ _ He).
  destruct (Nat.leb (length t) (length e)); [|reflexivity].
  eapply sub_items_refines; eauto.
Qed.

(** What the object at the address of a tree looks like. *)
Lemma repr_lookup (h : heap) (v : value) (l : loc) :
  repr h v l ->
  exists o, h !! l = Some o
            /\ match v, o with
               | VNone, ONone => True
               | VBool b, OBool b' => b = b'
               | VInt n, OInt n' => n = n'
               | VStr s, OStr s' => s = s'
               | VList vs, OList items => Forall2 (repr h) vs items
               | VDict d, ODict items => Forall2 (repr_item h) d items
               | _, _ => False
               end.
Proof.
  destruct v; intros H.
  1-4: simpl in H; eexists; split; [exact H|simpl; auto].
  - apply repr_list in H as (items & Hl & HF). eauto.
  - apply repr_dict in H as (items & Hl & HF). eauto.
Qed.

Lemma eq_ok_items (fuel : nat) (h : heap) (vs : list value) :
  size (VList vs) <= fuel -> Forall (eq_ok h (heap_eq fuel h)) vs.
Proof.
  intros Hs. apply Forall_forall. intros x Hx. apply heap_eq_refines.
  apply list_elem_of_In, size_list_In in Hx. lia.
Qed.

Lemma eq_ok_values (fuel : nat) (h : heap) (d : list (string * value)) :
  size (VDict d) <= fuel ->
  Forall (fun kv => eq_ok h (heap_eq fuel h) (snd kv)) d.
Proof.
  intros Hs. apply Forall_forall. intros [k x] Hx. apply heap_eq_refines.
  apply list_elem_of_In, size_dict_In in Hx. simpl. lia.
Qed.

Lemma list_remove_size (x : value) (l l' : list value) :
  Py.list_remove x l = Ok l' -> size (VList l') < size (VList l).
Proof.
  revert l'. induction l as [|y l IH]; intros l' H; simpl in H;
    [discriminate H|].
  rewrite size_list_cons. destruct (py_eq y x).
  - injection H as <-. pose proof (size_pos y). lia.
  - destruct (Py.list_remove x l) as [r|]; simpl in H; [|discriminate H].
    injection H as <-. rewrite size_list_cons. specialize (IH r eq_refl). lia.
Qed.

(** *** The loops *)

Lemma run_get_obj {B} (l : loc) (o : obj) (k : obj -> M B) (h : heap) :
  h !! l = Some o -> mbind (get_obj l) k h = k o h.
Proof. intros H. unfold mbind, get_obj, peek. rewrite H. reflexivity. Qed.

Lemma run_peek {A B} (f : heap -> option A) (a : A) (k : A -> M B)
    (h : heap) :
  f h = Some a -> mbind (peek f) k h = k a h.
Proof. intros H. unfold mbind, peek. rewrite H. reflexivity. Qed.

Lemma repr_dict_lookup (h0 h : heap) (d : list (string * value)) (l : loc) :
  h0 ⊆ h -> repr h0 (VDict d) l ->
  exists items, h !! l = Some (ODict items)
                /\ Forall2 (repr_item h0) d items.
Proof.
  intros Hsub H. apply repr_dict in H as (items & Hl & HF).
  exists items. split; [eapply lookup_weaken; eauto|exact HF].
Qed.

Lemma repr_item_mono (h h' : heap) (d : list (string * value))
    (items : list (string * loc)) :
  h ⊆ h' -> Forall2 (repr_item h) d items -> Forall2 (repr_item h') d items.
Proof.
  intros Hsub H. eapply Forall2_impl; [exact H|].
  intros [k v] [k' i] [Hk Hv].
  split; [exact Hk|]. eapply repr_mono; eauto.
Qed.

Lemma repr_items_mono (h h' : heap) (vs : list value) (items : list loc) :
  h ⊆ h' -> Forall2 (repr h) vs items -> Forall2 (repr h') vs items.
Proof.
  intros Hsub H. eapply Forall2_impl; [exact H|].
  intros v i. apply repr_mono. exact Hsub.
Qed.

(** The inner loop finds what [find_superset] finds and removes what
    [list_remove] removes, in the working copy at [wc]. *)
Lemma for_env_refines (h0 : heap) (t : list (string * value))
    (test wc : loc) (wcv : list value) (wc_items : list loc) (fuel : nat) :
  forall (j : nat) (h : heap),
  h0 ⊆ h -> h0 !! wc = None ->
  repr h0 (VDict t) test ->
  h !! wc = Some (OList wc_items) -> Forall2 (repr h0) wcv wc_items ->
  size (VDict t) + size (VList wcv) + (length wcv - j) < fuel ->
  exists h' out,
    EnvHelperStore.for_env fuel test wc j h = (h', out)
    /\ match EnvHelper.find_superset t (drop j wcv) with
       | Raise e => out = Throw e /\ h' = h
       | Ok None => out = Done false /\ h' = h
       | Ok (Some env) =>
           match Py.list_remove env wcv with
           | Raise e => out = Throw e /\ h' = h
           | Ok l' =>
               out = Done true
               /\ exists items', h' = <[wc := OList items']> h
                                 /\ Forall2 (repr h0) l' items'
           end
       end.
Proof.
  induction fuel as [|fuel IH]; intros j h Hsub Hwc0 Ht Hwc HF Hfuel; [lia|].
  cbn [EnvHelperStore.for_env]. rewrite (run_get_obj _ _ _ _ Hwc).
  destruct (wc_items !! j) as [env_loc|] eqn:Ej.
  - destruct (Forall2_lookup_r _ _ _ _ _ HF Ej) as (envv & Ev & Henv).
    rewrite (drop_S _ _ _ Ev).
    destruct (repr_dict_lookup _ _ _ _ Hsub Ht) as (titems & Htl & HtF).
    rewrite (run_get_obj _ _ _ _ Htl).
    destruct (repr_lookup _ _ _ (repr_mono _ _ _ _ Hsub Henv))
      as (oe & Hel & Hshape).
    rewrite (run_get_obj _ _ _ _ Hel).
    destruct envv as [| | | |vs|e]; destruct oe; try contradiction;
      try (eexists _, _; split; [reflexivity|]; simpl; split; reflexivity).
    assert (PyHeap.items_le (heap_eq fuel h) titems items
            = Some (Py.items_le t e)) as Hle.
    { eapply items_le_refines.
      - apply eq_ok_values. lia.
      - eapply repr_item_mono; eauto.
      - exact Hshape. }
    rewrite (run_peek _ _ _ _ Hle). cbn [EnvHelper.find_superset].
    destruct (Py.items_le t e).
    + pose proof (@list_remove_refines (repr h0) (heap_eq fuel h) wcv
                    wc_items (VDict e) env_loc HF) as Hrm.
      assert (forall v i, In v wcv -> repr h0 v i ->
                heap_eq fuel h i env_loc = Some (py_eq v (VDict e))) as Heq.
      { intros v i Hin Hv. apply heap_eq_refines.
        - apply size_list_In in Hin. lia.
        - eapply repr_mono; eauto.
        - eapply repr_mono; eauto. }
      specialize (Hrm Heq).
      destruct (Py.list_remove (VDict e) wcv) as [l'|err].
      * destruct Hrm as (items' & Hrm & HF').
        rewrite (run_peek _ _ _ _ Hrm).
        eexists _, _. split; [reflexivity|]. split; [reflexivity|].
        exists items'. split; [reflexivity|exact HF'].
      * destruct Hrm as [Hrm ->]. rewrite (run_peek _ _ _ _ Hrm).
        eexists _, _. split; [reflexivity|]. split; reflexivity.
    + apply IH; auto. apply lookup_lt_Some in Ev. lia.
  - apply lookup_ge_None in Ej.
    rewrite drop_ge by (rewrite (Forall2_length _ _ _ HF); exact Ej).
    eexists _, _. split; [reflexivity|]. split; reflexivity.
Qed.

Lemma run_bind {A B} (m : M A) (k : A -> M B) (h h' : heap) (a : A) :
  m h = (h', Done a) -> mbind m k h = k a h'.
Proof. intros H. unfold mbind. rewrite H. reflexivity. Qed.

Lemma run_bind_throw {A B} (m : M A) (k : A -> M B) (h h' : heap) (e : exn) :
  m h = (h', Throw e) -> mbind m k h = (h', Throw e).
Proof. intros H. unfold mbind. rewrite H. reflexivity. Qed.

Definition exit_of (ex : EnvHelper.loop_exit) : EnvHelperStore.loop_exit :=
  match ex with
  | EnvHelper.Returned b => EnvHelperStore.Returned b
  | EnvHelper.Fell _ count => EnvHelperStore.Fell count
  end.

Definition lift_exit (r : result EnvHelper.loop_exit)
    : outcome EnvHelperStore.loop_exit :=
  match r with
  | Ok ex => Done (exit_of ex)
  | Raise e => Throw e
  end.

(** The outer loop ends as [match_items] does. *)
Lemma for_test_refines (h0 : heap) (env_test wc : loc) (tests : list loc)
    (testsv : list value) (fuel : nat) :
  forall (i count : nat) (wcv : list value) (wc_items : list loc) (h : heap),
  h0 ⊆ h -> h0 !! wc = None ->
  h0 !! env_test = Some (OList tests) -> Forall2 (repr h0) testsv tests ->
  h !! wc = Some (OList wc_items) -> Forall2 (repr h0) wcv wc_items ->
  size (VList testsv) + 2 * size (VList wcv) + (length testsv - i) + 1
  < fuel ->
  exists h',
    EnvHelperStore.for_test fuel env_test wc i count h
    = (h', lift_exit (EnvHelper.match_items (drop i testsv) wcv count))
    /\ h0 ⊆ h'.
Proof.
  induction fuel as [|fuel IH];
    intros i count wcv wc_items h Hsub Hwc0 Htests HT Hwc HF Hfuel; [lia|].
  cbn [EnvHelperStore.for_test].
  rewrite (run_get_obj _ _ _ _ (lookup_weaken _ _ _ _ Htests Hsub)).
  destruct (tests !! i) as [test_loc|] eqn:Ei.
  - destruct (Forall2_lookup_r _ _ _ _ _ HT Ei) as (testv & Ev & Htest).
    rewrite (drop_S _ _ _ Ev).
    pose proof (lookup_lt_Some _ _ _ Ev) as Hi.
    pose proof (size_list_In testv testsv
                  (proj1 (list_elem_of_In _ _)
                     (list_elem_of_lookup_2 _ _ _ Ev))) as Hsz.
    destruct (repr_lookup _ _ _ (repr_mono _ _ _ _ Hsub Htest))
      as (ot & Hol & Hshape).
    rewrite (run_get_obj _ _ _ _ Hol).
    assert (PyHeap.list_contains (heap_eq fuel h) wc_items test_loc
            = Some (Py.list_contains wcv testv)) as Hin.
    { eapply list_contains_refines.
      - apply eq_ok_items. lia.
      - eapply repr_items_mono; eauto.
      - eapply repr_mono; eauto. }
    destruct testv as [| | | |vs|t]; destruct ot; try contradiction.
    1-5: rewrite (run_get_obj _ _ _ _ Hwc), (run_peek _ _ _ _ Hin);
      cbn [EnvHelper.match_items];
      destruct (Py.list_contains wcv _);
      [apply (IH _ _ wcv wc_items); auto; lia
      |eexists; split; [reflexivity|exact Hsub]].
    destruct (for_env_refines h0 t test_loc wc wcv wc_items fuel 0 h
                Hsub Hwc0 Htest Hwc HF) as (h1 & out & Hrun & Hspec);
      [pose proof (size_list_length wcv); lia|].
    rewrite drop_0 in Hspec. cbn [EnvHelper.match_items].
    destruct (EnvHelper.find_superset t wcv) as [[env|]|e].
    + destruct (Py.list_remove env wcv) as [l'|e] eqn:Hrm.
      * destruct Hspec as (-> & items' & -> & HF').
        rewrite (run_bind _ _ _ _ _ Hrun). cbn [bind]. rewrite Hrm.
        apply (IH _ _ l' items'); auto.
        -- apply insert_subseteq_r; assumption.
        -- apply lookup_insert_eq.
        -- apply list_remove_size in Hrm. lia.
      * destruct Hspec as [-> ->].
        rewrite (run_bind_throw _ _ _ _ _ Hrun). cbn [bind]. rewrite Hrm.
        eexists; split; [reflexivity|exact Hsub].
    + destruct Hspec as [-> ->]. rewrite (run_bind _ _ _ _ _ Hrun).
      cbn [bind]. apply (IH _ _ wcv wc_items); auto. lia.
    + destruct Hspec as [-> ->]. rewrite (run_bind_throw _ _ _ _ _ Hrun).
      eexists; split; [reflexivity|exact Hsub].
  - apply lookup_ge_None in Ei.
    rewrite drop_ge by (rewrite (Forall2_length _ _ _ HT); exact Ei).
    eexists; split; [reflexivity|exact Hsub].
Qed.

(** *** The branches of [contained] *)

Lemma contained_list_refines (h0 h : heap) (fuel : nat)
    (env_test env_helper : loc) (testsv : list value) (A : value) :
  h0 ⊆ h -> repr h0 (VList testsv) env_test -> repr h0 A env_helper ->
  2 * size (VList testsv) + 2 * size A + 2 < fuel ->
  exists h',
    EnvHelperStore.contained_list fuel env_test env_helper h
    = (h', lift (EnvHelper.contained_list testsv A))
    /\ h0 ⊆ h'.
Proof.
  intros Hsub HR HA Hfuel. unfold EnvHelperStore.contained_list.
  pose proof HR as HR0.
  apply repr_list in HR as (tests & Htl & HT).
  rewrite (run_get_obj _ _ _ _ (lookup_weaken _ _ _ _ Htl Hsub)).
  destruct (repr_lookup _ _ _ (repr_mono _ _ _ _ Hsub HA))
    as (oa & Hal & Hshape).
  rewrite (run_get_obj _ _ _ _ Hal).
  assert (PyHeap.list_contains (heap_eq fuel h) tests env_helper
          = Some (Py.list_contains testsv A)) as Hin.
  { eapply list_contains_refines.
    - apply eq_ok_items. lia.
    - eapply repr_items_mono; eauto.
    - eapply repr_mono; eauto. }
  destruct A as [| | | |wcv|d]; destruct oa; try contradiction.
  1-4, 6: unfold peek; rewrite Hin; eexists; (split; [reflexivity|exact Hsub]).
  unfold EnvHelper.contained_list.
  destruct HT as [|first first_loc testsv tests Hfirst HT].
  { eexists. split; [reflexivity|exact Hsub]. }
  destruct (repr_lookup _ _ _ (repr_mono _ _ _ _ Hsub Hfirst))
    as (ofirst & Hfl & Hfshape).
  rewrite (run_get_obj _ _ _ _ Hfl).
  assert (EnvHelperStore.is_none ofirst
          = match first with VNone => true | _ => false end) as ->.
  { destruct first, ofirst; try contradiction; reflexivity. }
  assert (Forall2 (repr h0) wcv items) as HF.
  { apply repr_list in HA as (items' & Hal' & HF).
    rewrite (lookup_weaken _ _ _ _ Hal' Hsub) in Hal.
    injection Hal as <-. exact HF. }
  rewrite <- (Forall2_length _ _ _ HF).
  destruct (match first with VNone => true | _ => false end
            && Nat.ltb 0 (length wcv)).
  { eexists. split; [reflexivity|exact Hsub]. }
  unfold mbind at 1. unfold alloc.
  assert (h !! fresh (dom h) = None) as Hfresh
    by (apply not_elem_of_dom, is_fresh).
  assert (h0 !! fresh (dom h) = None) as Hfresh0.
  { destruct (h0 !! fresh (dom h)) as [o|] eqn:E; [|reflexivity].
    eapply lookup_weaken in E; [|exact Hsub]. congruence. }
  destruct (for_test_refines h0 env_test (fresh (dom h))
              (first_loc :: tests) (first :: testsv) fuel 0 0 wcv items
              (<[fresh (dom h) := OList items]> h))
    as (h1 & Hrun & Hsub1).
  { apply insert_subseteq_r; assumption. }
  { exact Hfresh0. }
  { exact Htl. }
  { constructor; assumption. }
  { apply lookup_insert_eq. }
  { exact HF. }
  { pose proof (size_list_length (first :: testsv)). lia. }
  rewrite drop_0 in Hrun. unfold mbind at 1. rewrite Hrun.
  destruct (EnvHelper.match_items (first :: testsv) wcv 0) as [[b|wc' count]|e];
    cbn [lift_exit exit_of bind lift].
  - eexists. split; [reflexivity|exact Hsub1].
  - rewrite (run_get_obj _ _ _ _ (lookup_weaken _ _ _ _ Htl Hsub1)).
    assert (length (first_loc :: tests) = length (first :: testsv)) as ->
      by (simpl; f_equal; symmetry; eapply Forall2_length; eauto).
    destruct (negb (Nat.eqb (length (first :: testsv)) count));
      (eexists; split; [reflexivity|exact Hsub1]).
  - eexists. split; [reflexivity|exact Hsub1].
Qed.

Lemma contained_scalar_refines (h : heap) (fuel : nat)
    (env_test env_helper : loc) (R A : value) :
  repr h R env_test -> repr h A env_helper -> size R < fuel ->
  EnvHelperStore.contained_scalar fuel env_test env_helper h
  = (h, Done (EnvHelper.contained_scalar R A)).
Proof.
  intros HR HA Hfuel. unfold EnvHelperStore.contained_scalar.
  destruct (repr_lookup _ _ _ HR) as (ot & Htl & Hts).
  destruct (repr_lookup _ _ _ HA) as (oa & Hal & Has).
  rewrite (run_get_obj _ _ _ _ Htl), (run_get_obj _ _ _ _ Hal).
  pose proof (heap_eq_refines fuel h R Hfuel A _ _ HR HA) as Heq.
  unfold EnvHelper.contained_scalar.
  assert (EnvHelperStore.is_none ot && negb (EnvHelperStore.is_none oa)
          = match R, A with
            | VNone, VNone => false
            | VNone, _ => true
            | _, _ => false
            end) as ->.
  { destruct R, ot; try contradiction; destruct A, oa; try contradiction;
      reflexivity. }
  destruct (match R, A with
            | VNone, VNone => false
            | VNone, _ => true
            | _, _ => false
            end); [reflexivity|].
  rewrite (run_peek _ _ _ _ Heq). destruct (py_eq R A); reflexivity.
Qed.

Lemma key_in_refines (h : heap) (k : string) (A : value) (a : loc) :
  repr h A a ->
  EnvHelperStore.key_in k a h = (h, lift (EnvHelper.key_in k A)).
Proof.
  intros HA. unfold EnvHelperStore.key_in.
  destruct (repr_lookup _ _ _ HA) as (oa & Hal & Hshape).
  rewrite (run_get_obj _ _ _ _ Hal).
  destruct A as [| | | |vs|d]; destruct oa; try contradiction;
    try reflexivity.
  - subst. reflexivity.
  - unfold peek, EnvHelper.key_in, Py.list_contains.
    assert (any_item
              (fun item =>
                 match h !! item with
                 | Some (OStr s) => Some (String.eqb s k)
                 | Some _ => Some false
                 | None => None
                 end) items
            = Some (existsb (fun item => py_eq item (VStr k)) vs)) as ->;
      [|reflexivity].
    clear Hal HA. induction Hshape as [|v i vs items Hv _ IH]; [reflexivity|].
    simpl. destruct (repr_lookup _ _ _ Hv) as (o & -> & Hs).
    destruct v, o; try contradiction; simpl; try exact IH.
    subst. destruct (String.eqb s0 k); [reflexivity|exact IH].
  - unfold EnvHelper.key_in. simpl.
    pose proof (dict_get_repr h k d items Hshape) as Hg.
    destruct (dict_get k d).
    + destruct Hg as (lw & -> & _). reflexivity.
    + rewrite Hg. reflexivity.
Qed.

Lemma dict_get_In {A} (k : string) (d : list (string * A)) (v : A) :
  dict_get k d = Some v -> In (k, v) d.
Proof.
  induction d as [|[k' v'] d IH]; simpl; [discriminate|].
  destruct (String.eqb k k') eqn:E.
  - intros [= ->]. apply String.eqb_eq in E. subst. auto.
  - auto.
Qed.

Lemma getitem_refines (h0 h : heap) (k : string) (A : value) (a : loc) :
  h0 ⊆ h -> repr h0 A a ->
  match EnvHelper.getitem A k with
  | Ok v =>
      exists l, EnvHelperStore.getitem a k h = (h, Done l)
                /\ repr h0 v l /\ size v < size A
  | Raise e => EnvHelperStore.getitem a k h = (h, Throw e)
  end.
Proof.
  intros Hsub HA. unfold EnvHelperStore.getitem.
  destruct (repr_lookup _ _ _ HA) as (oa & Hal & Hshape).
  rewrite (run_get_obj _ _ _ _ (lookup_weaken _ _ _ _ Hal Hsub)).
  destruct A as [| | | |vs|d]; destruct oa; try contradiction;
    try reflexivity.
  unfold EnvHelper.getitem.
  pose proof (dict_get_repr h0 k d items Hshape) as Hg.
  destruct (dict_get k d) as [w|] eqn:E.
  - destruct Hg as (lw & -> & Hw). exists lw. repeat split; auto.
    eapply size_dict_In, dict_get_In, E.
  - rewrite Hg. reflexivity.
Qed.

Lemma dict_get_lookup {A} (d : list (string * A)) (i : nat) (k : string)
    (v : A) :
  List.NoDup (dict_keys d) -> d !! i = Some (k, v) -> dict_get k d = Some v.
Proof.
  revert i. induction d as [|[k' v'] d IH]; intros i Hnd Hi; [discriminate|].
  simpl in Hnd. apply NoDup_cons_iff in Hnd as [Hk Hnd].
  destruct i as [|i]; simpl in Hi.
  - injection Hi as -> ->. simpl. rewrite String.eqb_refl. reflexivity.
  - simpl. destruct (String.eqb k k') eqn:E.
    + exfalso. apply String.eqb_eq in E. subst k'. apply Hk.
      apply list_elem_of_lookup_2, list_elem_of_In in Hi.
      apply (in_map fst) in Hi. exact Hi.
    + eapply IH; eauto.
Qed.

(** The dictionary loop of [EnvHelper.contained], by itself. *)
Definition pure_for_k (env_helper : value) (path : string)
    : list (string * value) -> result bool :=
  fix for_k (items : list (string * value)) : result bool :=
    match items with
    | [] => Ok true
    | (k, sub_test) :: items' =>
        bind (EnvHelper.key_in k env_helper) (fun present =>
          if negb present then Ok false
          else
            bind (EnvHelper.getitem env_helper k) (fun sub_helper =>
              bind (EnvHelper.contained sub_test sub_helper
                      (path +:+ "->" +:+ k))
                (fun ok => if negb ok then Ok false else for_k items')))
    end.

Lemma contained_dict (d : list (string * value)) (A : value)
    (path : string) :
  EnvHelper.contained (VDict d) A path = pure_for_k A path d.
Proof. reflexivity. Qed.

Lemma for_k_refines (h0 : heap) (rec : loc -> loc -> string -> M bool)
    (env_test env_helper : loc) (d : list (string * value))
    (ditems : list (string * loc)) (A : value) (path : string)
    (fuel : nat) :
  h0 !! env_test = Some (ODict ditems) ->
  Forall2 (repr_item h0) d ditems ->
  List.NoDup (dict_keys d) ->
  repr h0 A env_helper ->
  (forall k v A' r a h,
     In (k, v) d -> repr h0 v r -> repr h0 A' a -> size A' < size A ->
     h0 ⊆ h ->
     exists h', rec r a (path +:+ "->" +:+ k) h
                = (h', lift (EnvHelper.contained v A'
                               (path +:+ "->" +:+ k)))
                /\ h0 ⊆ h') ->
  forall (i : nat) (h : heap),
  h0 ⊆ h -> length d - i < fuel ->
  exists h',
    EnvHelperStore.for_k fuel rec env_test env_helper path i h
    = (h', lift (pure_for_k A path (drop i d)))
    /\ h0 ⊆ h'.
Proof.
  intros Htl HD Hnd HA Hrec.
  induction fuel as [|fuel IH]; intros i h Hsub Hfuel; [lia|].
  cbn [EnvHelperStore.for_k].
  rewrite (run_get_obj _ _ _ _ (lookup_weaken _ _ _ _ Htl Hsub)).
  destruct (ditems !! i) as [[k vloc]|] eqn:Ei.
  - destruct (Forall2_lookup_r _ _ _ _ _ HD Ei) as ([k' v] & Ev & Hk & Hv).
    simpl in Hk, Hv. subst k'.
    rewrite (drop_S _ _ _ Ev). cbn [pure_for_k].
    pose proof (key_in_refines h k A env_helper
                  (repr_mono _ _ _ _ Hsub HA)) as Hki.
    destruct (EnvHelper.key_in k A) as [present|e]; cbn [lift bind] in *.
    2:{ rewrite (run_bind_throw _ _ _ _ _ Hki).
        eexists; split; [reflexivity|exact Hsub]. }
    rewrite (run_bind _ _ _ _ _ Hki).
    destruct present; cbn [negb];
      [|eexists; split; [reflexivity|exact Hsub]].
    pose proof (dict_get_repr h0 k d ditems HD) as Hg.
    rewrite (dict_get_lookup _ _ _ _ Hnd Ev) in Hg.
    destruct Hg as (lw & Hlw & Hvw).
    assert (EnvHelperStore.getitem env_test k h = (h, Done lw)) as Hgt.
    { unfold EnvHelperStore.getitem.
      rewrite (run_get_obj _ _ _ _ (lookup_weaken _ _ _ _ Htl Hsub)), Hlw.
      reflexivity. }
    rewrite (run_bind _ _ _ _ _ Hgt).
    pose proof (getitem_refines h0 h k A env_helper Hsub HA) as Hgi.
    destruct (EnvHelper.getitem A k) as [sub_helper|e]; cbn [lift bind].
    2:{ rewrite (run_bind_throw _ _ _ _ _ Hgi).
        eexists; split; [reflexivity|exact Hsub]. }
    destruct Hgi as (la & Hgi & Hla & Hsz).
    rewrite (run_bind _ _ _ _ _ Hgi).
    destruct (Hrec k v sub_helper lw la h) as (h1 & Hr & Hsub1); auto.
    { apply list_elem_of_In. eapply list_elem_of_lookup_2. exact Ev. }
    destruct (EnvHelper.contained v sub_helper (path +:+ "->" +:+ k))
      as [ok|e]; cbn [lift bind] in *.
    2:{ rewrite (run_bind_throw _ _ _ _ _ Hr).
        eexists; split; [reflexivity|exact Hsub1]. }
    rewrite (run_bind _ _ _ _ _ Hr).
    destruct ok; cbn [negb];
      [|eexists; split; [reflexivity|exact Hsub1]].
    apply IH; [exact Hsub1|]. apply lookup_lt_Some in Ev. lia.
  - apply lookup_ge_None in Ei.
    rewrite drop_ge by (rewrite (Forall2_length _ _ _ HD); exact Ei).
    eexists; split; [reflexivity|exact Hsub].
Qed.

Lemma wf_keys_In (d : list (string * value)) (k : string) (v : value) :
  wf_keys (VDict d) -> In (k, v) d -> wf_keys v.
Proof.
  intros [_ H]. induction d as [|[k' v'] d IH]; intros Hin; [destruct Hin|].
  destruct H as [Hv H]. destruct Hin as [[= -> ->]|Hin]; auto.
Qed.

(** On a store that spells the required tree [R] at [env_test] and the
    available tree [A] at [env_helper], with fuel enough for their sizes,
    [contained] on the store ends as [contained] on the trees does, with
    the same answer or the same exception. *)
Theorem contained_store_agrees (fuel : nat) :
  forall (R A : value) (env_test env_helper : loc) (path : string)
         (h0 h : heap),
  wf_keys R -> repr h0 R env_test -> repr h0 A env_helper -> h0 ⊆ h ->
  2 * size R + 2 * size A + 3 < fuel ->
  exists h',
    EnvHelperStore.contained fuel env_test env_helper path h
    = (h', lift (EnvHelper.contained R A path))
    /\ h0 ⊆ h'.
Proof.
  induction fuel as [|fuel IH];
    intros R A env_test env_helper path h0 h Hwf HR HA Hsub Hfuel; [lia|].
  cbn [EnvHelperStore.contained].
  destruct (repr_lookup _ _ _ (repr_mono _ _ _ _ Hsub HR))
    as (ot & Htl & Hshape).
  rewrite (run_get_obj _ _ _ _ Htl).
  destruct R as [| | | |vs|d]; destruct ot; try contradiction.
  1-4: erewrite contained_scalar_refines;
    [eexists; split; [reflexivity|exact Hsub]
    |eapply repr_mono; eauto|eapply repr_mono; eauto|simpl; lia].
  - apply contained_list_refines; auto. lia.
  - rewrite contained_dict.
    pose proof HR as HR0. apply repr_dict in HR0 as (ditems & Hdl & HD).
    rewrite <- (drop_0 d).
    eapply for_k_refines; eauto.
    + apply Hwf.
    + intros k v A' r a h1 Hin Hv HA' Hsz Hsub1.
      apply IH; auto.
      * eapply wf_keys_In; eauto.
      * apply size_dict_In in Hin. lia.
    + pose proof (size_dict_length d). lia.
Qed.

(** Scenario D on the store: the answer is [False]; the available list
    at 6 still holds its entry, and the working copy, a new list at 7,
    has lost it. *)
Example contained_store_scenario_D :
  let r := EnvHelperStore.contained 12 5%positive 6%positive "root"
             Scenario.heap_D in
  r.2 = Done false
  /\ r.1 !! 6%positive = Some (OList [4%positive])
  /\ r.1 !! 7%positive = Some (OList [])
  /\ Scenario.heap_D !! 7%positive = None.
Proof. repeat split. Qed.

(** C7.  Whatever [contained] answers, and whether it returns or
    raises, every object the store held before the call is the same
    after it, so every tree the store spelled, the required and the
    available one among them, it still spells; the only objects the call
    adds are lists, the working copies it makes and consumes. *)
Theorem contained_leaves_store (fuel : nat) (h : heap)
    (env_test env_helper : loc) (path : string) :
  let h' := (EnvHelperStore.contained fuel env_test env_helper path h).1 in
  (forall l o, h !! l = Some o -> h' !! l = Some o)
  /\ (forall v l, repr h v l -> repr h' v l)
  /\ (forall l o, h' !! l = Some o -> h !! l = None ->
                  exists items, o = OList items).
Proof.
  destruct (EnvHelperStoreFacts.contained_keeps h fuel env_test env_helper
              path h (EnvHelperStoreFacts.over_refl h)) as [Hsub Hnew].
  split; [|split; [|exact Hnew]].
  - intros l o Hl. eapply lookup_weaken; eauto.
  - intros v l. apply repr_mono. exact Hsub.
Qed.

End EnvHelperRefinement.

(** ** Where the matcher is reflexive *)

Module EnvHelperReflexivity.
Import Py EnvHelper EnvHelperRefinement.

(** No dictionary anywhere in the tree has a key twice. *)
Fixpoint wf_deep (v : value) : Prop :=
  match v with
  | VList l =>
      (fix all (l : list value) : Prop :=
         match l with
         | [] => True
         | x :: l' => wf_deep x /\ all l'
         end) l
  | VDict d =>
      List.NoDup (dict_keys d)
      /\ (fix all (d : list (string * value)) : Prop :=
            match d with
            | [] => True
            | (_, x) :: d' => wf_deep x /\ all d'
            end) d
  | _ => True
  end.

Definition is_dict (v : value) : bool :=
  match v with VDict _ => true | _ => false end.

(** The maps of a list come before its other elements. *)
Fixpoint dicts_first (l : list value) : bool :=
  match l with
  | [] => true
  | VDict _ :: l' => dicts_first l'
  | _ :: l' => forallb (fun x => negb (is_dict x)) l'
  end.

(** Every list met on the way down through dictionaries is not empty
    and has its maps first. *)
Fixpoint lists_ok (v : value) : Prop :=
  match v with
  | VList l => l <> [] /\ dicts_first l = true
  | VDict d =>
      (fix all (d : list (string * value)) : Prop :=
         match d with
         | [] => True
         | (_, x) :: d' => lists_ok x /\ all d'
         end) d
  | _ => True
  end.

Lemma wf_deep_list (l : list value) :
  wf_deep (VList l) <-> Forall wf_deep l.
Proof.
  induction l as [|x l IH]; simpl.
  - split; auto.
  - rewrite Forall_cons_iff. simpl in IH. rewrite IH. tauto.
Qed.

Lemma wf_deep_dict (d : list (string * value)) :
  wf_deep (VDict d) <->
  List.NoDup (dict_keys d) /\ Forall (fun kv => wf_deep (snd kv)) d.
Proof.
  simpl. apply and_iff_compat_l.
  induction d as [|[k x] d IH]; simpl.
  - split; auto.
  - rewrite Forall_cons_iff, IH. tauto.
Qed.

Lemma lists_ok_dict (d : list (string * value)) :
  lists_ok (VDict d) <-> Forall (fun kv => lists_ok (snd kv)) d.
Proof.
  induction d as [|[k x] d IH]; simpl.
  - split; auto.
  - rewrite Forall_cons_iff. simpl in IH. rewrite IH. tauto.
Qed.

Lemma py_sub_items_In (e d : list (string * value)) :
  (forall k v, In (k, v) d ->
     exists w, dict_get k e = Some w /\ py_eq v w = true) ->
  py_sub_items e d = true.
Proof.
  induction d as [|[k v] d IH]; intros H; [reflexivity|]. simpl.
  destruct (H k v (or_introl eq_refl)) as (w & -> & ->). simpl.
  apply IH. intros k' v' Hin. apply H. right. exact Hin.
Qed.

(** [==] is reflexive on trees whose dictionaries have distinct keys. *)
Lemma py_eq_refl (v : value) : wf_deep v -> py_eq v v = true.
Proof.
  remember (size v) as n eqn:Hn. revert v Hn.
  induction n as [n IH] using lt_wf_ind. intros v -> Hwf.
  destruct v as [|b|z|s|l|d]; simpl.
  - reflexivity.
  - destruct b; reflexivity.
  - apply Z.eqb_refl.
  - apply String.eqb_refl.
  - apply wf_deep_list in Hwf.
    assert (forall x, In x l -> py_eq x x = true) as Hx.
    { intros x Hin. eapply IH; [apply size_list_In; exact Hin|reflexivity|].
      rewrite Forall_forall in Hwf. apply Hwf, list_elem_of_In, Hin. }
    clear IH Hwf. induction l as [|x l IHl]; [reflexivity|].
    rewrite (Hx x (or_introl eq_refl)). simpl.
    apply IHl. intros y Hy. apply Hx. right. exact Hy.
  - apply wf_deep_dict in Hwf as [Hnd Hwf].
    change (py_eq (VDict d) (VDict d) = true). rewrite py_eq_dict.
    rewrite Nat.eqb_refl. simpl. apply py_sub_items_In.
    intros k v Hin. exists v. split.
    + apply list_elem_of_In, list_elem_of_lookup in Hin as [i Hi].
      eapply dict_get_lookup; eauto.
    + eapply IH; [eapply size_dict_In; exact Hin|reflexivity|].
      rewrite Forall_forall in Hwf.
      apply (Hwf (k, v)), list_elem_of_In, Hin.
Qed.

Lemma items_le_refl (t : list (string * value)) :
  wf_deep (VDict t) -> items_le t t = true.
Proof.
  intros Hwf. pose proof (py_eq_refl (VDict t) Hwf) as H.
  rewrite py_eq_dict, Nat.eqb_refl in H. simpl in H.
  rewrite items_le_sub, Nat.leb_refl, H. reflexivity.
Qed.

Lemma list_contains_In (l : list value) (x : value) :
  In x l -> wf_deep x -> list_contains l x = true.
Proof.
  intros Hin Hwf. unfold list_contains. apply existsb_exists.
  exists x. split; [exact Hin|apply py_eq_refl; exact Hwf].
Qed.

(** The elements that are not maps are each found in the working copy,
    which holds them all. *)
Lemma match_items_others (ss wc : list value) (count : nat) :
  forallb (fun x => negb (is_dict x)) ss = true ->
  Forall wf_deep ss -> (forall x, In x ss -> In x wc) ->
  match_items ss wc count = Ok (Fell wc (count + length ss)).
Proof.
  revert count. induction ss as [|x ss IH]; intros count Hnd Hwf Hin; simpl.
  - rewrite Nat.add_0_r. reflexivity.
  - simpl in Hnd. apply andb_prop in Hnd as [Hx Hnd].
    apply Forall_cons_iff in Hwf as [Hwx Hwf].
    assert (list_contains wc x = true) as Hc
      by (apply list_contains_In; [apply Hin; left; reflexivity|exact Hwx]).
    destruct x; try discriminate Hx; rewrite Hc; simpl;
      rewrite IH by (auto; intros y Hy; apply Hin; right; exact Hy);
      f_equal; f_equal; lia.
Qed.

Lemma no_dicts_filter (m : list value) :
  forallb (fun y => negb (is_dict y)) m = true ->
  List.filter is_dict m = []
  /\ List.filter (fun x => negb (is_dict x)) m = m.
Proof.
  induction m as [|y m IH]; intros H; [split; reflexivity|].
  simpl in H. apply andb_prop in H as [Hy H]. destruct (IH H) as [H1 H2].
  simpl. rewrite Hy. apply negb_true_iff in Hy. rewrite Hy.
  split; [exact H1|f_equal; exact H2].
Qed.

Lemma match_items_dict_head (t : list (string * value))
    (l wc : list value) (count : nat) :
  wf_deep (VDict t) ->
  match_items (VDict t :: l) (VDict t :: wc) count
  = match_items l wc (S count).
Proof.
  intros Hwf. cbn [match_items find_superset].
  rewrite (items_le_refl t Hwf). cbn [bind list_remove].
  rewrite (py_eq_refl (VDict t) Hwf). reflexivity.
Qed.

(** A list with its maps first matches itself: each map takes the entry
    at the head of the working copy, which is the map itself. *)
Lemma match_items_self (l rest : list value) (count : nat) :
  dicts_first l = true -> Forall wf_deep l ->
  (forall x, In x l -> is_dict x = false -> In x rest) ->
  exists wc,
    match_items l (List.filter is_dict l ++ rest) count
    = Ok (Fell wc (count + length l)).
Proof.
  revert count. induction l as [|x l IH]; intros count Hdf Hwf Hin.
  - simpl. rewrite Nat.add_0_r. eauto.
  - apply Forall_cons_iff in Hwf as [Hwx Hwf].
    destruct (is_dict x) eqn:Ex.
    + destruct x as [| | | | |t]; try discriminate Ex.
      simpl in Hdf. cbn [List.filter is_dict app].
      rewrite (match_items_dict_head t _ _ _ Hwx).
      destruct (IH (S count) Hdf Hwf) as (wc & ->).
      { intros y Hy. apply Hin. right. exact Hy. }
      exists wc. f_equal. f_equal. simpl. lia.
    + assert (forallb (fun y => negb (is_dict y)) (x :: l) = true) as Hnd.
      { simpl. rewrite Ex. simpl.
        destruct x; try discriminate Ex; exact Hdf. }
      rewrite (proj1 (no_dicts_filter _ Hnd)).
      simpl app. eexists. apply match_items_others.
      * exact Hnd.
      * constructor; assumption.
      * intros y Hy. apply Hin; [exact Hy|].
        rewrite forallb_forall in Hnd. apply negb_true_iff, Hnd, Hy.
Qed.

Lemma dicts_first_split (l : list value) :
  dicts_first l = true ->
  l = List.filter is_dict l
      ++ List.filter (fun x => negb (is_dict x)) l.
Proof.
  induction l as [|x l IH]; intros H; [reflexivity|].
  destruct (is_dict x) eqn:Ex.
  - destruct x; try discriminate Ex. simpl in *. f_equal. auto.
  - assert (forallb (fun y => negb (is_dict y)) (x :: l) = true) as Hnd.
    { simpl. rewrite Ex. simpl. destruct x; try discriminate Ex; exact H. }
    destruct (no_dicts_filter _ Hnd) as [-> ->]. reflexivity.
Qed.

Lemma contained_list_self (l : list value) :
  l <> [] -> dicts_first l = true -> Forall wf_deep l ->
  contained_list l (VList l) = Ok true.
Proof.
  intros Hne Hdf Hwf. unfold contained_list.
  destruct l as [|first l']; [congruence|].
  destruct (match first with VNone => true | _ => false end
            && Nat.ltb 0 (length (first :: l'))); [reflexivity|].
  destruct (match_items_self (first :: l')
              (List.filter (fun x => negb (is_dict x)) (first :: l')) 0
              Hdf Hwf) as (wc & Hm).
  { intros x Hx Hd. apply filter_In. split; [exact Hx|].
    rewrite Hd. reflexivity. }
  rewrite <- (dicts_first_split _ Hdf) in Hm. rewrite Hm.
  cbn [bind]. rewrite Nat.add_0_l, Nat.eqb_refl. reflexivity.
Qed.

(** The matcher is reflexive on the trees whose dictionaries have
    distinct keys and whose lists, as far as dictionaries lead to them,
    are not empty and have their maps first. *)
Lemma contained_reflexive (v : value) (path : string) :
  wf_deep v -> lists_ok v -> contained v v path = Ok true.
Proof.
  remember (size v) as n eqn:Hn. revert v path Hn.
  induction n as [n IH] using lt_wf_ind. intros v path -> Hwf Hok.
  destruct v as [|b|z|s|l|d].
  - reflexivity.
  - destruct b; reflexivity.
  - cbn. unfold contained_scalar. simpl. rewrite Z.eqb_refl. reflexivity.
  - cbn. unfold contained_scalar. simpl. rewrite String.eqb_refl.
    reflexivity.
  - destruct Hok as [Hne Hdf]. apply wf_deep_list in Hwf.
    change (contained_list l (VList l) = Ok true).
    apply contained_list_self; assumption.
  - rewrite contained_dict.
    apply wf_deep_dict in Hwf as [Hnd Hwf]. apply lists_ok_dict in Hok.
    assert (forall items,
              (forall k x, In (k, x) items -> In (k, x) d) ->
              pure_for_k (VDict d) path items = Ok true) as Hall.
    { induction items as [|[k x] items IHi]; intros Hsub; [reflexivity|].
      pose proof (Hsub k x (or_introl eq_refl)) as Hin.
      assert (dict_get k d = Some x) as Hget.
      { apply list_elem_of_In, list_elem_of_lookup in Hin as [i Hi].
        eapply dict_get_lookup; eauto. }
      cbn [pure_for_k]. unfold key_in, getitem. rewrite Hget.
      cbn [bind negb].
      rewrite (IH (size x)); cbn [bind negb].
      - apply IHi. intros k' x' Hin'. apply Hsub. right. exact Hin'.
      - eapply size_dict_In. exact Hin.
      - reflexivity.
      - rewrite Forall_forall in Hwf.
        apply (Hwf (k, x)), list_elem_of_In, Hin.
      - rewrite Forall_forall in Hok.
        apply (Hok (k, x)), list_elem_of_In, Hin. }
    apply Hall. auto.
Qed.

End EnvHelperReflexivity.

(** ** Device composition *)

Module DevicesFacts.
Import Py PyHeap Devices.

Lemma mem_In (x : string) (l : list string) : mem x l = true <-> In x l.
Proof.
  unfold mem. rewrite existsb_exists. split.
  - intros (y & Hy & E). apply String.eqb_eq in E. subst. exact Hy.
  - intros H. exists x. split; [exact H|apply String.eqb_refl].
Qed.

Lemma mem_false (x : string) (l : list string) :
  mem x l = false <-> ~ In x l.
Proof.
  rewrite <- mem_In. destruct (mem x l); split; intros H;
    try discriminate; try reflexivity; try (exfalso; apply H; reflexivity);
    try (intros E; discriminate E).
Qed.

Lemma set_inter_In (a b : list string) (x : string) :
  In x (set_inter a b) <-> In x a /\ In x b.
Proof.
  induction a as [|y a IH]; simpl; [tauto|].
  destruct (mem y b) eqn:Eb; destruct (mem y a) eqn:Ea; simpl;
    rewrite ?IH.
  - apply mem_In in Eb, Ea. intuition (subst; auto).
  - apply mem_In in Eb. intuition (subst; auto).
  - apply mem_false in Eb. intuition (subst; try contradiction; auto).
  - apply mem_false in Eb. intuition (subst; try contradiction; auto).
Qed.

Lemma set_inter_NoDup (a b : list string) : List.NoDup (set_inter a b).
Proof.
  induction a as [|y a IH]; simpl; [constructor|].
  destruct (mem y b && negb (mem y a)) eqn:E; [|exact IH].
  apply andb_prop in E as [_ E]. apply negb_true_iff, mem_false in E.
  constructor; [|exact IH].
  intros H. apply set_inter_In in H. tauto.
Qed.

Lemma set_inter_nil (a b : list string) :
  Nat.ltb 0 (length (set_inter a b)) = false <->
  forall x, In x a -> In x b -> False.
Proof.
  split.
  - intros H x Ha Hb.
    assert (In x (set_inter a b)) as Hx by (apply set_inter_In; auto).
    destruct (set_inter a b); [exact Hx|discriminate H].
  - intros H. destruct (set_inter a b) as [|x l] eqn:E; [reflexivity|].
    exfalso. assert (In x (set_inter a b)) as Hx by (rewrite E; left; auto).
    apply set_inter_In in Hx. destruct Hx. eauto.
Qed.

Section Composition.
Context {world : Type}.
Implicit Types (c : pyclass world) (cls_list : list (pyclass world)).

(** Two classes of the list, the first before the second, export a
    member of the same name. *)
Definition shares_member cls_list : Prop :=
  exists i j ci cj name,
    i < j /\ cls_list !! i = Some ci /\ cls_list !! j = Some cj
    /\ In name (members ci) /\ In name (members cj).

Definition all_members cls_list : list string :=
  concat (map members cls_list).

Lemma all_members_In cls_list (x : string) :
  In x (all_members cls_list) <->
  exists i ci, cls_list !! i = Some ci /\ In x (members ci).
Proof.
  unfold all_members. rewrite in_concat. split.
  - intros (l & Hl & Hx). apply in_map_iff in Hl as (ci & <- & Hci).
    apply list_elem_of_In, list_elem_of_lookup in Hci as [i Hi]. eauto.
  - intros (i & ci & Hi & Hx). exists (members ci). split; [|exact Hx].
    apply in_map, list_elem_of_In, list_elem_of_lookup. eauto.
Qed.

Lemma members_spec c (name : string) :
  In name (members c) <->
  In name (dict_keys (cls_dict c))
  /\ startswith name "__" = false /\ endswith name "__" = false
  /\ ~ In name ["model"; "prompt"; "profile"].
Proof.
  unfold members. rewrite filter_In. unfold is_member.
  rewrite !andb_true_iff, !negb_true_iff, mem_false. tauto.
Qed.

(** The loop ends without an error: it leaves the classes as they
    were, and no class of [todo] shares a member with [cls_members]
    or with a class before it in [todo]. *)
Lemma check_members_inr cls_list todo (cls_members : list string)
    (temp r : list (pyclass world)) :
  check_members cls_list todo cls_members temp = inr r ->
  r = temp ++ todo
  /\ forall pre c post, todo = pre ++ c :: post ->
       forall x, In x (members c) ->
                 In x (cls_members ++ all_members pre) -> False.
Proof.
  revert cls_members temp.
  induction todo as [|c0 todo IH]; intros acc temp H; simpl in H.
  - injection H as <-. split; [symmetry; apply app_nil_r|].
    intros [|? ?] c post E; discriminate E.
  - destruct (Nat.ltb 0 (length (set_inter (members c0) acc))) eqn:E;
      [discriminate H|].
    destruct (IH _ _ H) as [-> Hd]. split.
    + rewrite <- app_assoc. reflexivity.
    + intros pre c post Ht x Hx Hin.
      destruct pre as [|p pre]; simpl in Ht; injection Ht as -> ->.
      * unfold all_members in Hin. simpl in Hin. rewrite app_nil_r in Hin.
        eapply set_inter_nil; eauto.
      * eapply (Hd pre c post eq_refl x Hx).
        unfold all_members in *. simpl in Hin.
        rewrite <- app_assoc. exact Hin.
Qed.

(** The loop ends with an error at the first class [c] that shares a
    member with [cls_members] or with a class before it. *)
Lemma check_members_inl cls_list todo (cls_members : list string)
    (temp : list (pyclass world)) (common : list string)
    (classes : list (pyclass world)) :
  check_members cls_list todo cls_members temp = inl (common, classes) ->
  exists pre c post,
    todo = pre ++ c :: post
    /\ (forall pre' c' post', pre = pre' ++ c' :: post' ->
         forall x, In x (members c') ->
                   In x (cls_members ++ all_members pre') -> False)
    /\ common = set_inter (members c) (cls_members ++ all_members pre)
    /\ common <> []
    /\ classes = match index c cls_list with
                 | Some i => firstn (i + 1) cls_list
                 | None => []
                 end.
Proof.
  revert cls_members temp.
  induction todo as [|c0 todo IH]; intros acc temp H; simpl in H.
  - discriminate H.
  - destruct (Nat.ltb 0 (length (set_inter (members c0) acc))) eqn:E.
    + injection H as <- <-. exists [], c0, todo.
      unfold all_members. simpl. rewrite app_nil_r.
      repeat split; auto.
      * intros [|? ?] c' post' E'; discriminate E'.
      * intros E'. rewrite E' in E. discriminate E.
    + destruct (IH _ _ H) as (pre & c & post & -> & Hd & -> & Hne & ->).
      exists (c0 :: pre), c, post.
      unfold all_members in *. simpl. rewrite <- app_assoc in Hne |- *.
      repeat split; auto.
      intros pre' c' post' E' x Hx Hin.
      destruct pre' as [|p pre']; simpl in E'; injection E' as -> ->.
      * simpl in Hin. rewrite app_nil_r in Hin.
        eapply set_inter_nil; eauto.
      * eapply (Hd pre' c' post' eq_refl x Hx).
        simpl in Hin. rewrite <- app_assoc. exact Hin.
Qed.

Lemma shares_member_split cls_list :
  shares_member cls_list <->
  exists pre c post x,
    cls_list = pre ++ c :: post
    /\ In x (members c) /\ In x (all_members pre).
Proof.
  split.
  - intros (i & j & ci & cj & x & Hij & Hi & Hj & Hxi & Hxj).
    apply list_elem_of_split_length in Hj as (pre & post & -> & ->).
    exists pre, cj, post, x. repeat split; auto.
    apply all_members_In. exists i, ci. split; [|exact Hxi].
    rewrite lookup_app_l in Hi by exact Hij. exact Hi.
  - intros (pre & c & post & x & -> & Hc & Hpre).
    apply all_members_In in Hpre as (i & ci & Hi & Hxi).
    exists i, (length pre), ci, c, x.
    pose proof (lookup_lt_Some _ _ _ Hi) as Hlt.
    repeat split; auto.
    + rewrite lookup_app_l by exact Hlt. exact Hi.
    + apply list_lookup_middle. reflexivity.
Qed.

Lemma index_middle (pre post : list (pyclass world)) c :
  List.NoDup (map cls_id (pre ++ c :: post)) ->
  index c (pre ++ c :: post) = Some (length pre).
Proof.
  induction pre as [|p pre IH]; simpl; intros Hnd.
  - unfold same_class. rewrite Nat.eqb_refl. reflexivity.
  - apply NoDup_cons_iff in Hnd as [Hp Hnd].
    unfold same_class at 1.
    destruct (Nat.eqb (cls_id p) (cls_id c)) eqn:E.
    + exfalso. apply Hp. apply Nat.eqb_eq in E. rewrite E.
      rewrite map_app. apply in_or_app. right. left. reflexivity.
    + rewrite (IH Hnd). reflexivity.
Qed.

Lemma check_members_raises cls_list (common : list string)
    (classes : list (pyclass world)) :
  check_members cls_list cls_list [] [] = inl (common, classes) ->
  shares_member cls_list.
Proof.
  intros H.
  apply check_members_inl in H as (pre & c & post & -> & _ & -> & Hne & _).
  apply shares_member_split.
  destruct (set_inter (members c) ([] ++ all_members pre))
    as [|x l] eqn:E; [congruence|].
  assert (In x (set_inter (members c) ([] ++ all_members pre))) as Hx
    by (rewrite E; left; reflexivity).
  apply set_inter_In in Hx as [Hx1 Hx2].
  exists pre, c, post, x. auto.
Qed.

Lemma check_members_quiet cls_list :
  ~ shares_member cls_list ->
  check_members cls_list cls_list [] [] = inr cls_list.
Proof.
  intros Hno.
  destruct (check_members cls_list cls_list [] []) as [[common classes]|r]
    eqn:E.
  - exfalso. eauto using check_members_raises.
  - apply check_members_inr in E as [-> _]. reflexivity.
Qed.

(** C2.  [bf_node] raises its duplicate-members error exactly when a
    class of the list exports a member that a class before it exports
    too.  A member is a key of the class dictionary that neither
    starts nor ends with a double underscore and is none of [model],
    [prompt], [profile].  The error is raised at the first such class,
    before any initializer runs; its message is built from the names
    that class shares with the classes before it, each once, and from
    the classes up to and including it. *)
Theorem bf_node_conflict cls_list (model : string)
    (device_mgr : option (device_manager world)) (kw : kwargs)
    (s : state world) :
  List.NoDup (map cls_id cls_list) ->
  ((exists common classes,
      check_members cls_list cls_list [] [] = inl (common, classes))
   <-> shares_member cls_list)
  /\ (forall common classes,
        check_members cls_list cls_list [] [] = inl (common, classes) ->
        bf_node cls_list model device_mgr kw s
        = (s, Throw (duplicate_members common classes))
        /\ exists j cj,
             cls_list !! j = Some cj
             /\ classes = firstn (S j) cls_list
             /\ ~ shares_member (firstn j cls_list)
             /\ List.NoDup common
             /\ forall name,
                  In name common <->
                  In name (members cj)
                  /\ exists i ci, i < j /\ cls_list !! i = Some ci
                                   /\ In name (members ci))
  /\ (~ shares_member cls_list ->
      check_members cls_list cls_list [] [] = inr cls_list)
  /\ (forall c name,
        In name (members c) <->
        In name (dict_keys (cls_dict c))
        /\ startswith name "__" = false /\ endswith name "__" = false
        /\ ~ In name ["model"; "prompt"; "profile"]).
Proof.
  intros Hnd.
  split; [|split; [|split]].
  - split; [intros (common & classes & H);
             eauto using check_members_raises|].
    intros Hsh.
    destruct (check_members cls_list cls_list [] []) as [[common classes]|r]
      eqn:E; [eauto|].
    exfalso. apply check_members_inr in E as [_ Hd].
    apply shares_member_split in Hsh as (pre & c & post & x & E & Hc & Hp).
    eapply Hd; eauto.
  - intros common classes H. split.
    + unfold bf_node. rewrite H. reflexivity.
    + apply check_members_inl in H
        as (pre & c & post & E & Hd & -> & Hne & ->).
      exists (length pre), c. subst cls_list.
      rewrite index_middle by exact Hnd.
      repeat split.
      * apply list_lookup_middle. reflexivity.
      * rewrite Nat.add_1_r. reflexivity.
      * rewrite take_app_length.
        intros Hsh. apply shares_member_split in Hsh
          as (pre' & c' & post' & x & E & Hc & Hp).
        eapply Hd; eauto.
      * apply set_inter_NoDup.
      * apply set_inter_In in H. tauto.
      * apply set_inter_In in H as [_ H]. simpl in H.
        apply all_members_In in H as (i & ci & Hi & Hx).
        exists i, ci. pose proof (lookup_lt_Some _ _ _ Hi) as Hlt.
        repeat split; auto.
        rewrite lookup_app_l by exact Hlt. exact Hi.
      * intros (Hc & i & ci & Hlt & Hi & Hx).
        apply set_inter_In. split; [exact Hc|]. simpl.
        apply all_members_In. exists i, ci. split; [|exact Hx].
        rewrite lookup_app_l in Hi by exact Hlt. exact Hi.
  - apply check_members_quiet.
  - intros c name. apply members_spec.
Qed.

End Composition.

Section GetDevice.
Context {world : Type}.
Implicit Types (c : pyclass world) (cls_list : list (pyclass world))
  (s : state world) (kw : kwargs).

(** The locals of [get_device] after its first three statements. *)
Definition passthrough kw : kwargs :=
  (dict_pop "plugin_device" (dict_pop "override" kw).2).2.

Definition override_of kw : option loc := (dict_pop "override" kw).1.

Definition plugin_of kw : option loc :=
  (dict_pop "plugin_device" (dict_pop "override" kw).2).1.

(** The [try] block of [get_device]. *)
Definition try_block (model : string)
    (device_mgr : option (device_manager world))
    (override plugin : option loc)
    (acc : list (pyclass world) * list (pyclass world) * kwargs)
    : D world (instance world) :=
  let '(cl, pl, kw1) := acc in
  if Nat.eqb (length (cl ++ pl)) 0 then
    dthrow (mk_exn BftNotSupportedDevice
              ("Unable to spawn instance of model: " +:+ model))
  else
    dbind (call_bf_node (cl ++ pl) model device_mgr kw1) (fun ret =>
      match device_mgr with
      | Some m =>
          dbind (call_add_device m ret override plugin) (fun _ =>
            dret ret)
      | None => dret ret
      end).

Lemma get_device_eq (registry : list (string * list (pyclass world)))
    (model : string) (device_mgr : option (device_manager world)) kw s :
  get_device registry model device_mgr kw s =
  match resolve model (dict_get "profile" kw)
          (concat (map snd registry)) ([], [], passthrough kw) s with
  | (s1, Done acc) =>
      try_except model
        (try_block model device_mgr (override_of kw) (plugin_of kw) acc)
        s1
  | (s1, Throw e) => (s1, Throw e)
  | (s1, NoResult) => (s1, NoResult)
  end.
Proof.
  unfold get_device, dbind, passthrough, override_of, plugin_of,
    dict_pop, try_block.
  cbn [fst snd].
  destruct (resolve _ _ _ _ s) as [s1 [[[cl pl] kw1]| |]]; reflexivity.
Qed.

(** Initializers run in order, each at most once, and stop at the
    first that raises; they leave the store and the log alone. *)
Lemma run_inits_calls cls_list (d : list (string * attr_val))
    (model : string) (mgr : option nat) kw s s'
    (out : outcome (list (string * attr_val))) :
  run_inits cls_list d model mgr kw s = (s', out) ->
  st_heap s' = st_heap s /\ st_log s' = st_log s
  /\ match out with
     | Done _ => st_calls s' = st_calls s ++ map cls_id cls_list
     | Throw _ =>
         exists n, n < length cls_list
                   /\ st_calls s'
                      = st_calls s ++ map cls_id (firstn (S n) cls_list)
     | NoResult => False
     end.
Proof.
  revert d s. induction cls_list as [|c l IH]; intros d s H; simpl in H.
  - unfold dret in H. injection H as <- <-.
    rewrite app_nil_r. auto.
  - unfold dbind, call_init in H.
    destruct (cls_init c d model mgr kw (st_world s)) as [w [d'|e]].
    + apply IH in H as (Hh & Hl & Hc). simpl in Hh, Hl, Hc.
      repeat split; auto.
      destruct out as [a|e|]; auto.
      * rewrite Hc, <- app_assoc. reflexivity.
      * destruct Hc as (n & Hn & Hc). exists (S n). simpl. split; [lia|].
        rewrite Hc, <- app_assoc. reflexivity.
    + injection H as <- <-. simpl. repeat split; auto.
      exists 0. split; [simpl; lia|]. rewrite firstn_O. reflexivity.
Qed.

(** C5.  When the selected classes compose and an initializer raises
    [e], [get_device] raises what its [except] clauses make of [e]:
    [e] itself for [ConnectionRefused] (and [BftNotSupportedDevice]),
    an [Exception] whose text names the model for [pexpect.EOF], and
    an [Exception] with the text of [e], and nothing else, for any
    other exception.  The initializers before the failing one ran
    once each, the failing one once, and none ran after it. *)
Theorem get_device_initializer_raises
    (registry : list (string * list (pyclass world)))
    (model : string) (device_mgr : option (device_manager world))
    kw s s1 s2 (cl pl : list (pyclass world)) (kw1 : kwargs) (e : exn) :
  resolve model (dict_get "profile" kw) (concat (map snd registry))
    ([], [], passthrough kw) s = (s1, Done (cl, pl, kw1)) ->
  ~ shares_member (cl ++ pl) ->
  duplicate_base (cl ++ pl) = None ->
  forallb (fun k => negb (mem k (dict_keys kw1)))
    ["cls_list"; "model"; "device_mgr"; "mgr"] = true ->
  run_inits (cl ++ pl) [] model (option_map mgr_id device_mgr) kw1 s1
  = (s2, Throw e) ->
  get_device registry model device_mgr kw s
  = (s2, Throw (reraise model e))
  /\ (exists n, n < length (cl ++ pl)
                /\ st_calls s2
                   = st_calls s1 ++ map cls_id (firstn (S n) (cl ++ pl)))
  /\ match exn_cls e with
     | ConnectionRefused | BftNotSupportedDevice | BaseExc _ =>
         reraise model e = e
     | pexpect_EOF =>
         reraise model e
         = mk_exn Exception
             ("Failed to connect to a " +:+ model
              +:+ ", unable to connect (in use) or possibly misconfigured")
     | _ => reraise model e = mk_exn Exception (exn_msg e)
     end.
Proof.
  intros Hres Hsh Hdup Hkeys Hrun.
  pose proof (run_inits_calls _ _ _ _ _ _ _ _ Hrun) as (_ & _ & Hcalls).
  split; [|split; [exact Hcalls|]].
  - rewrite get_device_eq, Hres. unfold try_except, try_block.
    assert (Nat.eqb (length (cl ++ pl)) 0 = false) as ->.
    { destruct Hcalls as (n & Hn & _). apply Nat.eqb_neq. lia. }
    simpl in Hkeys. rewrite !andb_true_iff, !negb_true_iff in Hkeys.
    destruct Hkeys as (K1 & K2 & K3 & K4 & _).
    unfold call_bf_node. simpl List.filter. rewrite K1, K2, K3.
    unfold dbind at 1. unfold bf_node.
    rewrite (check_members_quiet _ Hsh), Hdup, K4.
    unfold dbind. rewrite Hrun. reflexivity.
  - unfold reraise. destruct e as [[] msg]; reflexivity.
Qed.

(** *** Profile resolution and the caller's dictionaries *)

Lemma dict_get_Some_In {A} (k : string) (d : list (string * A)) (v : A) :
  dict_get k d = Some v -> In k (dict_keys d) /\ In v (map snd d).
Proof.
  induction d as [|[k' v'] d IH]; simpl; [discriminate|].
  destruct (String.eqb k k') eqn:E.
  - intros [= ->]. apply String.eqb_eq in E. auto.
  - intros H. destruct (IH H). auto.
Qed.

Lemma dict_get_None {A} (k : string) (d : list (string * A)) :
  dict_get k d = None <-> ~ In k (dict_keys d).
Proof.
  induction d as [|[k' v'] d IH]; simpl; [tauto|].
  destruct (String.eqb k k') eqn:E.
  - apply String.eqb_eq in E. subst. split; [discriminate|tauto].
  - apply String.eqb_neq in E. rewrite IH. intuition congruence.
Qed.

Lemma dict_keys_In {A} (k : string) (d : list (string * A)) :
  In k (dict_keys d) <-> dict_get k d <> None.
Proof.
  destruct (dict_get k d) as [v|] eqn:E.
  - split; [discriminate|]. intros _.
    eapply dict_get_Some_In. exact E.
  - apply dict_get_None in E. tauto.
Qed.

Lemma dict_set_other {A} (k k' : string) (v : A) (d : list (string * A)) :
  k <> k' -> dict_get k (dict_set k' v d) = dict_get k d.
Proof.
  intros Hne. induction d as [|[k0 v0] d IH]; simpl.
  - apply String.eqb_neq in Hne. rewrite Hne. reflexivity.
  - destruct (String.eqb k' k0) eqn:E; simpl.
    + apply String.eqb_eq in E. subst k0.
      apply String.eqb_neq in Hne. rewrite Hne. reflexivity.
    + rewrite IH. reflexivity.
Qed.

Lemma dict_update_other {A} (k : string) (d e : list (string * A)) :
  ~ In k (dict_keys e) -> dict_get k (dict_update d e) = dict_get k d.
Proof.
  unfold dict_update. revert d.
  induction e as [|[k' v'] e IH]; intros d Hk; simpl; [reflexivity|].
  simpl in Hk. rewrite IH by tauto.
  apply dict_set_other. intros ->. tauto.
Qed.

Lemma filter_keys_In {A} (f : string -> bool) (d : list (string * A))
    (k : string) :
  In k (dict_keys (List.filter (fun kv => f (fst kv)) d)) <->
  In k (dict_keys d) /\ f k = true.
Proof.
  unfold dict_keys. rewrite !in_map_iff. split.
  - intros ([k' v] & <- & H). apply filter_In in H as [H1 H2].
    split; [|exact H2]. exists (k', v). auto.
  - intros (([k' v] & <- & H1) & H2). exists (k', v).
    split; [reflexivity|]. apply filter_In. auto.
Qed.

(** Dictionaries of the store keep their address and lose keys at
    most. *)
Definition dicts_shrink (h h' : heap) : Prop :=
  forall l d, h !! l = Some (ODict d) ->
    exists d', h' !! l = Some (ODict d')
               /\ forall k, In k (dict_keys d') -> In k (dict_keys d).

Lemma dicts_shrink_refl (h : heap) : dicts_shrink h h.
Proof. intros l d H. eauto. Qed.

Lemma dicts_shrink_trans (h1 h2 h3 : heap) :
  dicts_shrink h1 h2 -> dicts_shrink h2 h3 -> dicts_shrink h1 h3.
Proof.
  intros H12 H23 l d H. destruct (H12 _ _ H) as (d2 & H2 & Hk2).
  destruct (H23 _ _ H2) as (d3 & H3 & Hk3). eauto.
Qed.

Definition is_primary (model : string) c : bool :=
  match dict_get "model" (cls_dict c) with
  | Some attr => matches_model model attr
  | None => false
  end.

(** One step of the loop, for a profile at [p] that is not one of its
    own values: the profile stays as it is, dictionaries only shrink,
    the keys of [kwargs] keep their values, and a class joins
    [cls_list] only as a primary match. *)
Lemma resolve_dev_inv (model : string) (p : loc)
    (pd : list (string * loc)) c cl pl kw s s'
    (cl' pl' : list (pyclass world)) (kw' : kwargs) :
  st_heap s !! p = Some (ODict pd) ->
  ~ In p (map snd pd) ->
  resolve_dev model (Some p) c (cl, pl, kw) s
  = (s', Done (cl', pl', kw')) ->
  st_heap s' !! p = Some (ODict pd)
  /\ dicts_shrink (st_heap s) (st_heap s')
  /\ (forall k, In k (dict_keys kw) -> dict_get k kw' = dict_get k kw)
  /\ (forall x, In x cl' -> In x cl \/ (x = c /\ is_primary model c = true)).
Proof.
  intros Hp Hself H. unfold resolve_dev in H. unfold is_primary.
  destruct (dict_get "model" (cls_dict c)) as [attr|].
  2:{ injection H as <- <- <- <-.
      repeat split; auto using dicts_shrink_refl. }
  assert (forall x,
            In x (if matches_model model attr then cl ++ [c] else cl) ->
            In x cl \/ (x = c /\ matches_model model attr = true)) as Hcl.
  { intros x Hx. destruct (matches_model model attr); [|auto].
    apply in_app_or in Hx as [Hx|[<-|[]]]; auto. }
  unfold dbind at 1 in H. unfold read_dict at 1 in H. rewrite Hp in H.
  destruct (profile_key attr pd) as [key|].
  2:{ injection H as <- <- <- <-.
      repeat split; auto using dicts_shrink_refl. }
  destruct (dict_get key pd) as [q'|] eqn:Hq; [|discriminate H].
  destruct (class_in c _).
  { unfold dbind, log, dret in H. injection H as <- <- <- <-. simpl.
    repeat split; auto using dicts_shrink_refl. }
  unfold dbind at 1 in H. unfold read_dict in H.
  destruct (st_heap s !! q') as [[| | | | |pk]|] eqn:Hpk;
    try discriminate H.
  assert (q' <> p) as Hne.
  { intros ->. apply Hself. eapply dict_get_Some_In; eauto. }
  destruct (Nat.ltb 0 (length (set_inter (dict_keys kw) (dict_keys pk))))
    eqn:Hc.
  - unfold dbind, log, write_dict, dret in H. simpl in H.
    injection H as <- <- <- <-. simpl. repeat split; auto.
    + rewrite lookup_insert_ne by exact Hne. exact Hp.
    + intros l d Hl. destruct (decide (l = q')) as [->|Hl'].
      * rewrite lookup_insert_eq. eexists. split; [reflexivity|].
        rewrite Hpk in Hl. injection Hl as <-.
        intros k Hk.
        apply (filter_keys_In
                 (fun k => negb (mem k (set_inter (dict_keys kw)
                                          (dict_keys pk))))) in Hk.
        tauto.
      * rewrite lookup_insert_ne by auto. eauto.
    + intros k Hk. apply dict_update_other. intros Hin.
      apply (filter_keys_In
               (fun k => negb (mem k (set_inter (dict_keys kw)
                                        (dict_keys pk))))) in Hin
        as [Hin Hf].
      apply negb_true_iff, mem_false in Hf. apply Hf.
      apply set_inter_In. auto.
  - unfold dbind, dret in H. injection H as <- <- <- <-.
    repeat split; auto using dicts_shrink_refl.
    intros k Hk. apply dict_update_other. intros Hin.
    eapply set_inter_nil; eauto.
Qed.

Lemma class_in_false c cl :
  (forall x, In x cl -> same_class x c = false) -> class_in c cl = false.
Proof.
  intros H. unfold class_in. induction cl as [|x cl IH]; [reflexivity|].
  simpl. rewrite (H x) by (left; reflexivity). simpl.
  apply IH. intros y Hy. apply H. right. exact Hy.
Qed.

(** The step for a class that is a profile extension: the key [i] of
    [kwargs] is not a key of the override dictionary afterwards. *)
Lemma resolve_dev_pops (model : string) (p q : loc)
    (pd : list (string * loc)) (dev : pyclass world) (attr : attr_val)
    (a i : string) cl pl kw s s'
    (acc' : list (pyclass world) * list (pyclass world) * kwargs) :
  st_heap s !! p = Some (ODict pd) ->
  ~ In p (map snd pd) ->
  dict_get "model" (cls_dict dev) = Some attr ->
  profile_key attr pd = Some a ->
  dict_get a pd = Some q ->
  is_primary model dev = false ->
  (forall x, In x cl -> same_class x dev = false) ->
  In i (dict_keys kw) ->
  resolve_dev model (Some p) dev (cl, pl, kw) s = (s', Done acc') ->
  exists pk', st_heap s' !! q = Some (ODict pk')
              /\ ~ In i (dict_keys pk').
Proof.
  intros Hp Hself Hattr Hkey Hq Hprim Hcl Hi H.
  unfold resolve_dev in H. unfold is_primary in Hprim.
  rewrite Hattr in H, Hprim. rewrite Hprim in H.
  unfold dbind at 1 in H. unfold read_dict at 1 in H.
  rewrite Hp, Hkey, Hq, (class_in_false _ _ Hcl) in H.
  unfold dbind at 1 in H. unfold read_dict in H.
  destruct (st_heap s !! q) as [[| | | | |pk]|] eqn:Hpk;
    try discriminate H.
  destruct (Nat.ltb 0 (length (set_inter (dict_keys kw) (dict_keys pk))))
    eqn:Hc.
  - unfold dbind, log, write_dict, dret in H. simpl in H.
    injection H as <- <-. simpl. rewrite lookup_insert_eq.
    eexists. split; [reflexivity|]. intros Hin.
    apply (filter_keys_In
             (fun k => negb (mem k (set_inter (dict_keys kw)
                                      (dict_keys pk))))) in Hin
      as [Hin Hf].
    apply negb_true_iff, mem_false in Hf. apply Hf.
    apply set_inter_In. auto.
  - unfold dbind, dret in H. injection H as <- <-.
    exists pk. split; [exact Hpk|]. intros Hin.
    eapply set_inter_nil; eauto.
Qed.

Lemma resolve_cons (model : string) (profile : option loc) c
    (devs : list (pyclass world))
    (acc : list (pyclass world) * list (pyclass world) * kwargs) s :
  resolve model profile (c :: devs) acc s =
  match resolve_dev model profile c acc s with
  | (s1, Done acc1) => resolve model profile devs acc1 s1
  | (s1, Throw e) => (s1, Throw e)
  | (s1, NoResult) => (s1, NoResult)
  end.
Proof. reflexivity. Qed.

Lemma resolve_never_throws (model : string) (profile : option loc)
    (devs : list (pyclass world))
    (acc : list (pyclass world) * list (pyclass world) * kwargs)
    s s' (e : exn) :
  resolve model profile devs acc s <> (s', Throw e).
Proof.
  revert acc s. induction devs as [|c devs IH]; intros acc s; simpl.
  - discriminate.
  - unfold dbind at 1.
    destruct (resolve_dev model profile c acc s) as [s1 [acc1|e1|]] eqn:E.
    + apply IH.
    + exfalso. clear IH. unfold resolve_dev in E.
      destruct acc as [[cl pl] kw].
      destruct (dict_get "model" (cls_dict c)); [|discriminate E].
      unfold dbind at 1 in E.
      destruct (match profile with
                | Some p => read_dict p
                | None => dret []
                end s) as [s0 [pitems|e0|]] eqn:Er; try discriminate E.
      * destruct (profile_key _ pitems); [|discriminate E].
        destruct (dict_get _ pitems); [|discriminate E].
        destruct (class_in c _); [discriminate E|].
        unfold dbind at 1 in E. unfold read_dict in E.
        destruct (st_heap s0 !! l) as [[| | | | |pk]|];
          try discriminate E.
        destruct (Nat.ltb 0 _); discriminate E.
      * destruct profile as [p|]; [|discriminate Er].
        unfold read_dict in Er.
        destruct (st_heap s !! p) as [[]|]; discriminate Er.
    + discriminate.
Qed.

Lemma resolve_inv (model : string) (p : loc) (pd : list (string * loc))
    (devs : list (pyclass world)) cl pl kw s s'
    (cl' pl' : list (pyclass world)) (kw' : kwargs) :
  st_heap s !! p = Some (ODict pd) ->
  ~ In p (map snd pd) ->
  resolve model (Some p) devs (cl, pl, kw) s
  = (s', Done (cl', pl', kw')) ->
  st_heap s' !! p = Some (ODict pd)
  /\ dicts_shrink (st_heap s) (st_heap s')
  /\ (forall k, In k (dict_keys kw) -> dict_get k kw' = dict_get k kw)
  /\ (forall x, In x cl' ->
        In x cl \/ (In x devs /\ is_primary model x = true)).
Proof.
  intros Hp Hself. revert cl pl kw s Hp.
  induction devs as [|c devs IH]; intros cl pl kw s Hp H.
  - injection H as <- <- <- <-.
    repeat split; auto using dicts_shrink_refl.
  - rewrite resolve_cons in H.
    destruct (resolve_dev model (Some p) c (cl, pl, kw) s)
      as [s1 [[[cl1 pl1] kw1]|e1|]] eqn:E; try discriminate H.
    destruct (resolve_dev_inv _ _ _ _ _ _ _ _ _ _ _ _ Hp Hself E)
      as (Hp1 & Hs1 & Hk1 & Hc1).
    destruct (IH _ _ _ _ Hp1 H) as (Hp2 & Hs2 & Hk2 & Hc2).
    repeat split; eauto using dicts_shrink_trans.
    + intros k Hk. rewrite Hk2, Hk1; auto.
      apply dict_keys_In. rewrite Hk1 by exact Hk.
      apply dict_keys_In. exact Hk.
    + intros x Hx. destruct (Hc2 x Hx) as [Hx1|[Hx1 Hx2]].
      * destruct (Hc1 x Hx1) as [?|[-> ?]]; [auto|].
        right. split; [left; reflexivity|auto].
      * right. split; [right; exact Hx1|exact Hx2].
Qed.

Lemma resolve_pops (model : string) (p q : loc)
    (pd : list (string * loc)) (dev : pyclass world) (attr : attr_val)
    (a i : string) (devs : list (pyclass world)) cl pl kw s s'
    (acc' : list (pyclass world) * list (pyclass world) * kwargs) :
  st_heap s !! p = Some (ODict pd) ->
  ~ In p (map snd pd) ->
  dict_get "model" (cls_dict dev) = Some attr ->
  profile_key attr pd = Some a ->
  dict_get a pd = Some q ->
  In dev devs ->
  (forall x, In x devs -> is_primary model x = true ->
             same_class x dev = false) ->
  (forall x, In x cl -> same_class x dev = false) ->
  In i (dict_keys kw) ->
  resolve model (Some p) devs (cl, pl, kw) s = (s', Done acc') ->
  exists pk', st_heap s' !! q = Some (ODict pk')
              /\ ~ In i (dict_keys pk').
Proof.
  intros Hp Hself Hattr Hkey Hq Hin Hprim Hcl Hi H.
  revert cl pl kw s Hp Hcl Hi H.
  induction devs as [|c devs IH]; intros cl pl kw s Hp Hcl Hi H;
    [destruct Hin|].
  rewrite resolve_cons in H.
  destruct (resolve_dev model (Some p) c (cl, pl, kw) s)
    as [s1 [[[cl1 pl1] kw1]|e1|]] eqn:E; try discriminate H.
  destruct (resolve_dev_inv _ _ _ _ _ _ _ _ _ _ _ _ Hp Hself E)
    as (Hp1 & Hs1 & Hk1 & Hc1).
  assert (In i (dict_keys kw1)) as Hi1.
  { apply dict_keys_In. rewrite Hk1 by exact Hi.
    apply dict_keys_In. exact Hi. }
  destruct Hin as [->|Hin].
  - assert (is_primary model dev = false) as Hnp.
    { destruct (is_primary model dev) eqn:Ep; [|reflexivity].
      pose proof (Hprim dev (or_introl eq_refl) Ep) as Hs.
      unfold same_class in Hs. rewrite Nat.eqb_refl in Hs.
      discriminate Hs. }
    destruct (resolve_dev_pops _ _ _ _ _ _ _ _ _ _ _ _ _ _
                Hp Hself Hattr Hkey Hq Hnp Hcl Hi E) as (pk1 & Hq1 & Hn1).
    destruct acc' as [[cl' pl'] kw'].
    destruct (resolve_inv _ _ _ _ _ _ _ _ _ _ _ _ Hp1 Hself H)
      as (_ & Hs2 & _ & _).
    destruct (Hs2 _ _ Hq1) as (pk2 & Hq2 & Hsub).
    exists pk2. split; [exact Hq2|]. intros Hc. apply Hn1, Hsub, Hc.
  - apply (IH Hin (fun x Hx => Hprim x (or_intror Hx)) cl1 pl1 kw1 s1);
      auto.
    intros x Hx. destruct (Hc1 x Hx) as [Hx1|[-> Hx1]]; [auto|].
    apply Hprim; [left; reflexivity|exact Hx1].
Qed.

(** The [try] block does not write to the store, and the instance it
    returns records the merged [kwargs]. *)
Lemma try_block_frame (model : string)
    (device_mgr : option (device_manager world))
    (override plugin : option loc)
    (cl pl : list (pyclass world)) (kw1 : kwargs) s s'
    (out : outcome (instance world)) :
  try_except model
    (try_block model device_mgr override plugin (cl, pl, kw1)) s
  = (s', out) ->
  st_heap s' = st_heap s
  /\ out <> NoResult
  /\ forall inst, out = Done inst -> target inst = kw1.
Proof.
  unfold try_except, try_block.
  destruct (Nat.eqb (length (cl ++ pl)) 0).
  { unfold dthrow. intros [= <- <-]. repeat split; discriminate. }
  unfold dbind at 1. unfold call_bf_node.
  destruct (List.filter _ _).
  2:{ unfold dthrow. intros [= <- <-]. repeat split; discriminate. }
  unfold bf_node.
  destruct (check_members _ _ _ _) as [[common classes]|temp].
  { unfold dthrow. intros [= <- <-]. repeat split; discriminate. }
  destruct (duplicate_base temp).
  { unfold dthrow. intros [= <- <-]. repeat split; discriminate. }
  destruct (mem "mgr" (dict_keys kw1)).
  { unfold dthrow. intros [= <- <-]. repeat split; discriminate. }
  unfold dbind at 1.
  destruct (run_inits temp [] model (option_map mgr_id device_mgr) kw1 s)
    as [s1 o1] eqn:Hrun.
  apply run_inits_calls in Hrun as (Hh & _ & Ho).
  destruct o1 as [d|e|]; [|intros [= <- <-]|destruct Ho].
  2:{ repeat split; auto; discriminate. }
  unfold dret at 1.
  destruct device_mgr as [m|].
  - unfold dbind, call_add_device, dret.
    destruct (_add_device m _ override plugin (st_world s1)) as [w [u|e]].
    + intros [= <- <-]. simpl. repeat split; auto; try discriminate.
      intros inst [= <-]. reflexivity.
    + intros [= <- <-]. simpl. repeat split; auto; discriminate.
  - unfold dret. intros [= <- <-]. repeat split; auto; try discriminate.
    intros inst [= <-]. reflexivity.
Qed.

Lemma passthrough_get (kw : kwargs) (i : string) :
  i <> "override" -> i <> "plugin_device" ->
  dict_get i (passthrough kw) = dict_get i kw.
Proof.
  intros H1 H2. unfold passthrough, dict_pop. cbn [snd].
  assert (forall (k : string) (d : kwargs), i <> k ->
            dict_get i (List.filter
                          (fun kv => negb (String.eqb (fst kv) k)) d)
            = dict_get i d) as Hf.
  { intros k d Hk. induction d as [|[k' v'] d IH]; [reflexivity|].
    simpl. destruct (String.eqb k' k) eqn:E; simpl.
    - apply String.eqb_eq in E. subst k'.
      apply String.eqb_neq in Hk. rewrite Hk. exact IH.
    - rewrite IH. reflexivity. }
  rewrite !Hf by assumption. reflexivity.
Qed.

(** C10.  Let the caller pass a profile (at [p]) whose entry for an
    alias of the class [dev] is the dictionary at [q], let [dev] be
    registered and not a primary match, and let [i] be a key both of
    that dictionary and of the keyword arguments.  Whenever
    [get_device] gets through profile resolution, the dictionary at
    [q], the caller's own object, still reached from the caller's
    profile, has lost the key [i]: it was popped in place.  The
    instance returned keeps the caller's value for [i]. *)
Theorem profile_keys_popped_in_place
    (registry : list (string * list (pyclass world)))
    (model : string) (device_mgr : option (device_manager world))
    kw s s' (out : outcome (instance world))
    (p q : loc) (pd pk : list (string * loc))
    (dev : pyclass world) (attr : attr_val) (a i : string) :
  dict_get "profile" kw = Some p ->
  st_heap s !! p = Some (ODict pd) ->
  ~ In p (map snd pd) ->
  In dev (concat (map snd registry)) ->
  dict_get "model" (cls_dict dev) = Some attr ->
  profile_key attr pd = Some a ->
  dict_get a pd = Some q ->
  st_heap s !! q = Some (ODict pk) ->
  (forall x, In x (concat (map snd registry)) ->
             is_primary model x = true -> same_class x dev = false) ->
  In i (dict_keys pk) ->
  In i (dict_keys kw) -> i <> "override" -> i <> "plugin_device" ->
  get_device registry model device_mgr kw s = (s', out) ->
  out <> NoResult ->
  (exists pk', st_heap s' !! q = Some (ODict pk')
               /\ ~ In i (dict_keys pk')
               /\ forall k, In k (dict_keys pk') -> In k (dict_keys pk))
  /\ st_heap s' !! p = Some (ODict pd)
  /\ forall inst, out = Done inst ->
                  dict_get i (target inst) = dict_get i kw.
Proof.
  intros Hprof Hp Hself Hin Hattr Hkey Hq Hpk Hprim Hipk Hikw Ho Hpl
    Hrun Hout.
  rewrite get_device_eq, Hprof in Hrun.
  destruct (resolve model (Some p) (concat (map snd registry))
              ([], [], passthrough kw) s)
    as [s1 [[[cl pl] kw1]|e1|]] eqn:Hres.
  - assert (In i (dict_keys (passthrough kw))) as Hi0.
    { apply dict_keys_In. rewrite passthrough_get by assumption.
      apply dict_keys_In. exact Hikw. }
    destruct (resolve_pops _ _ _ _ _ _ _ _ _ _ _ _ _ _ _
                Hp Hself Hattr Hkey Hq Hin Hprim
                (fun x (Hx : In x []) => match Hx with end) Hi0 Hres)
      as (pk1 & Hq1 & Hn1).
    destruct (resolve_inv _ _ _ _ _ _ _ _ _ _ _ _ Hp Hself Hres)
      as (Hp1 & Hs1 & Hk1 & _).
    destruct (try_block_frame _ _ _ _ _ _ _ _ _ _ Hrun)
      as (Hh & _ & Ht).
    rewrite Hh. split; [|split].
    + exists pk1. repeat split; auto.
      destruct (Hs1 _ _ Hpk) as (pk2 & Hq2 & Hsub).
      rewrite Hq1 in Hq2. injection Hq2 as <-. exact Hsub.
    + exact Hp1.
    + intros inst ->. rewrite (Ht inst eq_refl), Hk1 by exact Hi0.
      apply passthrough_get; assumption.
  - exfalso. eapply resolve_never_throws. exact Hres.
  - injection Hrun as <- <-. exfalso. apply Hout. reflexivity.
Qed.

Lemma shares_member_single c : ~ shares_member [c].
Proof.
  intros (i & j & ci & cj & x & Hij & Hi & Hj & _).
  apply lookup_lt_Some in Hj. simpl in Hj. lia.
Qed.

End GetDevice.

Import Scenario.

Section ScenarioA.
Context {world : Type}.

(** C1.  With D1 and D2 both registered under the alias "modemA" and
    [profile={"modemA": {"mode": "bridge"}}], [get_device("modemA")]
    returns an instance of the class [D1_D2] that exposes [start],
    [stop] and [configure].  Both classes are primary matches, so the
    profile entry is skipped for each with a warning, and the recorded
    [target] is the configuration as passed: its only key is
    [profile], bound to the caller's dictionary, and it has no key
    [mode].  The store is left as it was. *)
Theorem scenario_A_target (init1 init2 : init_fn world)
    (m : device_manager world) (p q : loc) (s : state world)
    (d1 d2 : list (string * attr_val)) (w1 w2 w3 : world) :
  let kw := [("profile", p)] in
  let inst :=
    mk_instance "D1_D2" [D1_with init1; D2_with init2] d2 kw in
  st_heap s !! p = Some (ODict [("modemA", q)]) ->
  init1 [] "modemA" (Some (mgr_id m)) kw (st_world s) = (w1, Ok d1) ->
  init2 d1 "modemA" (Some (mgr_id m)) kw w1 = (w2, Ok d2) ->
  _add_device m inst None None w2 = (w3, Ok tt) ->
  get_device
    [("plugin.devices.modem", [D1_with init1; D2_with init2])]
    "modemA" (Some m) kw s
  = (mk_state (st_heap s) w3
       (st_log s ++ [SkippingDuplicate (AStr "modemA");
                     SkippingDuplicate (AStr "modemA")])
       (st_calls s ++ [1; 2]),
     Done inst)
  /\ exposes inst "start" = true
  /\ exposes inst "stop" = true
  /\ exposes inst "configure" = true
  /\ target inst = [("profile", p)]
  /\ dict_get "mode" (target inst) = None.
Proof.
  intros kw inst Hp H1 H2 H3.
  split; [|repeat split; unfold exposes; simpl;
            destruct (dict_get _ d2); reflexivity].
  rewrite get_device_eq.
  change (passthrough kw) with kw.
  change (override_of kw) with (@None loc).
  change (plugin_of kw) with (@None loc).
  unfold resolve, resolve_dev, dbind, read_dict, log. simpl.
  rewrite Hp. simpl. rewrite Hp. simpl.
  unfold try_except, try_block, call_bf_node, bf_node, dbind. simpl.
  unfold dbind, call_init. simpl. fold kw. rewrite H1. simpl.
  rewrite H2. simpl.
  unfold call_add_device. simpl.
  change ("D1" +:+ "_" +:+ "D2") with "D1_D2". fold inst. rewrite H3.
  rewrite <- !app_assoc. reflexivity.
Qed.

End ScenarioA.

Lemma scenario_A_target_witness :
  get_device [("plugin.devices.modem", [D1; D2])] "modemA" (Some manager)
    [("profile", 1%positive)] (start heap_A)
  = (mk_state heap_A tt
       [SkippingDuplicate (AStr "modemA"); SkippingDuplicate (AStr "modemA")]
       [1; 2],
     Done (mk_instance "D1_D2" [D1; D2] [] [("profile", 1%positive)])).
Proof.
  exact (proj1 (scenario_A_target init_ok init_ok manager 1%positive
                  2%positive (start heap_A) [] [] tt tt tt
                  eq_refl eq_refl eq_refl eq_refl)).
Defined.

(** C1, as worded, fails: the target recorded for Scenario A has no key
    [mode]; the value "bridge" is reachable only through the caller's
    own profile, under [profile] and then "modemA". *)
Lemma scenario_A_target_has_no_mode :
  exists inst s',
    get_device [("plugin.devices.modem", [D1; D2])] "modemA" (Some manager)
      [("profile", 1%positive)] (start heap_A) = (s', Done inst)
    /\ dict_get "mode" (target inst) = None
    /\ dict_keys (target inst) = ["profile"].
Proof.
  eexists _, _. split; [reflexivity|]. split; reflexivity.
Qed.

Lemma profile_keys_popped_in_place_witness :
  (exists pk', st_heap after_B !! 2%positive = Some (ODict pk')
               /\ ~ In "mode" (dict_keys pk')
               /\ forall k, In k (dict_keys pk') ->
                            In k (dict_keys [("mode", 3%positive);
                                             ("vlan", 4%positive)]))
  /\ st_heap after_B !! 1%positive = Some (ODict [("bridged", 2%positive)])
  /\ forall inst,
       Done (mk_instance "D1_Bridge" [D1; Bridge] []
               [("profile", 1%positive); ("mode", 5%positive);
                ("vlan", 4%positive)]) = Done inst ->
       dict_get "mode" (target inst) = dict_get "mode" kw_B.
Proof.
  apply (profile_keys_popped_in_place
           [("plugin.devices", [D1; Bridge])] "modemA" (Some manager)
           kw_B (start heap_B) after_B _ 1%positive 2%positive
           [("bridged", 2%positive)]
           [("mode", 3%positive); ("vlan", 4%positive)]
           Bridge (AStr "bridged") "bridged" "mode").
  - reflexivity.
  - reflexivity.
  - simpl. intros [H|[]]. discriminate H.
  - simpl. auto.
  - reflexivity.
  - reflexivity.
  - reflexivity.
  - reflexivity.
  - simpl. intros x [<-|[<-|[]]] H; [reflexivity|discriminate H].
  - simpl. auto.
  - simpl. auto.
  - discriminate.
  - discriminate.
  - reflexivity.
  - discriminate.
Defined.

Lemma shares_member_Refused : ~ shares_member ([Refused] ++ []).
Proof. apply shares_member_single. Qed.

Lemma get_device_initializer_raises_witness :
  get_device [("plugin.devices.refused", [Refused])] "modemA"
    (Some manager) [] (start heap_A)
  = (mk_state heap_A tt [] [8],
     Throw (mk_exn ConnectionRefused "connection refused")).
Proof.
  exact (proj1 (get_device_initializer_raises
                  [("plugin.devices.refused", [Refused])] "modemA"
                  (Some manager) [] (start heap_A) (start heap_A)
                  (mk_state heap_A tt [] [8]) [Refused] [] []
                  (mk_exn ConnectionRefused "connection refused")
                  eq_refl shares_member_Refused eq_refl eq_refl eq_refl)).
Defined.

(** C5, as worded, fails: an initializer that raises
    [ValueError("boom")] makes [get_device("modemA")] raise
    [Exception("boom")], whose text does not name the model. *)
Lemma other_exception_loses_model :
  get_device [("plugin.devices.broken", [Broken])] "modemA"
    (Some manager) [] (start heap_A)
  = (mk_state heap_A tt [] [7], Throw (mk_exn Exception "boom"))
  /\ str_contains "modemA" "boom" = false.
Proof. split; reflexivity. Qed.

Lemma ids_distinct_D1_D3 : List.NoDup (map cls_id [D1; D3]).
Proof.
  repeat constructor; simpl; intros H; decompose [or] H;
    try discriminate; contradiction.
Qed.

Lemma bf_node_conflict_witness :
  bf_node [D1; D3] "modemA" None [] (start heap_A)
  = (start heap_A, Throw (duplicate_members ["stop"] [D1; D3]))
  /\ exn_msg (duplicate_members ["stop"] [D1; D3])
     = "Identified duplicate class members ['stop'] between classes  [<class 'plugin.devices.modem.D1'>, <class 'plugin.devices.modem.D3'>]".
Proof.
  destruct (bf_node_conflict [D1; D3] "modemA" None [] (start heap_A)
              ids_distinct_D1_D3) as (_ & H & _).
  split; [|reflexivity].
  exact (proj1 (H ["stop"] [D1; D3] eq_refl)).
Defined.

(** Reserved names as the specification words them: names that start
    and end with a double underscore, and [model], [prompt],
    [profile]. *)
Definition reserved_as_worded (name : string) : bool :=
  (startswith name "__" && endswith name "__")
  || mem name ["model"; "prompt"; "profile"].

(** C2, as worded, fails twice.  [P] and [Q] both export [run__],
    which the wording does not reserve, and [bf_node] composes them
    without an error.  And for the list [D1; Bridge; D1], where the third
    class is the first again, the error lists [D1] only, not the classes
    up to the offending one: [index] finds the first occurrence. *)
Lemma trailing_underscores_unchecked :
  reserved_as_worded "run__" = false
  /\ In "run__" (dict_keys (cls_dict P))
  /\ In "run__" (dict_keys (cls_dict Q))
  /\ check_members [P; Q] [P; Q] [] [] = inr [P; Q]
  /\ bf_node [P; Q] "modemA" None [] (start heap_A)
     = (mk_state heap_A tt [] [5; 6],
        Done (mk_instance "P_Q" [P; Q] [] []))
  /\ check_members [D1; Bridge; D1] [D1; Bridge; D1] [] []
     = inl (["start"; "stop"], [D1]).
Proof.
  repeat split; try reflexivity; simpl; auto.
Qed.

End DevicesFacts.

(** ** The accessors of [EnvHelper] *)

Module EnvHelperAccessFacts.
Import Py EnvHelper EnvHelperAccess.

(** What a path of keys leads to through nested dictionaries; nothing
    when a key is missing or a value on the way is not a dictionary. *)
Fixpoint at_path (path : list string) (v : value) : option value :=
  match path with
  | [] => Some v
  | k :: path' =>
      match v with
      | VDict d =>
          match dict_get k d with
          | Some x => at_path path' x
          | None => None
          end
      | _ => None
      end
  end.

Definition software_path (key : string) : list string :=
  ["environment_def"; "board"; "software"; key].

(** The subscripts of the code, one after the other. *)
Fixpoint walk (path : list string) (v : value) : result value :=
  match path with
  | [] => Ok v
  | k :: path' => bind (getitem v k) (walk path')
  end.

Lemma bind_assoc {A B C} (r : result A) (f : A -> result B)
    (g : B -> result C) :
  bind (bind r f) g = bind r (fun a => bind (f a) g).
Proof. destruct r; reflexivity. Qed.

Lemma board_walk (self : env_helper_obj) :
  board self = bind (attr_env self) (walk ["environment_def"; "board"]).
Proof.
  unfold board. destruct (attr_env self) as [env|e]; [|reflexivity].
  cbn [bind walk]. destruct (getitem env "environment_def"); [|reflexivity].
  cbn [bind]. destruct (getitem a "board"); reflexivity.
Qed.

Lemma software_entry_walk (self : env_helper_obj) (key : string) :
  software_entry self key
  = bind (attr_env self) (walk (software_path key)).
Proof.
  unfold software_entry. rewrite board_walk, bind_assoc.
  destruct (attr_env self) as [env|e]; [|reflexivity].
  cbn [bind walk software_path].
  destruct (getitem env "environment_def") as [a|]; [|reflexivity].
  cbn [bind]. destruct (getitem a "board") as [b|]; [|reflexivity].
  cbn [bind]. destruct (getitem b "software") as [c|]; [|reflexivity].
  cbn [bind]. destruct (getitem c key); reflexivity.
Qed.

(** A walk ends well exactly when the path exists; otherwise it raises
    [KeyError] at a dictionary without the key and [TypeError] at a value
    that is not a dictionary. *)
Lemma walk_at_path (path : list string) (v : value) :
  match at_path path v with
  | Some x => walk path v = Ok x
  | None =>
      exists e, walk path v = Raise e
                /\ (exn_cls e = KeyError \/ exn_cls e = TypeError)
  end.
Proof.
  revert v. induction path as [|k path IH]; intros v; [reflexivity|].
  cbn [at_path walk].
  destruct v as [| | | | |d]; cbn [getitem bind raise];
    try (eexists; split; [reflexivity|right; reflexivity]).
  destruct (dict_get k d) as [x|].
  - cbn [bind]. apply IH.
  - eexists. split; [reflexivity|left; reflexivity].
Qed.

Lemma walk_ok (path : list string) (v x : value) :
  walk path v = Ok x <-> at_path path v = Some x.
Proof.
  pose proof (walk_at_path path v) as H.
  destruct (at_path path v) as [y|].
  - rewrite H. split; intros [= ->]; reflexivity.
  - destruct H as (e & -> & _). split; discriminate.
Qed.

Lemma except_key_attr_class {A} (body : result A) (e : exn) :
  except_key_attr body = Raise e ->
  e = BftEnvExcKeyError
  \/ (body = Raise e /\ exn_cls e <> KeyError
      /\ exn_cls e <> AttributeError).
Proof.
  destruct body as [a|[c msg]]; cbn; [discriminate|].
  destruct c; intros [= <-]; auto; right; repeat split; discriminate.
Qed.

Lemma attr_env_some (self : env_helper_obj) (env : value) :
  self_env self = Some env -> attr_env self = Ok env.
Proof. unfold attr_env. intros ->. reflexivity. Qed.

Lemma attr_mirror_some (self : env_helper_obj) (m : string) :
  self_mirror self = Some m -> attr_mirror self = Ok m.
Proof. unfold attr_mirror. intros ->. reflexivity. Qed.

(** X1.  [has_image] never raises, and answers [True] exactly when the
    instance has its two attributes and the environment leads through
    dictionaries to a string at
    [environment_def/board/software/image_uri]: an image given as
    anything but a string counts as no image. *)
Theorem has_image_iff (self : env_helper_obj) :
  (exists b, has_image self = Ok b)
  /\ (has_image self = Ok true <->
      exists env m uri,
        self_env self = Some env /\ self_mirror self = Some m
        /\ at_path (software_path "image_uri") env = Some (VStr uri)).
Proof.
  unfold has_image, get_image. rewrite software_entry_walk.
  unfold attr_mirror, attr_env.
  destruct (self_mirror self) as [m|]; cbn [bind raise].
  2:{ cbn. split; [eauto|]. split; [discriminate|].
      intros (env & m & uri & _ & H & _). discriminate H. }
  destruct (self_env self) as [env|]; cbn [bind raise].
  2:{ cbn. split; [eauto|]. split; [discriminate|].
      intros (env & m' & uri & H & _). discriminate H. }
  pose proof (walk_at_path (software_path "image_uri") env) as Hw.
  destruct (at_path (software_path "image_uri") env) as [x|] eqn:Hp.
  - rewrite Hw. cbn [bind].
    destruct x as [| | |uri| |];
      cbn [str_add raise except_key_attr try_true exn_cls];
      (split; [eauto|]);
      try (split; [discriminate|];
           intros (env' & m' & uri' & [= <-] & _ & H);
           rewrite Hp in H; discriminate H).
    split; [|reflexivity]. intros _. exists env, m, uri. auto.
  - destruct Hw as (e & -> & He). cbn [bind].
    assert (try_true (A := value) (except_key_attr (Raise e)) = Ok false)
      as ->.
    { destruct e as [c msg]. simpl in He. destruct He; subst c; reflexivity. }
    split; [eauto|]. split; [discriminate|].
    intros (env' & m' & uri' & [= <-] & _ & H).
    rewrite Hp in H. discriminate H.
Qed.

Lemma get_image_plain (self : env_helper_obj) (uri : value) :
  get_image self false = Ok uri <->
  exists env, self_env self = Some env
              /\ at_path (software_path "image_uri") env = Some uri.
Proof.
  unfold get_image. rewrite software_entry_walk.
  unfold attr_env. destruct (self_env self) as [env|]; cbn [bind raise].
  - pose proof (walk_at_path (software_path "image_uri") env) as Hw.
    destruct (at_path (software_path "image_uri") env) as [x|] eqn:Hp.
    + rewrite Hw. cbn [except_key_attr]. split.
      * intros [= ->]. eauto.
      * intros (env' & [= <-] & H). rewrite Hp in H.
        injection H as ->. reflexivity.
    + destruct Hw as (e & -> & He). split.
      * intros H. exfalso. destruct e as [c msg]. simpl in He.
        destruct He; subst c; discriminate H.
      * intros (env' & [= <-] & H). rewrite Hp in H. discriminate H.
  - cbn. split; [discriminate|]. intros (env & H & _). discriminate H.
Qed.

Lemma get_image_prefixed (self : env_helper_obj) (m uri : string) :
  self_mirror self = Some m ->
  get_image self false = Ok (VStr uri) ->
  get_image self true = Ok (VStr (m +:+ uri)).
Proof.
  intros Hm H. apply get_image_plain in H as (env & He & Hp).
  unfold get_image. rewrite software_entry_walk.
  rewrite (attr_mirror_some _ _ Hm), (attr_env_some _ _ He).
  cbn [bind]. apply walk_ok in Hp. rewrite Hp. reflexivity.
Qed.

(** X2.  [get_image] raises nothing but [BftEnvExcKeyError] and
    [TypeError]; without the mirror it returns what the path
    [environment_def/board/software/image_uri] leads to, and nothing when
    the path does not exist; with the mirror it returns the mirror
    followed by that string; a [software] dictionary without [image_uri]
    gives [BftEnvExcKeyError] whatever the flag. *)
Theorem get_image_outcomes (self : env_helper_obj) :
  (forall flag e, get_image self flag = Raise e ->
     e = BftEnvExcKeyError \/ exn_cls e = TypeError)
  /\ (forall uri, get_image self false = Ok uri <->
        exists env, self_env self = Some env
                    /\ at_path (software_path "image_uri") env = Some uri)
  /\ (forall m uri, self_mirror self = Some m ->
        get_image self false = Ok (VStr uri) ->
        get_image self true = Ok (VStr (m +:+ uri)))
  /\ (forall env software flag,
        self_env self = Some env ->
        at_path ["environment_def"; "board"; "software"] env
        = Some (VDict software) ->
        dict_get "image_uri" software = None ->
        get_image self flag = Raise BftEnvExcKeyError).
Proof.
  split; [|split; [exact (get_image_plain self)|split]].
  - intros flag e H. unfold get_image in H.
    apply except_key_attr_class in H as [H|(H & Hk & Ha)]; [auto|].
    right. rewrite software_entry_walk in H.
    assert (forall x, bind (attr_env self)
                        (walk (software_path "image_uri")) = Raise x ->
                      exn_cls x = KeyError \/ exn_cls x = TypeError
                      \/ exn_cls x = AttributeError) as Hwalk.
    { intros x Hx. unfold attr_env in Hx.
      destruct (self_env self) as [env|]; cbn [bind raise] in Hx.
      - pose proof (walk_at_path (software_path "image_uri") env) as Hw.
        destruct (at_path _ env).
        + rewrite Hw in Hx. discriminate Hx.
        + destruct Hw as (e' & Hw & He'). rewrite Hw in Hx.
          injection Hx as <-. tauto.
      - injection Hx as <-. auto. }
    destruct flag.
    + unfold attr_mirror in H.
      destruct (self_mirror self) as [m|]; cbn [bind raise] in H.
      * destruct (bind (attr_env self) _) as [x|x] eqn:Ex.
        -- cbn [bind] in H. destruct x; cbn in H; try discriminate H;
             injection H as <-; reflexivity.
        -- cbn [bind] in H. injection H as <-.
           destruct (Hwalk _ eq_refl) as [?|[?|?]]; tauto.
      * injection H as <-. exfalso. apply Ha. reflexivity.
    + destruct (Hwalk _ H) as [?|[?|?]]; tauto.
  - exact (get_image_prefixed self).
  - intros env software flag He Hp Hk.
    assert (software_entry self "image_uri"
            = Raise (mk_exn KeyError "'image_uri'")) as Hs.
    { rewrite software_entry_walk, (attr_env_some _ _ He). cbn [bind].
      unfold software_path. cbn [at_path walk] in Hp |- *.
      destruct env as [| | | | |d1]; try discriminate Hp.
      cbn [getitem]. destruct (dict_get "environment_def" d1) as [v1|];
        [|discriminate Hp].
      cbn [bind]. destruct v1 as [| | | | |d2]; try discriminate Hp.
      cbn [getitem]. destruct (dict_get "board" d2) as [v2|];
        [|discriminate Hp].
      cbn [bind]. destruct v2 as [| | | | |d3]; try discriminate Hp.
      cbn [getitem]. destruct (dict_get "software" d3) as [v3|];
        [|discriminate Hp].
      injection Hp as ->. cbn [bind getitem]. rewrite Hk. reflexivity. }
    unfold get_image. rewrite Hs. destruct flag; [|reflexivity].
    unfold attr_mirror. destruct (self_mirror self); reflexivity.
Qed.

(** X3.  When [upgrade_images] (or [downgrade_images]) is a list, the
    getter returns its first element; on the empty list it raises the
    builtin [IndexError], which the [except] clause does not turn into
    [BftEnvExcKeyError], and the matching [has_...] answers [False]. *)
Theorem image_lists (self : env_helper_obj) (env : value) :
  self_env self = Some env ->
  (forall l, at_path (software_path "upgrade_images") env = Some (VList l) ->
     get_upgrade_image self
     = match l with
       | x :: _ => Ok x
       | [] => Raise (mk_exn IndexError "list index out of range")
       end
     /\ has_upgrade_image self = Ok (negb (Nat.eqb (length l) 0)))
  /\ (forall l,
        at_path (software_path "downgrade_images") env = Some (VList l) ->
        get_downgrade_image self
        = match l with
          | x :: _ => Ok x
          | [] => Raise (mk_exn IndexError "list index out of range")
          end
        /\ has_downgrade_image self = Ok (negb (Nat.eqb (length l) 0))).
Proof.
  intros He.
  split; intros l Hp; apply walk_ok in Hp;
    unfold has_upgrade_image, get_upgrade_image, has_downgrade_image,
      get_downgrade_image;
    rewrite software_entry_walk, (attr_env_some _ _ He); cbn [bind];
    rewrite Hp; destruct l; split; reflexivity.
Qed.

(** The environment the documentation of [EnvHelper] gives as an
    example, and the instance [__init__] builds from it with a mirror. *)
Definition example_env : value :=
  VDict [("environment_def",
          VDict [("board",
                  VDict [("software",
                          VDict [("bootloader_image", VStr "none");
                                 ("downgrade_images",
                                  VList [VStr "image.bin"]);
                                 ("load_image", VStr "image.bin");
                                 ("upgrade_images",
                                  VList [VStr "image.bin"])])])]);
         ("version", VStr "1.0")].

Definition example_self : env_helper_obj :=
  mk_env_helper (Some example_env) (Some "http://mirror/").

Lemma image_lists_witness :
  get_upgrade_image example_self = Ok (VStr "image.bin")
  /\ has_downgrade_image example_self = Ok true.
Proof.
  pose proof (image_lists example_self example_env eq_refl) as [Hu Hd].
  split.
  - exact (proj1 (Hu [VStr "image.bin"] eq_refl)).
  - exact (proj2 (Hd [VStr "image.bin"] eq_refl)).
Defined.

Section FormattingFacts.
Variable str_of : value -> string.

(** What [get_software] stores for an item of [software]. *)
Definition with_mirror (m : string) (kv : string * value)
    : string * value :=
  (kv.1,
   if Devices.mem kv.1 ["load_image"; "image_uri"]
   then VStr (m +:+ str_of kv.2) else kv.2).

Definition not_dependent (kv : string * value) : bool :=
  negb (String.eqb kv.1 "dependent_software").

Lemma dict_set_fresh {A} (k : string) (v : A) (d : list (string * A)) :
  ~ In k (dict_keys d) -> Devices.dict_set k v d = d ++ [(k, v)].
Proof.
  induction d as [|[k' v'] d IH]; intros H; simpl; [reflexivity|].
  simpl in H. destruct (String.eqb k k') eqn:E.
  - apply String.eqb_eq in E. subst. tauto.
  - rewrite IH by tauto. reflexivity.
Qed.

Lemma get_software_loop_spec (self : env_helper_obj) (m : string)
    (sw out : list (string * value)) :
  self_mirror self = Some m ->
  List.NoDup (dict_keys sw) ->
  (forall k, In k (dict_keys sw) -> ~ In k (dict_keys out)) ->
  get_software_loop str_of self sw out
  = Ok (out ++ map (with_mirror m) (List.filter not_dependent sw)).
Proof.
  intros Hm. revert out.
  induction sw as [|[k v] sw IH]; intros out Hnd Hout; cbn [get_software_loop].
  - simpl. rewrite app_nil_r. reflexivity.
  - simpl in Hnd. apply NoDup_cons_iff in Hnd as [Hk Hnd].
    assert (~ In k (dict_keys out)) as Hko by (apply Hout; left; reflexivity).
    assert (forall v', forall k0, In k0 (dict_keys sw) ->
              ~ In k0 (dict_keys (out ++ [(k, v')]))) as Hout'.
    { intros v' k0 Hk0. unfold dict_keys. rewrite map_app, in_app_iff.
      simpl. intros [H|[H|[]]].
      - apply (Hout k0); [right; exact Hk0|exact H].
      - subst. tauto. }
    cbn [List.filter]. unfold not_dependent at 1. cbn [fst].
    destruct (String.eqb k "dependent_software"); cbn [negb].
    + apply IH; [exact Hnd|]. intros k0 Hk0. apply Hout. right. exact Hk0.
    + cbn [map]. unfold with_mirror at 1. cbn [fst snd].
      rewrite (attr_mirror_some _ _ Hm).
      destruct (Devices.mem k ["load_image"; "image_uri"]); cbn [bind];
        rewrite dict_set_fresh by exact Hko;
        rewrite IH by auto; rewrite <- app_assoc; reflexivity.
Qed.

Lemma get_dependent_software_loop_spec (self : env_helper_obj)
    (m : string) (sw out : list (string * value)) :
  self_mirror self = Some m ->
  List.NoDup (dict_keys sw) ->
  (forall k, In k (dict_keys sw) -> ~ In k (dict_keys out)) ->
  get_dependent_software_loop str_of self sw out
  = Ok (out ++ map (with_mirror m) sw).
Proof.
  intros Hm. revert out.
  induction sw as [|[k v] sw IH]; intros out Hnd Hout;
    cbn [get_dependent_software_loop].
  - simpl. rewrite app_nil_r. reflexivity.
  - simpl in Hnd. apply NoDup_cons_iff in Hnd as [Hk Hnd].
    assert (~ In k (dict_keys out)) as Hko by (apply Hout; left; reflexivity).
    assert (forall v', forall k0, In k0 (dict_keys sw) ->
              ~ In k0 (dict_keys (out ++ [(k, v')]))) as Hout'.
    { intros v' k0 Hk0. unfold dict_keys. rewrite map_app, in_app_iff.
      simpl. intros [H|[H|[]]].
      - apply (Hout k0); [right; exact Hk0|exact H].
      - subst. tauto. }
    cbn [map]. unfold with_mirror at 1. cbn [fst snd].
    rewrite (attr_mirror_some _ _ Hm).
    destruct (Devices.mem k ["load_image"; "image_uri"]); cbn [bind];
      rewrite dict_set_fresh by exact Hko;
      rewrite IH by auto; rewrite <- app_assoc; reflexivity.
Qed.

Lemma board_at_path (self : env_helper_obj) (env b : value) :
  self_env self = Some env ->
  at_path ["environment_def"; "board"] env = Some b ->
  board self = Ok b.
Proof.
  intros He Hp. rewrite board_walk, (attr_env_some _ _ He). cbn [bind].
  apply walk_ok. exact Hp.
Qed.

(** X4.  [get_software] returns the items of [software] in their order,
    without [dependent_software]; the values under [load_image] and
    [image_uri] are replaced by the mirror followed by their text, the
    others are returned as they are. *)
Theorem get_software_items (self : env_helper_obj) (env : value)
    (m : string) (b sw : list (string * value)) :
  self_env self = Some env ->
  self_mirror self = Some m ->
  at_path ["environment_def"; "board"] env = Some (VDict b) ->
  dict_get "software" b = Some (VDict sw) ->
  List.NoDup (dict_keys sw) ->
  get_software str_of self
  = Ok (map (with_mirror m) (List.filter not_dependent sw)).
Proof.
  intros He Hm Hb Hsw Hnd. unfold get_software.
  rewrite (board_at_path _ _ _ He Hb). cbn [bind get_or_empty].
  rewrite Hsw. cbn [bind items].
  rewrite (get_software_loop_spec self m sw [] Hm Hnd); [reflexivity|].
  intros k _ [].
Qed.

(** X5.  [get_dependent_software] returns every item of
    [software/dependent_software] in order, with the same treatment of
    [load_image] and [image_uri]; a [dependent_software] key inside is
    not skipped.  Without a [dependent_software] key the result is
    empty. *)
Theorem get_dependent_software_items (self : env_helper_obj) (env : value)
    (m : string) (b sw : list (string * value)) :
  self_env self = Some env ->
  self_mirror self = Some m ->
  at_path ["environment_def"; "board"] env = Some (VDict b) ->
  dict_get "software" b = Some (VDict sw) ->
  (dict_get "dependent_software" sw = None ->
   get_dependent_software str_of self = Ok [])
  /\ (forall dep, dict_get "dependent_software" sw = Some (VDict dep) ->
        List.NoDup (dict_keys dep) ->
        get_dependent_software str_of self = Ok (map (with_mirror m) dep)).
Proof.
  intros He Hm Hb Hsw. unfold get_dependent_software.
  rewrite (board_at_path _ _ _ He Hb). cbn [bind get_or_empty].
  rewrite Hsw. cbn [bind get_or_empty]. split.
  - intros ->. reflexivity.
  - intros dep -> Hnd. cbn [bind items].
    rewrite (get_dependent_software_loop_spec self m dep [] Hm Hnd);
      [reflexivity|].
    intros k _ [].
Qed.

Lemma get_flash_strategy_loop_spec (sw out : list (string * value)) :
  List.NoDup (dict_keys sw) ->
  get_flash_strategy_loop str_of sw out
  = match dict_get "flash_strategy" sw with
    | Some v => Devices.dict_set "flash_strategy" (VStr (str_of v)) out
    | None => out
    end.
Proof.
  revert out. induction sw as [|[k v] sw IH]; intros out Hnd; [reflexivity|].
  simpl in Hnd. apply NoDup_cons_iff in Hnd as [Hk Hnd].
  cbn [get_flash_strategy_loop dict_get].
  destruct (String.eqb k "dependent_software") eqn:Ed.
  - apply String.eqb_eq in Ed. subst k. cbn. apply IH. exact Hnd.
  - rewrite (String.eqb_sym "flash_strategy" k).
    destruct (String.eqb k "flash_strategy") eqn:Ef.
    + apply String.eqb_eq in Ef. subst k. rewrite IH by exact Hnd.
      apply DevicesFacts.dict_get_None in Hk. rewrite Hk. reflexivity.
    + apply IH. exact Hnd.
Qed.

(** X6.  [get_flash_strategy] returns at most one item: the text of
    what [software] holds under [flash_strategy], as a string whatever
    its type was, and never with the mirror in front. *)
Theorem get_flash_strategy_items (self : env_helper_obj) (env : value)
    (b sw : list (string * value)) :
  self_env self = Some env ->
  at_path ["environment_def"; "board"] env = Some (VDict b) ->
  dict_get "software" b = Some (VDict sw) ->
  List.NoDup (dict_keys sw) ->
  get_flash_strategy str_of self
  = Ok match dict_get "flash_strategy" sw with
       | Some v => [("flash_strategy", VStr (str_of v))]
       | None => []
       end.
Proof.
  intros He Hb Hsw Hnd. unfold get_flash_strategy.
  rewrite (board_at_path _ _ _ He Hb). cbn [bind get_or_empty].
  rewrite Hsw. cbn [bind items].
  rewrite (get_flash_strategy_loop_spec sw [] Hnd).
  destruct (dict_get "flash_strategy" sw); reflexivity.
Qed.

(** X7.  A board without [software] gives three empty dictionaries,
    where [get_image] raises [BftEnvExcKeyError]; an environment without
    [environment_def] makes the three raise the [KeyError] of the
    subscript, which they do not catch; a [software] that is not a
    dictionary makes them raise [AttributeError]. *)
Theorem software_getters_edges (self : env_helper_obj) (env : value) :
  self_env self = Some env ->
  (forall b, at_path ["environment_def"; "board"] env = Some (VDict b) ->
     dict_get "software" b = None ->
     get_software str_of self = Ok []
     /\ get_dependent_software str_of self = Ok []
     /\ get_flash_strategy str_of self = Ok []
     /\ get_image self false = Raise BftEnvExcKeyError)
  /\ (forall d, env = VDict d -> dict_get "environment_def" d = None ->
        get_software str_of self
        = Raise (mk_exn KeyError "'environment_def'")
        /\ get_dependent_software str_of self
           = Raise (mk_exn KeyError "'environment_def'")
        /\ get_flash_strategy str_of self
           = Raise (mk_exn KeyError "'environment_def'")
        /\ get_image self false = Raise BftEnvExcKeyError)
  /\ (forall b x, at_path ["environment_def"; "board"] env = Some (VDict b) ->
        dict_get "software" b = Some x ->
        match x with VDict _ => False | _ => True end ->
        exists msg,
          get_software str_of self = Raise (mk_exn AttributeError msg)
          /\ get_flash_strategy str_of self
             = Raise (mk_exn AttributeError msg)).
Proof.
  intros He. split; [|split].
  - intros b Hb Hsw.
    unfold get_software, get_dependent_software, get_flash_strategy,
      get_image, software_entry.
    rewrite (board_at_path _ _ _ He Hb). cbn [bind get_or_empty getitem].
    rewrite Hsw. repeat split; reflexivity.
  - intros d -> Hd.
    unfold get_software, get_dependent_software, get_flash_strategy,
      get_image, software_entry, board.
    rewrite (attr_env_some _ _ He). cbn [bind getitem]. rewrite Hd.
    repeat split; reflexivity.
  - intros b x Hb Hsw Hx.
    unfold get_software, get_flash_strategy.
    rewrite (board_at_path _ _ _ He Hb). cbn [bind get_or_empty].
    rewrite Hsw. destruct x; try contradiction; eexists; split; reflexivity.
Qed.

(** X25.  An instance built with [env] being [None] has neither
    attribute: the [has_...] methods answer [False], [get_image] raises
    [BftEnvExcKeyError], and [get_software] and [env_check] raise
    [AttributeError].  An instance built from an environment holds it,
    and [get_image] with the mirror returns the mirror given to
    [__init__], if any, followed by the image. *)
Theorem init_then_accessors (env : value) (mirror : option string)
    (self : env_helper_obj) :
  __init__ env mirror = Ok self ->
  match env with
  | VNone =>
      get_image self true = Raise BftEnvExcKeyError
      /\ has_image self = Ok false
      /\ has_upgrade_image self = Ok false
      /\ has_downgrade_image self = Ok false
      /\ (exists msg,
            get_software str_of self = Raise (mk_exn AttributeError msg))
      /\ forall test_environment, exists msg,
           env_check self test_environment
           = Raise (mk_exn AttributeError msg)
  | _ =>
      self_env self = Some env
      /\ forall uri,
           get_image self false = Ok (VStr uri) ->
           get_image self true
           = Ok (VStr (match mirror with Some m => m | None => "" end
                       +:+ uri))
  end.
Proof.
  intros H.
  assert (forall d,
            bind (getitem env "version") (fun version =>
              if list_contains (map VStr supported_versions) version
              then Ok (mk_env_helper (Some env)
                         (Some (match mirror with
                                | Some m => if String.eqb m "" then "" else m
                                | None => ""
                                end)))
              else raise AssertionError d) = Ok self ->
            self_env self = Some env
            /\ forall uri,
                 get_image self false = Ok (VStr uri) ->
                 get_image self true
                 = Ok (VStr (match mirror with Some m => m | None => "" end
                             +:+ uri))) as Hbuilt.
  { intros d Hb. destruct (getitem env "version") as [version|];
      [|discriminate Hb].
    cbn [bind] in Hb.
    destruct (list_contains _ version); [|discriminate Hb].
    injection Hb as <-. split; [reflexivity|].
    intros uri Hu. apply get_image_prefixed; [|exact Hu].
    cbn [self_mirror]. f_equal. destruct mirror as [m|]; [|reflexivity].
    destruct (String.eqb m "") eqn:E; [|reflexivity].
    apply String.eqb_eq in E. congruence. }
  destruct env; try (apply (Hbuilt _ H)); try discriminate H.
  injection H as <-.
  repeat split; try reflexivity; try (eexists; reflexivity).
Qed.

End FormattingFacts.

(** The text of a string is the string; other values are not needed
    below. *)
Definition text_of (v : value) : string :=
  match v with
  | VStr s => s
  | _ => ""
  end.

Lemma get_software_items_witness :
  get_software text_of example_self
  = Ok [("bootloader_image", VStr "none");
        ("downgrade_images", VList [VStr "image.bin"]);
        ("load_image", VStr "http://mirror/image.bin");
        ("upgrade_images", VList [VStr "image.bin"])].
Proof.
  refine (get_software_items text_of example_self example_env
            "http://mirror/" _ _ eq_refl eq_refl eq_refl eq_refl _).
  repeat constructor; simpl; intuition discriminate.
Defined.

Definition dependent_env : value :=
  VDict [("environment_def",
          VDict [("board",
                  VDict [("software",
                          VDict [("image_uri", VStr "a.bin");
                                 ("flash_strategy", VInt 2);
                                 ("dependent_software",
                                  VDict [("image_uri", VStr "b.bin");
                                         ("dependent_software",
                                          VDict [])])])])])].

Definition dependent_self : env_helper_obj :=
  mk_env_helper (Some dependent_env) (Some "m/").

Lemma get_dependent_software_items_witness :
  get_dependent_software text_of dependent_self
  = Ok [("image_uri", VStr "m/b.bin"); ("dependent_software", VDict [])].
Proof.
  refine (proj2 (get_dependent_software_items text_of dependent_self
                   dependent_env "m/" _ _ eq_refl eq_refl eq_refl eq_refl)
            _ eq_refl _).
  repeat constructor; simpl; intuition discriminate.
Defined.

Lemma get_flash_strategy_items_witness :
  get_flash_strategy (fun _ => "2") dependent_self
  = Ok [("flash_strategy", VStr "2")].
Proof.
  refine (get_flash_strategy_items (fun _ => "2") dependent_self
            dependent_env _ _ eq_refl eq_refl eq_refl _).
  repeat constructor; simpl; intuition discriminate.
Defined.

Lemma init_then_accessors_witness :
  has_image (mk_env_helper None None) = Ok false.
Proof.
  exact (proj1 (proj2 (init_then_accessors text_of VNone (Some "m/")
                         (mk_env_helper None None) eq_refl))).
Defined.

Lemma software_getters_edges_witness :
  get_software text_of
    (mk_env_helper (Some (VDict [("version", VStr "1.0")])) (Some ""))
  = Raise (mk_exn KeyError "'environment_def'").
Proof.
  pose proof (software_getters_edges text_of
                (mk_env_helper (Some (VDict [("version", VStr "1.0")]))
                   (Some ""))
                (VDict [("version", VStr "1.0")]) eq_refl) as (_ & H & _).
  exact (proj1 (H [("version", VStr "1.0")] eq_refl eq_refl)).
Defined.

End EnvHelperAccessFacts.

(** ** [EnvHelper.env_devices] and [EnvHelper.env_check] *)

Module EnvDevicesFacts.
Import Py EnvHelper EnvHelperAccess EnvHelperRefinement.

(** The loop of [find_device_arrays] over the items of a dictionary, by
    itself. *)
Definition for_items
    : list (string * value) -> list (string * list value)
      -> list (string * list value) :=
  fix for_items (d : list (string * value))
      (devices : list (string * list value)) {struct d} :=
    match d with
    | [] => devices
    | (k, v) :: d' =>
        for_items d'
          match v with
          | VDict _ =>
              find_device_arrays v
                (if is_device v then Devices.dict_set k [v] devices
                 else devices)
          | VList l =>
              if forallb is_device l then Devices.dict_set k l devices
              else devices
          | _ => devices
          end
    end.

Lemma find_device_arrays_dict (d : list (string * value))
    (devices : list (string * list value)) :
  find_device_arrays (VDict d) devices = for_items d devices.
Proof. reflexivity. Qed.

Lemma dict_set_In_inv {A} (k k' : string) (v v' : A)
    (d : list (string * A)) :
  In (k', v') (Devices.dict_set k v d) ->
  (k' = k /\ v' = v) \/ In (k', v') d.
Proof.
  induction d as [|[k0 v0] d IH]; simpl.
  - intros [[= <- <-]|[]]. auto.
  - destruct (String.eqb k k0).
    + intros [[= <- <-]|H]; auto.
    + intros [H|H]; [auto|]. destruct (IH H); auto.
Qed.

Lemma dict_set_keys {A} (k : string) (v : A) (d : list (string * A)) :
  dict_keys (Devices.dict_set k v d)
  = if Devices.mem k (dict_keys d) then dict_keys d
    else dict_keys d ++ [k].
Proof.
  induction d as [|[k0 v0] d IH]; [reflexivity|].
  cbn [Devices.dict_set dict_keys map fst Devices.mem existsb].
  destruct (String.eqb k k0) eqn:E.
  - apply String.eqb_eq in E. subst. reflexivity.
  - cbn [orb map fst]. fold (dict_keys d).
    fold (dict_keys (Devices.dict_set k v d)). rewrite IH.
    fold (Devices.mem k (dict_keys d)).
    destruct (Devices.mem k (dict_keys d)); reflexivity.
Qed.

Lemma dict_set_keys_In {A} (k k' : string) (v : A) (d : list (string * A)) :
  In k' (dict_keys (Devices.dict_set k v d)) <-> k' = k \/ In k' (dict_keys d).
Proof.
  rewrite dict_set_keys. destruct (Devices.mem k (dict_keys d)) eqn:E.
  - apply DevicesFacts.mem_In in E. intuition (subst; auto).
  - rewrite in_app_iff. simpl. intuition (subst; auto).
Qed.

Lemma dict_set_keys_NoDup {A} (k : string) (v : A) (d : list (string * A)) :
  List.NoDup (dict_keys d) -> List.NoDup (dict_keys (Devices.dict_set k v d)).
Proof.
  intros H. rewrite dict_set_keys.
  destruct (Devices.mem k (dict_keys d)) eqn:E; [exact H|].
  apply DevicesFacts.mem_false in E.
  apply NoDup_ListNoDup, NoDup_app. repeat split.
  - apply NoDup_ListNoDup. exact H.
  - intros x Hx Hx'. apply list_elem_of_In in Hx, Hx'.
    destruct Hx' as [->|[]]. auto.
  - apply NoDup_singleton.
Qed.

(** What [env_devices] keeps true of [devices]: no key twice, and
    under every key a list of dictionaries that have [device_type]. *)
Definition device_arrays (devices : list (string * list value)) : Prop :=
  List.NoDup (dict_keys devices)
  /\ forall k l, In (k, l) devices ->
                 Forall (fun obj => is_device obj = true) l.

Lemma device_arrays_set (k : string) (l : list value)
    (devices : list (string * list value)) :
  forallb is_device l = true ->
  device_arrays devices -> device_arrays (Devices.dict_set k l devices).
Proof.
  intros Hl [Hnd Hall]. split; [apply dict_set_keys_NoDup; exact Hnd|].
  intros k' l' Hin. apply dict_set_In_inv in Hin as [[_ ->]|Hin].
  - apply Forall_forall. intros x Hx. apply list_elem_of_In in Hx.
    rewrite forallb_forall in Hl. auto.
  - eauto.
Qed.

Lemma find_device_arrays_inv (v : value)
    (devices : list (string * list value)) :
  (device_arrays devices -> device_arrays (find_device_arrays v devices))
  /\ (forall k, In k (dict_keys devices) ->
                In k (dict_keys (find_device_arrays v devices))).
Proof.
  remember (size v) as n eqn:Hn. revert v Hn devices.
  induction n as [n IH] using lt_wf_ind. intros v -> devices.
  destruct v as [| | | | |d]; try (split; auto; fail).
  rewrite find_device_arrays_dict.
  assert (forall its,
            (forall k x, In (k, x) its -> In (k, x) d) ->
            forall devices,
              (device_arrays devices ->
               device_arrays (for_items its devices))
              /\ (forall k, In k (dict_keys devices) ->
                            In k (dict_keys (for_items its devices))))
    as Hall.
  { induction its as [|[k x] its IHi]; intros Hsub devs; [split; auto|].
    cbn [for_items].
    assert (forall k' x', In (k', x') its -> In (k', x') d) as Hsub'
      by (intros; apply Hsub; right; assumption).
    specialize (IHi Hsub').
    pose proof (Hsub k x (or_introl eq_refl)) as Hin.
    destruct x as [| | | |l|e]; try apply IHi.
    - destruct (forallb is_device l) eqn:El; [|apply IHi].
      split.
      + intros Hd. apply IHi. apply device_arrays_set; assumption.
      + intros k' Hk'. apply IHi. apply dict_set_keys_In. auto.
    - assert (size (VDict e) < size (VDict d)) as Hlt
        by (eapply size_dict_In; exact Hin).
      split.
      + intros Hd. apply IHi. apply (IH _ Hlt _ eq_refl).
        destruct (is_device (VDict e)) eqn:Ee; [|exact Hd].
        apply device_arrays_set; [|exact Hd].
        cbn [forallb]. rewrite Ee. reflexivity.
      + intros k' Hk'. apply IHi. apply (IH _ Hlt _ eq_refl).
        destruct (is_device (VDict e)); [|exact Hk'].
        apply dict_set_keys_In. auto. }
  apply Hall. auto.
Qed.

Lemma for_items_reports (d : list (string * value)) (k : string)
    (devices : list (string * list value)) :
  (exists x, In (k, x) d
             /\ match x with
                | VDict _ => is_device x = true
                | VList l => forallb is_device l = true
                | _ => False
                end) ->
  In k (dict_keys (for_items d devices)).
Proof.
  revert devices. induction d as [|[k0 x0] d IH]; intros devices (x & Hin & Hx).
  - destruct Hin.
  - cbn [for_items]. destruct Hin as [[= -> ->]|Hin].
    + change (for_items d ?a) with (find_device_arrays (VDict d) a).
      apply find_device_arrays_inv.
      destruct x as [| | | |l|e]; try contradiction.
      * rewrite Hx. apply dict_set_keys_In. auto.
      * apply find_device_arrays_inv. rewrite Hx.
        apply dict_set_keys_In. auto.
    + apply IH. eauto.
Qed.

(** X8.  Whatever [env_devices] reports is a dictionary of device
    arrays: every value is a list, and each of its elements is a
    dictionary with a [device_type] key.  A key of the given dictionary
    that holds such a dictionary, or a list of them, is reported; so is
    one that holds the empty list. *)
Theorem env_devices_arrays (env_json : value)
    (devices : list (string * list value)) :
  env_devices env_json = Ok devices ->
  device_arrays devices
  /\ (forall d k x, env_json = VDict d -> In (k, x) d ->
        match x with
        | VDict _ => is_device x = true
        | VList l => forallb is_device l = true
        | _ => False
        end ->
        In k (dict_keys devices)).
Proof.
  intros H. destruct env_json as [| | | | |d]; try discriminate H.
  injection H as <-. split.
  - apply (proj1 (find_device_arrays_inv (VDict d) [])).
    split; [constructor|]. intros k l [].
  - intros d' k x [= <-] Hin Hx.
    apply (for_items_reports d k []). eauto.
Qed.

(** An environment with two arrays, one of them nested and one empty,
    and a list that is not a device array. *)
Definition devices_env : value :=
  VDict [("environment_def",
          VDict [("board",
                  VDict [("device_type", VStr "mv1");
                         ("lan_clients",
                          VList [VDict [("device_type", VStr "lan")]])]);
                 ("tftp", VList [])]);
         ("versions", VList [VStr "1.0"])].

Lemma env_devices_arrays_witness :
  device_arrays
    [("board",
      [VDict [("device_type", VStr "mv1");
              ("lan_clients", VList [VDict [("device_type", VStr "lan")]])]]);
     ("lan_clients", [VDict [("device_type", VStr "lan")]]);
     ("tftp", [])].
Proof.
  exact (proj1 (env_devices_arrays devices_env _ eq_refl)).
Defined.

End EnvDevicesFacts.

(** ** More on [contained] and [env_check] *)

Module EnvCheckFacts.
Import Py EnvHelper EnvHelperFacts EnvHelperRefinement EnvHelperReflexivity.

(** X9.  [env_check] returns [True] or raises, never [False]; asked
    for the very environment the instance holds, it returns [True] when
    that environment has no dictionary with a key twice and its lists,
    as far as dictionaries lead to them, are not empty and have their
    maps first. *)
Theorem env_check_own_environment (self : env_helper_obj) (env : value) :
  self_env self = Some env ->
  wf_deep env -> lists_ok env ->
  env_check self env = Ok true
  /\ forall test_environment b,
       env_check self test_environment = Ok b -> b = true.
Proof.
  intros He Hwf Hok. unfold env_check. rewrite He. split.
  - rewrite (contained_reflexive env "root" Hwf Hok). reflexivity.
  - intros t b H. destruct (contained t env "root") as [[|]|e];
      cbn in H; try discriminate H. injection H as <-. reflexivity.
Qed.

Lemma env_check_own_environment_witness :
  env_check EnvHelperAccessFacts.example_self
    EnvHelperAccessFacts.example_env = Ok true.
Proof.
  refine (proj1 (env_check_own_environment
                   EnvHelperAccessFacts.example_self
                   EnvHelperAccessFacts.example_env eq_refl _ _)).
  - simpl. repeat split; repeat constructor; simpl; intuition discriminate.
  - simpl. repeat split; discriminate.
Defined.

(** X10.  Against an available dictionary, a required dictionary is
    looked up key by key: two available dictionaries that agree under
    the required keys get the same answer, so keys the requirement does
    not name never matter. *)
Theorem contained_ignores_other_keys (R A A' : list (string * value))
    (path : string) :
  (forall k, In k (dict_keys R) -> dict_get k A = dict_get k A') ->
  contained (VDict R) (VDict A) path = contained (VDict R) (VDict A') path.
Proof.
  rewrite !contained_dict.
  induction R as [|[k sub] R IH]; intros H; [reflexivity|].
  cbn [pure_for_k key_in getitem].
  rewrite <- (H k) by (left; reflexivity).
  destruct (dict_get k A) as [x|]; cbn [bind negb]; [|reflexivity].
  destruct (contained sub x (path +:+ "->" +:+ k)) as [[|]|e];
    cbn [bind negb]; try reflexivity.
  apply IH. intros k' Hk'. apply H. right. exact Hk'.
Qed.

Lemma contained_ignores_other_keys_witness :
  contained (VDict [("board", VNone)])
    (VDict [("board", VStr "mv1")]) "root"
  = contained (VDict [("board", VNone)])
      (VDict [("wifi", VBool true); ("board", VStr "mv1")]) "root".
Proof.
  apply (contained_ignores_other_keys [("board", VNone)]).
  intros k [<-|[]]. reflexivity.
Defined.

(** X27.  A required dictionary is contained in an available
    dictionary exactly when the available one has every required key
    and the value required under the key is contained in the value
    available under it. *)
Theorem contained_dict_every_key (R A : list (string * value))
    (path : string) :
  contained (VDict R) (VDict A) path = Ok true <->
  forall k sub, In (k, sub) R ->
    exists x, dict_get k A = Some x
              /\ contained sub x (path +:+ "->" +:+ k) = Ok true.
Proof.
  rewrite contained_dict.
  induction R as [|[k0 sub0] R IH].
  - split; [intros _ k sub []|reflexivity].
  - cbn [pure_for_k key_in getitem]. split.
    + intros H k sub Hin.
      destruct (dict_get k0 A) as [x0|] eqn:E0; cbn [bind negb] in H;
        [|discriminate H].
      destruct (contained sub0 x0 (path +:+ "->" +:+ k0)) as [[|]|e] eqn:Ec;
        cbn [bind negb] in H; try discriminate H.
      destruct Hin as [[= <- <-]|Hin]; [eauto|].
      apply IH; assumption.
    + intros H.
      destruct (H k0 sub0 (or_introl eq_refl)) as (x0 & E0 & Ec).
      rewrite E0. cbn [bind negb]. rewrite Ec. cbn [bind negb].
      apply IH. intros k sub Hin. apply H. right. exact Hin.
Qed.

(** The loop over a required list without maps: it stops at the first
    element that is not available, and counts every element
    otherwise. *)
Lemma match_items_plain (tests wc : list value) (count : nat) :
  forallb (fun x => negb (is_dict x)) tests = true ->
  match_items tests wc count
  = Ok (if forallb (list_contains wc) tests
        then Fell wc (count + length tests)
        else Returned false).
Proof.
  revert count. induction tests as [|t tests IH]; intros count H.
  - simpl. rewrite Nat.add_0_r. reflexivity.
  - cbn [forallb] in H. apply andb_prop in H as [Ht H].
    cbn [match_items forallb].
    destruct t as [| | | | |d]; try discriminate Ht;
      (destruct (list_contains wc _); cbn [negb andb];
       [rewrite IH by exact H; cbn [length]; rewrite Nat.add_succ_r;
        reflexivity|reflexivity]).
Qed.

(** X11.  A required list that is not empty and holds no map is
    contained in an available list when it starts with [None] and the
    available list is not empty, or when each of its elements is in the
    available list; the same available element serves any number of
    required ones. *)
Theorem contained_plain_list (req avail : list value) (path : string) :
  req <> [] ->
  forallb (fun x => negb (is_dict x)) req = true ->
  contained (VList req) (VList avail) path
  = Ok ((is_none (hd VNone req) && negb (Nat.eqb (length avail) 0))
        || forallb (list_contains avail) req).
Proof.
  intros Hne Hp. rewrite contained_list_eq. unfold contained_list.
  destruct req as [|first rest]; [contradiction|]. cbn [hd].
  replace (match first with VNone => true | _ => false end)
    with (is_none first) by reflexivity.
  replace (Nat.ltb 0 (length avail))
    with (negb (Nat.eqb (length avail) 0))
    by (destruct avail; reflexivity).
  destruct (is_none first && negb (Nat.eqb (length avail) 0));
    [reflexivity|].
  rewrite (match_items_plain _ _ _ Hp). cbn [bind orb].
  destruct (forallb (list_contains avail) (first :: rest)); [|reflexivity].
  rewrite Nat.add_0_l, Nat.eqb_refl. reflexivity.
Qed.

Lemma contained_plain_list_witness :
  contained (VList [VStr "a"; VStr "a"]) (VList [VStr "b"; VStr "a"]) "root"
  = Ok true.
Proof.
  exact (contained_plain_list [VStr "a"; VStr "a"] [VStr "b"; VStr "a"]
           "root" ltac:(discriminate) eq_refl).
Defined.

(** X12.  A required dictionary with at least one key is never
    contained in an available value that is not a dictionary: the answer
    is [False], or a [TypeError] when the first required key occurs in
    the available string or list, or when the available value is [None],
    a boolean or a number. *)
Theorem required_map_needs_map (k : string) (sub a : value)
    (rest : list (string * value)) (path : string) :
  is_dict a = false ->
  contained (VDict ((k, sub) :: rest)) a path
  = match a with
    | VStr s =>
        if str_contains k s
        then Raise (mk_exn TypeError "string indices must be integers")
        else Ok false
    | VList l =>
        if list_contains l (VStr k)
        then Raise (mk_exn TypeError
                      "list indices must be integers or slices, not str")
        else Ok false
    | _ => Raise (mk_exn TypeError "argument is not iterable")
    end.
Proof.
  intros Ha. rewrite contained_dict. cbn [pure_for_k].
  destruct a as [| | |s|l|d]; try discriminate Ha; try reflexivity;
    cbn [key_in bind getitem raise].
  - destruct (str_contains k s); reflexivity.
  - destruct (list_contains l (VStr k)); reflexivity.
Qed.

Lemma required_map_needs_map_witness :
  contained (VDict [("lan", VNone)]) (VStr "wlan") "root"
  = Raise (mk_exn TypeError "string indices must be integers").
Proof.
  exact (required_map_needs_map "lan" VNone (VStr "wlan") [] "root" eq_refl).
Defined.

End EnvCheckFacts.

(** ** [ConfigHelper] *)

Module ConfigHelperFacts.
Import Py ConfigHelper.

Lemma prefix_append (k s : string) :
  String.prefix k s = true <-> exists post, s = k +:+ post.
Proof.
  revert s. induction k as [|a k IH]; intros s.
  - destruct s; simpl; (split; [intros _; eexists; reflexivity|reflexivity]).
  - destruct s as [|b s]; simpl.
    + split; [discriminate|]. intros (post & H). discriminate H.
    + destruct (Ascii.ascii_dec a b) as [->|Hne].
      * rewrite IH. split; intros (post & H); exists post.
        -- rewrite H. reflexivity.
        -- injection H as ->. reflexivity.
      * split; [discriminate|]. intros (post & H). injection H as -> _.
        contradiction.
Qed.

(** [k in s] holds exactly when [s] is some text, [k], some text. *)
Lemma str_contains_append (k s : string) :
  str_contains k s = true <-> exists pre post, s = pre +:+ k +:+ post.
Proof.
  induction s as [|c s IH]; cbn [str_contains]; rewrite orb_true_iff.
  - split.
    + intros [H|H]; [|discriminate H]. apply prefix_append in H as (post & H).
      exists "", post. exact H.
    + intros (pre & post & H). left. apply prefix_append.
      destruct pre; [|discriminate H]. exists post. exact H.
  - rewrite IH, prefix_append. split.
    + intros [(post & H)|(pre & post & H)].
      * exists "", post. exact H.
      * exists (String c pre), post. simpl. rewrite H. reflexivity.
    + intros (pre & post & H). destruct pre as [|c' pre].
      * left. exists post. exact H.
      * right. simpl in H. injection H as -> ->. eauto.
Qed.

(** X13.  [config[key]] raises [ConfigKeyError] exactly for the three
    deprecated keys and for every key that is a part of the word
    [station], the empty key included, whether the dictionary holds the
    key or not; for any other key it is the lookup of [dict], which
    prints nothing but for [mirror]. *)
Theorem getitem_refuses_station_parts (self : config) (key : string) :
  ((__getitem__ self key).2 = Raise ConfigKeyError <->
   In key ["cm_cfg"; "mta_cfg"; "erouter_cfg"]
   \/ exists pre post, "station" = pre +:+ key +:+ post)
  /\ (forall v, (__getitem__ self key).2 = Ok v ->
        dict_get key self = Some v
        /\ ((__getitem__ self key).1 = [] <-> key <> "mirror")).
Proof.
  unfold __getitem__.
  rewrite <- str_contains_append, <- DevicesFacts.mem_In.
  destruct (Devices.mem key ["cm_cfg"; "mta_cfg"; "erouter_cfg"]) eqn:Em.
  { cbn [snd]. split; [split; auto|discriminate]. }
  destruct (str_contains key "station") eqn:Es.
  { cbn [snd]. split; [split; auto|discriminate]. }
  cbn [snd fst]. split.
  - split.
    + destruct (dict_get key self); discriminate.
    + intros [H|H]; discriminate H.
  - destruct (dict_get key self); [|discriminate].
    intros v' [= ->]. split; [reflexivity|].
    destruct (String.eqb key "mirror") eqn:E.
    + apply String.eqb_eq in E. split; [discriminate|contradiction].
    + apply String.eqb_neq in E. split; auto.
Qed.

Lemma dict_set_same {A} (k : string) (v : A) (d : list (string * A)) :
  dict_get k (Devices.dict_set k v d) = Some v.
Proof.
  induction d as [|[k0 v0] d IH]; simpl.
  - rewrite String.eqb_refl. reflexivity.
  - destruct (String.eqb k k0) eqn:E; simpl.
    + rewrite String.eqb_refl. reflexivity.
    + rewrite E. exact IH.
Qed.

(** Lookup after [d.update(e)]: the value of [e] where [e] has the key,
    that of [d] elsewhere. *)
Lemma dict_get_update {A} (k : string) (d e : list (string * A)) :
  List.NoDup (dict_keys e) ->
  dict_get k (Devices.dict_update d e)
  = match dict_get k e with
    | Some v => Some v
    | None => dict_get k d
    end.
Proof.
  unfold Devices.dict_update. revert d.
  induction e as [|[k' v'] e IH]; intros d Hnd; [reflexivity|].
  simpl in Hnd. apply NoDup_cons_iff in Hnd as [Hk Hnd].
  cbn [fold_left fst snd dict_get]. rewrite IH by exact Hnd.
  destruct (String.eqb k k') eqn:E.
  - apply String.eqb_eq in E. subst k'.
    apply DevicesFacts.dict_get_None in Hk. rewrite Hk.
    apply dict_set_same.
  - apply String.eqb_neq in E.
    rewrite (DevicesFacts.dict_set_other k k' v' d E). reflexivity.
Qed.

(** X14.  After [update(cfg)], a key that is not refused reads what
    [cfg] holds under it, or what was there before when [cfg] does not
    have it; what [cfg] holds under [station] is read by [get_station],
    and by it only. *)
Theorem update_then_read (self cfg : config) :
  List.NoDup (dict_keys cfg) ->
  (forall key,
     (__getitem__ self key).2 <> Raise ConfigKeyError ->
     (__getitem__ (update self cfg) key).2
     = match dict_get key cfg with
       | Some v => Ok v
       | None => (__getitem__ self key).2
       end)
  /\ get_station (update self cfg)
     = match dict_get "station" cfg with
       | Some v => Ok v
       | None => get_station self
       end
  /\ (__getitem__ (update self cfg) "station").2 = Raise ConfigKeyError.
Proof.
  intros Hnd. split; [|split].
  - intros key. unfold __getitem__, update.
    destruct (Devices.mem key ["cm_cfg"; "mta_cfg"; "erouter_cfg"]).
    { cbn [snd]. intros H. contradiction. }
    destruct (str_contains key "station").
    { cbn [snd]. intros H. contradiction. }
    cbn [snd]. intros _. rewrite (dict_get_update key self cfg Hnd).
    destruct (dict_get key cfg) as [v|]; reflexivity.
  - unfold get_station, update. rewrite (dict_get_update _ self cfg Hnd).
    destruct (dict_get "station" cfg); reflexivity.
  - reflexivity.
Qed.

Lemma update_then_read_witness :
  get_station (update [] [("station", VStr "lab-7")]) = Ok (VStr "lab-7")
  /\ (__getitem__ (update [] [("station", VStr "lab-7")]) "station").2
     = Raise ConfigKeyError.
Proof.
  pose proof (update_then_read [] [("station", VStr "lab-7")]) as H.
  destruct H as (_ & H1 & H2).
  - repeat constructor. simpl. tauto.
  - split; [exact H1|exact H2].
Defined.

(** The configurations given to [update], in order. *)
Definition updates_of (acts : list action) : list config :=
  flat_map (fun a => match a with
                     | Construct _ => []
                     | Update _ cfg => [cfg]
                     end) acts.

Lemma run_existing (acts : list action) (c : config) :
  run acts (Some c) = Some (fold_left update (updates_of acts) c).
Proof.
  unfold run. revert c. induction acts as [|a acts IH]; intros c;
    [reflexivity|].
  destruct a as [args|args cfg]; cbn [fold_left perform getinstance].
  - rewrite IH. reflexivity.
  - rewrite IH. reflexivity.
Qed.

(** X15.  The decorated class builds one instance, from the arguments
    of its first call; the arguments of every later call are ignored,
    and what the instance holds is what the first call gave it, updated
    by each [update] in turn. *)
Theorem singleton_keeps_first_instance (first : action)
    (acts : list action) :
  run (first :: acts) None
  = Some (fold_left update (updates_of (first :: acts))
            match first with
            | Construct args => args
            | Update args _ => args
            end).
Proof.
  unfold run. destruct first as [args|args cfg];
    cbn [fold_left perform getinstance];
    apply (run_existing acts).
Qed.

End ConfigHelperFacts.

(** ** [device_getters] *)

Module DeviceGettersFacts.
Import Py DeviceGetters.

Section WithDevice.
Context {device : Type}.

(** The text of the error both getters raise. *)
Definition invalid_count (devices : device_manager device) : exn :=
  BftIndexError
    ("Invalid count provided. " +:+ pretty (length (lan_clients devices))
     +:+ " LAN clients available").

Lemma take_count (l : list device) (count : Z) :
  (0 < count <= Z.of_nat (length l))%Z ->
  Z.of_nat (length (firstn (Z.to_nat count) l)) = count
  /\ firstn (Z.to_nat count) l <> []
  /\ l = firstn (Z.to_nat count) l ++ skipn (Z.to_nat count) l.
Proof.
  intros H. repeat split.
  - rewrite length_firstn. lia.
  - destruct l as [|x l]; [simpl in H; lia|].
    destruct (Z.to_nat count) eqn:E; [lia|discriminate].
  - symmetry. apply firstn_skipn.
Qed.

(** The test [0 < count <= n]. *)
Definition in_range (count : Z) (n : nat) : bool :=
  Z.ltb 0 count && Z.leb count (Z.of_nat n).

Lemma in_range_spec (count : Z) (n : nat) :
  in_range count n = true <-> (0 < count <= Z.of_nat n)%Z.
Proof.
  unfold in_range. rewrite andb_true_iff, Z.ltb_lt, Z.leb_le. tauto.
Qed.

(** X16.  Each getter returns the first [count] clients of its list,
    never an empty list, when [count] is at least one and at most the
    number of clients; otherwise it raises boardfarm's [IndexError],
    and the text [get_wan_clients] raises gives the number of LAN
    clients. *)
Theorem get_clients_by_count (devices : device_manager device) (count : Z) :
  ((0 < count <= Z.of_nat (length (lan_clients devices)))%Z ->
   exists r rest, get_lan_clients devices count = Ok r
                  /\ lan_clients devices = r ++ rest
                  /\ Z.of_nat (length r) = count /\ r <> [])
  /\ (~ (0 < count <= Z.of_nat (length (lan_clients devices)))%Z ->
      get_lan_clients devices count = Raise (invalid_count devices))
  /\ ((0 < count <= Z.of_nat (length (wan_clients devices)))%Z ->
      exists r rest, get_wan_clients devices count = Ok r
                     /\ wan_clients devices = r ++ rest
                     /\ Z.of_nat (length r) = count /\ r <> [])
  /\ (~ (0 < count <= Z.of_nat (length (wan_clients devices)))%Z ->
      get_wan_clients devices count = Raise (invalid_count devices)).
Proof.
  unfold get_lan_clients, get_wan_clients, invalid_count.
  fold (in_range count (length (lan_clients devices))).
  fold (in_range count (length (wan_clients devices))).
  repeat split; intros H.
  - destruct (take_count _ _ H) as (H1 & H2 & H3).
    apply in_range_spec in H. rewrite H.
    exists (firstn (Z.to_nat count) (lan_clients devices)),
      (skipn (Z.to_nat count) (lan_clients devices)). auto.
  - rewrite <- in_range_spec in H. apply not_true_is_false in H.
    rewrite H. reflexivity.
  - destruct (take_count _ _ H) as (H1 & H2 & H3).
    apply in_range_spec in H. rewrite H.
    exists (firstn (Z.to_nat count) (wan_clients devices)),
      (skipn (Z.to_nat count) (wan_clients devices)). auto.
  - rewrite <- in_range_spec in H. apply not_true_is_false in H.
    rewrite H. reflexivity.
Qed.

End WithDevice.

End DeviceGettersFacts.

(** ** Prompts and software mappings *)

Module DevicesLookupFacts.
Import Py DevicesLookup.

Lemma for_p_spec (ps ret : list string) :
  (List.NoDup ret -> List.NoDup (for_p ps ret))
  /\ (forall p, In p (for_p ps ret) <-> In p ret \/ In p ps)
  /\ exists rest, for_p ps ret = ret ++ rest.
Proof.
  revert ret. induction ps as [|q ps IH]; intros ret; cbn [for_p].
  - split; [auto|]. split; [simpl; tauto|]. exists []. symmetry.
    apply app_nil_r.
  - destruct (Devices.mem q ret) eqn:E.
    + apply DevicesFacts.mem_In in E.
      destruct (IH ret) as (H1 & H2 & H3). split; [exact H1|].
      split; [|exact H3].
      intros p. rewrite H2. simpl. intuition (subst; auto).
    + apply DevicesFacts.mem_false in E.
      destruct (IH (ret ++ [q])) as (H1 & H2 & rest & H3).
      split; [|split].
      * intros Hnd. apply H1. apply NoDup_ListNoDup, NoDup_app.
        repeat split.
        -- apply NoDup_ListNoDup. exact Hnd.
        -- intros x Hx Hx'. apply list_elem_of_In in Hx, Hx'.
           destruct Hx' as [->|[]]. auto.
        -- apply NoDup_singleton.
      * intros p. rewrite H2, in_app_iff. simpl. tauto.
      * exists (q :: rest). rewrite H3, <- app_assoc. reflexivity.
Qed.

Section PromptFacts.
Context {device : Type}.
Variable prompt_attr : device -> option (list string).

Lemma for_d_spec (ds : list device) (ret : list string) :
  (List.NoDup ret -> List.NoDup (for_d prompt_attr ds ret))
  /\ (forall p, In p (for_d prompt_attr ds ret) <->
        In p ret \/ exists d, In d ds /\ In p (getattr_prompt prompt_attr d))
  /\ exists rest, for_d prompt_attr ds ret = ret ++ rest.
Proof.
  revert ret. induction ds as [|d ds IH]; intros ret; cbn [for_d].
  - split; [auto|]. split.
    + intros p. split; [auto|]. intros [H|(d & [] & _)]. exact H.
    + exists []. symmetry. apply app_nil_r.
  - destruct (IH (for_p (getattr_prompt prompt_attr d) ret))
      as (H1 & H2 & rest & H3).
    destruct (for_p_spec (getattr_prompt prompt_attr d) ret)
      as (P1 & P2 & prest & P3).
    split; [auto|]. split.
    + intros p. rewrite H2, P2. split.
      * intros [[H|H]|(d' & Hd' & Hp)]; eauto.
        -- right. exists d. split; [left; reflexivity|exact H].
        -- right. exists d'. split; [right; exact Hd'|exact Hp].
      * intros [H|(d' & [<-|Hd'] & Hp)]; eauto.
    + exists (prest ++ rest). rewrite H3, P3, <- app_assoc. reflexivity.
Qed.

Lemma for_d_app (ds ds' : list device) (ret : list string) :
  for_d prompt_attr (ds ++ ds') ret
  = for_d prompt_attr ds' (for_d prompt_attr ds ret).
Proof.
  revert ret. induction ds as [|d ds IH]; intros ret; [reflexivity|].
  simpl. apply IH.
Qed.

(** X17.  [get_prompts] lists every prompt of every device once: the
    result has no repetition, holds exactly the prompts some device
    has, and a device added at the end of the manager only adds prompts
    at the end of the list. *)
Theorem get_prompts_once (ds : list device) :
  exists r,
    get_prompts prompt_attr (Some ds) = Ok r
    /\ List.NoDup r
    /\ (forall p, In p r <->
          exists d, In d ds /\ In p (getattr_prompt prompt_attr d))
    /\ forall ds', exists rest,
         get_prompts prompt_attr (Some (ds ++ ds')) = Ok (r ++ rest).
Proof.
  exists (for_d prompt_attr ds []). split; [reflexivity|].
  destruct (for_d_spec ds []) as (H1 & H2 & _). split; [|split].
  - apply H1. constructor.
  - intros p. rewrite H2. simpl. tauto.
  - intros ds'. cbn [get_prompts]. rewrite for_d_app.
    destruct (for_d_spec ds' (for_d prompt_attr ds [])) as (_ & _ & rest & H).
    exists rest. rewrite H. reflexivity.
Qed.

End PromptFacts.

Section MappingFacts.
Context {key : Type}.
Variable re_match : string -> string -> result bool.

(** The patterns a value of the mapping stands for. *)
Definition patterns_of (v : patterns) : list string :=
  match v with
  | One p => [p]
  | Many ps => ps
  end.

Lemma first_match_spec (ps : list string) (sw : string) (m : bool) :
  first_match re_match ps sw = Ok m ->
  if m then exists p, In p ps /\ re_match p sw = Ok true
  else forall p, In p ps -> re_match p sw = Ok false.
Proof.
  induction ps as [|q ps IH]; cbn [first_match].
  - intros [= <-]. intros p [].
  - destruct (re_match q sw) as [[|]|e] eqn:E; cbn [bind].
    + intros [= <-]. exists q. split; [left; reflexivity|exact E].
    + intros H. specialize (IH H). destruct m.
      * destruct IH as (p & Hp & Hm). exists p. split; [right|]; assumption.
      * intros p [<-|Hp]; auto.
    + discriminate.
Qed.

(** X18.  [get_device_mapping_class] returns the first key, in the
    order of the mapping, one of whose patterns matches, every pattern
    of the keys before it having failed to match; it returns [None]
    only when no pattern of any key matches. *)
Theorem mapping_class_is_first_match
    (device_sw_mappings : list (key * patterns)) (sw : string) :
  (forall k, get_device_mapping_class re_match device_sw_mappings sw
             = Ok (Some k) ->
     exists pre v post,
       device_sw_mappings = pre ++ (k, v) :: post
       /\ (exists p, In p (patterns_of v) /\ re_match p sw = Ok true)
       /\ forall k' v' p', In (k', v') pre -> In p' (patterns_of v') ->
                           re_match p' sw = Ok false)
  /\ (get_device_mapping_class re_match device_sw_mappings sw = Ok None ->
      forall k v p, In (k, v) device_sw_mappings -> In p (patterns_of v) ->
                    re_match p sw = Ok false).
Proof.
  induction device_sw_mappings as [|[k0 v0] rest IH];
    cbn [get_device_mapping_class].
  - split; [discriminate|]. intros _ k v p [].
  - fold (patterns_of v0).
    destruct (first_match re_match (patterns_of v0) sw) as [[|]|e] eqn:E;
      cbn [bind].
    + apply first_match_spec in E. split; [|discriminate].
      intros k [= <-]. exists [], v0, rest. split; [reflexivity|].
      split; [exact E|]. intros k' v' p' [].
    + apply first_match_spec in E. destruct IH as [IH1 IH2]. split.
      * intros k H. destruct (IH1 k H) as (pre & v & post & -> & Hm & Hpre).
        exists ((k0, v0) :: pre), v, post. split; [reflexivity|].
        split; [exact Hm|].
        intros k' v' p' [[= <- <-]|Hin] Hp; [auto|eauto].
      * intros H k v p [[= <- <-]|Hin] Hp; [auto|eauto].
    + split; discriminate.
Qed.

End MappingFacts.

End DevicesLookupFacts.

(** ** [get_device]: selection, registration, composition *)

Module GetDeviceFacts.
Import Py PyHeap Devices DevicesFacts.

Section WithWorld.
Context {world : Type}.
Implicit Types (c : pyclass world) (cls_list : list (pyclass world))
  (s : state world) (kw : kwargs).

Lemma check_members_inr_quiet cls_list (r : list (pyclass world)) :
  check_members cls_list cls_list [] [] = inr r ->
  r = cls_list /\ ~ shares_member cls_list.
Proof.
  intros E. apply check_members_inr in E as [-> Hd].
  split; [reflexivity|]. intros Hsh.
  apply shares_member_split in Hsh as (pre & c & post & x & Eq & Hc & Hp).
  eapply Hd; eauto.
Qed.

(** What a call of [bf_node] that returns has done. *)
Lemma bf_node_done cls_list (model : string)
    (device_mgr : option (device_manager world)) kw s s'
    (inst : instance world) :
  bf_node cls_list model device_mgr kw s = (s', Done inst) ->
  ~ shares_member cls_list
  /\ duplicate_base cls_list = None
  /\ exists d,
       run_inits cls_list [] model (option_map mgr_id device_mgr) kw s
       = (s', Done d)
       /\ inst = mk_instance (String.concat "_" (map cls_name cls_list))
                   cls_list d kw.
Proof.
  unfold bf_node.
  destruct (check_members cls_list cls_list [] []) as [[common classes]|temp]
    eqn:E; [discriminate|].
  apply check_members_inr_quiet in E as [-> Hq].
  destruct (duplicate_base cls_list); [discriminate|].
  destruct (mem "mgr" (dict_keys kw)); [discriminate|].
  unfold dbind.
  destruct (run_inits cls_list [] model _ kw s) as [s2 [d|e|]] eqn:Er;
    intros H; try discriminate H.
  injection H as <- <-. eauto.
Qed.

(** What a [try] block that returns has done. *)
Lemma try_block_done (model : string)
    (device_mgr : option (device_manager world))
    (override plugin : option loc)
    (cl pl : list (pyclass world)) (kw1 : kwargs) s1 s'
    (ret : instance world) :
  try_except model
    (try_block model device_mgr override plugin (cl, pl, kw1)) s1
  = (s', Done ret) ->
  cl ++ pl <> []
  /\ ~ shares_member (cl ++ pl)
  /\ exists d s2,
       run_inits (cl ++ pl) [] model (option_map mgr_id device_mgr) kw1 s1
       = (s2, Done d)
       /\ ret = mk_instance (String.concat "_" (map cls_name (cl ++ pl)))
                  (cl ++ pl) d kw1
       /\ st_heap s' = st_heap s2 /\ st_log s' = st_log s2
       /\ st_calls s' = st_calls s2.
Proof.
  unfold try_except, try_block.
  destruct (Nat.eqb (length (cl ++ pl)) 0) eqn:El; [discriminate|].
  assert (cl ++ pl <> []) as Hne.
  { intros E. rewrite E in El. discriminate El. }
  unfold call_bf_node.
  destruct (List.filter _ _); [|discriminate].
  unfold dbind at 1.
  destruct (bf_node (cl ++ pl) model device_mgr kw1 s1) as [s2 [inst|e|]]
    eqn:Eb; try discriminate.
  apply bf_node_done in Eb as (Hq & _ & d & Hrun & ->).
  destruct device_mgr as [m|].
  - unfold dbind, call_add_device.
    destruct (_add_device m _ override plugin (st_world s2)) as [w [u|e]];
      [|discriminate].
    intros [= <- <-]. repeat split; auto. exists d, s2. auto.
  - intros [= <- <-]. repeat split; auto. exists d, s2. auto.
Qed.

Lemma get_device_done (registry : list (string * list (pyclass world)))
    (model : string) (device_mgr : option (device_manager world)) kw s s'
    (ret : instance world) :
  get_device registry model device_mgr kw s = (s', Done ret) ->
  exists s1 cl pl kw1 d s2,
    resolve model (dict_get "profile" kw) (concat (map snd registry))
      ([], [], passthrough kw) s = (s1, Done (cl, pl, kw1))
    /\ cl ++ pl <> []
    /\ ~ shares_member (cl ++ pl)
    /\ run_inits (cl ++ pl) [] model (option_map mgr_id device_mgr) kw1 s1
       = (s2, Done d)
    /\ ret = mk_instance (String.concat "_" (map cls_name (cl ++ pl)))
               (cl ++ pl) d kw1
    /\ st_heap s' = st_heap s2 /\ st_log s' = st_log s2
    /\ st_calls s' = st_calls s2.
Proof.
  rewrite get_device_eq.
  destruct (resolve model _ _ _ s) as [s1 [[[cl pl] kw1]|e|]] eqn:Er;
    try discriminate.
  intros H.
  apply try_block_done in H as (Hne & Hq & d & s2 & H1 & H2 & H3 & H4 & H5).
  exists s1, cl, pl, kw1, d, s2. repeat split; auto.
Qed.

Lemma class_in_app_self c cl : class_in c (cl ++ [c]) = true.
Proof.
  unfold class_in. rewrite existsb_app. simpl. unfold same_class.
  rewrite Nat.eqb_refl. apply orb_true_iff. right. reflexivity.
Qed.

(** One step of the selection loop: the class joins [cls_list] exactly
    when its model matches, and joins [profile_list] only when it does
    not match and a profile was given. *)
Lemma resolve_dev_lists (model : string) (profile : option loc) c
    cl pl kw s s' (cl' pl' : list (pyclass world)) (kw' : kwargs) :
  resolve_dev model profile c (cl, pl, kw) s = (s', Done (cl', pl', kw')) ->
  cl' = (if is_primary model c then cl ++ [c] else cl)
  /\ (pl' = pl
      \/ (pl' = pl ++ [c] /\ is_primary model c = false
          /\ profile <> None)).
Proof.
  unfold resolve_dev, is_primary.
  destruct (dict_get "model" (cls_dict c)) as [attr|].
  2:{ intros [= <- <- <- <-]. auto. }
  unfold dbind at 1.
  destruct (match profile with
            | Some p => read_dict p
            | None => dret []
            end s) as [s0 [pitems|e0|]] eqn:Er; try discriminate.
  destruct (profile_key attr pitems) as [key|] eqn:Ek.
  2:{ intros [= <- <- <- <-]. auto. }
  assert (profile <> None) as Hp.
  { intros ->. injection Er as <- <-. discriminate Ek. }
  destruct (dict_get key pitems) as [q|]; [|discriminate].
  destruct (class_in c _) eqn:Ec.
  { unfold dbind, log, dret. intros [= <- <- <- <-]. auto. }
  assert (matches_model model attr = false) as Hm.
  { destruct (matches_model model attr); [|reflexivity].
    rewrite class_in_app_self in Ec. discriminate Ec. }
  rewrite Hm.
  unfold dbind at 1. unfold read_dict.
  destruct (st_heap s0 !! q) as [[| | | | |pk]|]; try discriminate.
  destruct (Nat.ltb 0 _); unfold dbind, log, write_dict, dret; simpl;
    intros [= <- <- <- <-]; auto.
Qed.

(** The selection loop: [cls_list] gains the classes whose model
    matches, in the order of the registry; [profile_list] gains classes
    of the registry that do not match, in that order too, and none
    without a profile. *)
Lemma resolve_lists (model : string) (profile : option loc)
    (devs : list (pyclass world)) cl pl kw s s'
    (cl' pl' : list (pyclass world)) (kw' : kwargs) :
  resolve model profile devs (cl, pl, kw) s = (s', Done (cl', pl', kw')) ->
  cl' = cl ++ List.filter (is_primary model) devs
  /\ exists ext,
       pl' = pl ++ ext
       /\ sublist ext (List.filter (fun c => negb (is_primary model c)) devs)
       /\ (profile = None -> ext = []).
Proof.
  revert cl pl kw s.
  induction devs as [|c devs IH]; intros cl pl kw s H.
  - injection H as <- <- <- <-. rewrite app_nil_r. split; [reflexivity|].
    exists []. rewrite app_nil_r. repeat split; auto using sublist_nil.
  - rewrite resolve_cons in H.
    destruct (resolve_dev model profile c (cl, pl, kw) s)
      as [s1 [[[cl1 pl1] kw1]|e1|]] eqn:E; try discriminate H.
    apply resolve_dev_lists in E as [-> Hpl].
    apply IH in H as (-> & ext & -> & Hsub & Hnone).
    cbn [List.filter]. split.
    + destruct (is_primary model c); [|reflexivity].
      rewrite <- app_assoc. reflexivity.
    + destruct Hpl as [->|(-> & Hc & Hp)].
      * exists ext. repeat split; auto.
        destruct (is_primary model c); cbn [negb]; [exact Hsub|].
        apply sublist_cons. exact Hsub.
      * exists (c :: ext). rewrite <- app_assoc. repeat split; auto.
        -- rewrite Hc. cbn [negb]. apply sublist_skip. exact Hsub.
        -- intros ->. contradiction.
Qed.

(** X19.  The bases of the instance [get_device] returns are the
    registered classes whose model matches, in the order of the
    registry, followed by profile extensions: classes of the registry
    that do not match, in the order of the registry too, and none when
    no profile is passed.  The class is named after its bases. *)
Theorem get_device_bases (registry : list (string * list (pyclass world)))
    (model : string) (device_mgr : option (device_manager world)) kw s s'
    (ret : instance world) :
  get_device registry model device_mgr kw s = (s', Done ret) ->
  exists ext,
    inst_bases ret
    = List.filter (is_primary model) (concat (map snd registry)) ++ ext
    /\ sublist ext
         (List.filter (fun c => negb (is_primary model c))
            (concat (map snd registry)))
    /\ (dict_get "profile" kw = None -> ext = [])
    /\ inst_bases ret <> []
    /\ inst_type_name ret
       = String.concat "_" (map cls_name (inst_bases ret)).
Proof.
  intros H.
  apply get_device_done in H
    as (s1 & cl & pl & kw1 & d & s2 & Hres & Hne & _ & _ & -> & _).
  apply resolve_lists in Hres as (-> & ext & -> & Hsub & Hnone).
  exists ext. cbn [inst_bases inst_type_name]. auto.
Qed.

(** No profile is passed, or the profile passed is empty. *)
Definition without_profile kw s : Prop :=
  match dict_get "profile" kw with
  | None => True
  | Some p => st_heap s !! p = Some (ODict [])
  end.

Lemma resolve_plain (model : string) (profile : option loc)
    (devs : list (pyclass world)) cl pl kw s :
  match profile with
  | None => True
  | Some p => st_heap s !! p = Some (ODict [])
  end ->
  resolve model profile devs (cl, pl, kw) s
  = (s, Done (cl ++ List.filter (is_primary model) devs, pl, kw)).
Proof.
  intros Hp. revert cl.
  induction devs as [|c devs IH]; intros cl.
  - simpl. rewrite app_nil_r. reflexivity.
  - rewrite resolve_cons.
    assert (resolve_dev model profile c (cl, pl, kw) s
            = (s, Done (if is_primary model c then cl ++ [c] else cl,
                        pl, kw))) as ->.
    { unfold resolve_dev, is_primary.
      destruct (dict_get "model" (cls_dict c)) as [attr|]; [|reflexivity].
      unfold dbind.
      destruct profile as [p|]; [unfold read_dict; rewrite Hp|];
        reflexivity. }
    rewrite IH. cbn [List.filter].
    destruct (is_primary model c); [|reflexivity].
    rewrite <- app_assoc. reflexivity.
Qed.

(** X20.  Without a profile, a call that returns has run the
    initializer of each matching class once, in the order of the
    registry, and nothing else: the store and the log are as before,
    and the target of the instance is the keyword arguments without
    [override] and [plugin_device]. *)
Theorem get_device_without_profile
    (registry : list (string * list (pyclass world)))
    (model : string) (device_mgr : option (device_manager world)) kw s s'
    (ret : instance world) :
  without_profile kw s ->
  get_device registry model device_mgr kw s = (s', Done ret) ->
  inst_bases ret
  = List.filter (is_primary model) (concat (map snd registry))
  /\ target ret = passthrough kw
  /\ st_calls s' = st_calls s ++ map cls_id (inst_bases ret)
  /\ st_heap s' = st_heap s
  /\ st_log s' = st_log s.
Proof.
  intros Hp H.
  apply get_device_done in H
    as (s1 & cl & pl & kw1 & d & s2 & Hres & _ & _ & Hrun & -> & Hh & Hl
        & Hc).
  rewrite (resolve_plain model _ _ [] [] _ s Hp) in Hres.
  injection Hres as <- <- <- <-.
  apply run_inits_calls in Hrun as (Hh2 & Hl2 & Hc2).
  cbn [inst_bases target]. rewrite app_nil_r in *.
  repeat split; congruence.
Qed.

(** X21.  Without a profile, a model that no registered class matches
    makes [get_device] raise [BftNotSupportedDevice] with the model in
    its text, before any initializer or the manager is called: the
    state is as before. *)
Theorem get_device_unknown_model
    (registry : list (string * list (pyclass world)))
    (model : string) (device_mgr : option (device_manager world)) kw s :
  without_profile kw s ->
  (forall c, In c (concat (map snd registry)) ->
             is_primary model c = false) ->
  get_device registry model device_mgr kw s
  = (s, Throw (mk_exn BftNotSupportedDevice
                 ("Unable to spawn instance of model: " +:+ model))).
Proof.
  intros Hp Hnone. rewrite get_device_eq.
  rewrite (resolve_plain model _ _ [] [] _ s Hp).
  assert (List.filter (is_primary model) (concat (map snd registry)) = [])
    as ->.
  { induction (concat (map snd registry)) as [|c l IH]; [reflexivity|].
    simpl. rewrite (Hnone c) by (left; reflexivity).
    apply IH. intros c' Hc'. apply Hnone. right. exact Hc'. }
  reflexivity.
Qed.





Lemma duplicate_base_NoDup cls_list :
  duplicate_base cls_list = None -> List.NoDup (map cls_id cls_list).
Proof.
  induction cls_list as [|c l IH]; simpl; [constructor|].
  destruct (class_in c l) eqn:E; [discriminate|].
  intros H. constructor; [|apply IH; exact H].
  intros Hin. apply in_map_iff in Hin as (x & Hx & Hin).
  unfold class_in in E.
  assert (existsb (fun c0 => same_class c0 c) l = true) as E'.
  { apply existsb_exists. exists x. split; [exact Hin|].
    unfold same_class. rewrite Hx. apply Nat.eqb_refl. }
  congruence.
Qed.

(** X26.  Without a profile, a registry in which the same class (the
    same class object, by identity) matches the model more than once
    cannot be instantiated: [get_device] raises an [Exception], from
    the duplicate-member check, from [type] refusing the repeated base
    or from the keyword arguments, before any initializer runs. *)
Theorem get_device_registered_twice
    (registry : list (string * list (pyclass world)))
    (model : string) (device_mgr : option (device_manager world)) kw s :
  without_profile kw s ->
  ~ List.NoDup
      (map cls_id
         (List.filter (is_primary model) (concat (map snd registry)))) ->
  exists msg,
    get_device registry model device_mgr kw s
    = (s, Throw (mk_exn Exception msg)).
Proof.
  intros Hp Hdup. rewrite get_device_eq.
  rewrite (resolve_plain model _ _ [] [] _ s Hp). cbn [app].
  set (l := List.filter (is_primary model) (concat (map snd registry))) in *.
  unfold try_except, try_block. rewrite app_nil_r.
  destruct (Nat.eqb (length l) 0) eqn:El.
  { exfalso. apply Hdup. destruct l; [constructor|discriminate El]. }
  unfold call_bf_node.
  destruct (List.filter _ ["cls_list"; "model"; "device_mgr"]) as [|p0 ps].
  2:{ unfold dbind, dthrow. eexists. reflexivity. }
  unfold dbind at 1. unfold bf_node.
  destruct (check_members l l [] []) as [[common classes]|temp] eqn:E.
  { unfold dthrow. eexists. reflexivity. }
  apply check_members_inr_quiet in E as [-> _].
  destruct (duplicate_base l) as [c|] eqn:Ed.
  { unfold dthrow. eexists. reflexivity. }
  exfalso. apply Hdup. apply duplicate_base_NoDup. exact Ed.
Qed.

(** *** Where the keys of the target come from *)

(** Every dictionary of [h] is a dictionary of [h0] at the same
    address, with some of its items. *)
Definition dicts_from (h0 h : heap) : Prop :=
  forall q d', h !! q = Some (ODict d') ->
    exists d, h0 !! q = Some (ODict d) /\ forall kv, In kv d' -> In kv d.

Lemma dicts_from_refl (h : heap) : dicts_from h h.
Proof. intros q d H. eauto. Qed.

Lemma dicts_from_trans (h1 h2 h3 : heap) :
  dicts_from h1 h2 -> dicts_from h2 h3 -> dicts_from h1 h3.
Proof.
  intros H12 H23 q d3 H3. destruct (H23 _ _ H3) as (d2 & H2 & Hi2).
  destruct (H12 _ _ H2) as (d1 & H1 & Hi1). eauto.
Qed.

Lemma dict_update_get_inv {A} (k : string) (v : A)
    (d e : list (string * A)) :
  dict_get k (dict_update d e) = Some v ->
  dict_get k d = Some v \/ In (k, v) e.
Proof.
  unfold dict_update. revert d.
  induction e as [|[k' v'] e IH]; intros d H; [left; exact H|].
  cbn [fold_left fst snd] in H.
  apply IH in H as [H|H]; [|right; right; exact H].
  destruct (String.eqb k k') eqn:E.
  - apply String.eqb_eq in E. subst k'.
    rewrite ConfigHelperFacts.dict_set_same in H. injection H as ->.
    right. left. reflexivity.
  - apply String.eqb_neq in E. rewrite (dict_set_other k k' v' d E) in H.
    left. exact H.
Qed.

(** A key that [kwargs] has after a step of the selection loop was
    there with the same value before, or was not there and is an item
    of a dictionary the profile holds. *)
Definition from_profile (h : heap) (pd : list (string * loc))
    (kw kw' : kwargs) : Prop :=
  forall k v, dict_get k kw' = Some v ->
    dict_get k kw = Some v
    \/ (dict_get k kw = None
        /\ exists a q d, dict_get a pd = Some q
                         /\ h !! q = Some (ODict d) /\ In (k, v) d).

Lemma resolve_dev_provenance (model : string) (p : loc)
    (pd : list (string * loc)) c cl pl kw s s'
    (cl' pl' : list (pyclass world)) (kw' : kwargs) :
  st_heap s !! p = Some (ODict pd) ->
  resolve_dev model (Some p) c (cl, pl, kw) s
  = (s', Done (cl', pl', kw')) ->
  dicts_from (st_heap s) (st_heap s')
  /\ from_profile (st_heap s) pd kw kw'.
Proof.
  intros Hp H. unfold resolve_dev in H.
  assert (from_profile (st_heap s) pd kw kw) as Hsame
    by (intros k v Hk; left; exact Hk).
  destruct (dict_get "model" (cls_dict c)) as [attr|].
  2:{ injection H as <- <- <- <-. split; auto using dicts_from_refl. }
  unfold dbind at 1 in H. unfold read_dict at 1 in H. rewrite Hp in H.
  destruct (profile_key attr pd) as [key|].
  2:{ injection H as <- <- <- <-. split; auto using dicts_from_refl. }
  destruct (dict_get key pd) as [q|] eqn:Hq; [|discriminate H].
  destruct (class_in c _).
  { unfold dbind, log, dret in H. injection H as <- <- <- <-. simpl.
    split; auto using dicts_from_refl. }
  unfold dbind at 1 in H. unfold read_dict in H.
  destruct (st_heap s !! q) as [[| | | | |pk]|] eqn:Hpk;
    try discriminate H.
  assert (forall pk' : list (string * loc),
            (forall kv, In kv pk' -> In kv pk) ->
            (forall k, In k (dict_keys pk') -> ~ In k (dict_keys kw)) ->
            from_profile (st_heap s) pd kw (dict_update kw pk')) as Hupd.
  { intros pk' Hsub Hdis k v Hk.
    apply dict_update_get_inv in Hk as [Hk|Hk]; [left; exact Hk|].
    right. split.
    - apply dict_get_None. apply Hdis.
      apply (in_map fst) in Hk. exact Hk.
    - exists key, q, pk. auto. }
  destruct (Nat.ltb 0 (length (set_inter (dict_keys kw) (dict_keys pk))))
    eqn:Hc.
  - unfold dbind, log, write_dict, dret in H. simpl in H.
    injection H as <- <- <- <-. simpl. split.
    + intros l d' Hl. destruct (decide (l = q)) as [->|Hne].
      * rewrite lookup_insert_eq in Hl. injection Hl as <-.
        exists pk. split; [exact Hpk|]. intros kv Hkv.
        apply filter_In in Hkv. tauto.
      * rewrite lookup_insert_ne in Hl by auto. eauto.
    + apply Hupd.
      * intros kv Hkv. apply filter_In in Hkv. tauto.
      * intros k Hk Hkw.
        apply (filter_keys_In
                 (fun k => negb (mem k (set_inter (dict_keys kw)
                                          (dict_keys pk))))) in Hk
          as [Hk Hf].
        apply negb_true_iff, mem_false in Hf. apply Hf.
        apply set_inter_In. auto.
  - unfold dbind, dret in H. injection H as <- <- <- <-.
    split; [apply dicts_from_refl|]. apply Hupd; [auto|].
    intros k Hk Hkw. eapply set_inter_nil; eauto.
Qed.

Lemma resolve_provenance (model : string) (p : loc)
    (pd : list (string * loc)) (devs : list (pyclass world)) cl pl kw s s'
    (cl' pl' : list (pyclass world)) (kw' : kwargs) :
  st_heap s !! p = Some (ODict pd) ->
  ~ In p (map snd pd) ->
  resolve model (Some p) devs (cl, pl, kw) s
  = (s', Done (cl', pl', kw')) ->
  dicts_from (st_heap s) (st_heap s')
  /\ from_profile (st_heap s) pd kw kw'.
Proof.
  intros Hp Hself. revert cl pl kw s Hp.
  induction devs as [|c devs IH]; intros cl pl kw s Hp H.
  - injection H as <- <- <- <-. split; [apply dicts_from_refl|].
    intros k v Hk. left. exact Hk.
  - rewrite resolve_cons in H.
    destruct (resolve_dev model (Some p) c (cl, pl, kw) s)
      as [s1 [[[cl1 pl1] kw1]|e1|]] eqn:E; try discriminate H.
    destruct (resolve_dev_inv _ _ _ _ _ _ _ _ _ _ _ _ Hp Hself E)
      as (Hp1 & _ & Hk1 & _).
    destruct (resolve_dev_provenance _ _ _ _ _ _ _ _ _ _ _ _ Hp E)
      as (Hd1 & Hf1).
    destruct (IH _ _ _ _ Hp1 H) as (Hd2 & Hf2).
    split; [eauto using dicts_from_trans|].
    intros k v Hk.
    destruct (Hf2 k v Hk) as [Hk'|(Hnone & a & q & d & Ha & Hq & Hin)].
    + apply Hf1. exact Hk'.
    + right. split.
      * destruct (dict_get k kw) as [v0|] eqn:E0; [|reflexivity].
        exfalso. rewrite Hk1 in Hnone; [congruence|].
        apply dict_keys_In. rewrite E0. discriminate.
      * destruct (Hd1 _ _ Hq) as (d0 & Hq0 & Hsub).
        exists a, q, d0. auto.
Qed.

(** X24.  The target of the instance holds the caller's keyword
    arguments, and besides them nothing but items of the dictionaries
    the profile holds: a key of the target either has the value the
    caller gave it, or was not given by the caller and is, with its
    value, an item of one of those dictionaries as they were before the
    call. *)
Theorem target_keys_provenance
    (registry : list (string * list (pyclass world)))
    (model : string) (device_mgr : option (device_manager world))
    kw s s' (ret : instance world) (p : loc) (pd : list (string * loc)) :
  dict_get "profile" kw = Some p ->
  st_heap s !! p = Some (ODict pd) ->
  ~ In p (map snd pd) ->
  get_device registry model device_mgr kw s = (s', Done ret) ->
  (forall k, In k (dict_keys (passthrough kw)) ->
     dict_get k (target ret) = dict_get k (passthrough kw))
  /\ forall k v, dict_get k (target ret) = Some v ->
       dict_get k (passthrough kw) = Some v
       \/ (dict_get k (passthrough kw) = None
           /\ exists a q d, dict_get a pd = Some q
                            /\ st_heap s !! q = Some (ODict d)
                            /\ In (k, v) d).
Proof.
  intros Hprof Hp Hself H.
  apply get_device_done in H
    as (s1 & cl & pl & kw1 & d & s2 & Hres & _ & _ & _ & -> & _).
  rewrite Hprof in Hres. cbn [target]. split.
  - eapply resolve_inv; eauto.
  - eapply resolve_provenance; eauto.
Qed.

End WithWorld.

Import Scenario.

Lemma get_device_bases_witness :
  exists ext,
    [D1; Bridge] = List.filter (is_primary "modemA") [D1; Bridge] ++ ext
    /\ sublist ext
         (List.filter (fun c => negb (is_primary "modemA" c)) [D1; Bridge])
    /\ (dict_get "profile" kw_B = None -> ext = [])
    /\ [D1; Bridge] <> []
    /\ "D1_Bridge" = String.concat "_" (map cls_name [D1; Bridge]).
Proof.
  exact (get_device_bases [("plugin.devices", [D1; Bridge])] "modemA"
           (Some manager) kw_B (start heap_B) after_B
           (mk_instance "D1_Bridge" [D1; Bridge] []
              [("profile", 1%positive); ("mode", 5%positive);
               ("vlan", 4%positive)])
           eq_refl).
Defined.

Lemma get_device_without_profile_witness :
  [D1; D2] = List.filter (is_primary "modemA") [D1; D2; Bridge]
  /\ [("username", 3%positive)]
     = passthrough [("plugin_device", 3%positive); ("username", 3%positive)]
  /\ [1; 2] = [] ++ map cls_id [D1; D2]
  /\ heap_A = heap_A
  /\ @nil (warning) = [].
Proof.
  exact (get_device_without_profile
           [("plugin.devices.modem", [D1; D2]);
            ("plugin.devices.profiles", [Bridge])] "modemA"
           (Some manager)
           [("plugin_device", 3%positive); ("username", 3%positive)]
           (start heap_A) (mk_state heap_A tt [] [1; 2])
           (mk_instance "D1_D2" [D1; D2] [] [("username", 3%positive)])
           I eq_refl).
Defined.

Lemma get_device_unknown_model_witness :
  get_device [("plugin.devices.modem", [D1; D2])] "modemZ" (Some manager)
    [] (start heap_A)
  = (start heap_A,
     Throw (mk_exn BftNotSupportedDevice
              "Unable to spawn instance of model: modemZ")).
Proof.
  refine (get_device_unknown_model [("plugin.devices.modem", [D1; D2])]
            "modemZ" (Some manager) [] (start heap_A) I _).
  intros c [<-|[<-|[]]]; reflexivity.
Defined.




Lemma get_device_registered_twice_witness :
  exists msg,
    get_device [("plugin.devices.p", [P]); ("plugin.devices.again", [P])]
      "modemA" (Some manager) [] (start heap_A)
    = (start heap_A, Throw (mk_exn Exception msg)).
Proof.
  refine (get_device_registered_twice
            [("plugin.devices.p", [P]); ("plugin.devices.again", [P])]
            "modemA" (Some manager) [] (start heap_A) I _).
  simpl. intros H. apply NoDup_cons_iff in H as [H _]. apply H.
  left. reflexivity.
Defined.

Lemma target_keys_provenance_witness :
  dict_get "vlan" (passthrough kw_B) = Some 4%positive
  \/ (dict_get "vlan" (passthrough kw_B) = None
      /\ exists a q d,
           dict_get a [("bridged", 2%positive)] = Some q
           /\ heap_B !! q = Some (ODict d) /\ In ("vlan", 4%positive) d).
Proof.
  refine (proj2 (target_keys_provenance [("plugin.devices", [D1; Bridge])]
                   "modemA" (Some manager) kw_B (start heap_B) after_B
                   (mk_instance "D1_Bridge" [D1; Bridge] []
                      [("profile", 1%positive); ("mode", 5%positive);
                       ("vlan", 4%positive)])
                   1%positive [("bridged", 2%positive)]
                   eq_refl eq_refl _ eq_refl) "vlan" 4%positive eq_refl).
  simpl. intros [H|[]]. discriminate H.
Defined.

End GetDeviceFacts.
